(** * sms-backup-and-restore-parser: decoder, sinks and contact guessing

    A shallow embedding of the Go package [smsbackuprestore] (xml.go,
    sms.go, guessing.go) and of the sqlite command-line driver
    (cmd/sbrparser), followed by the properties proved about them.

    Conventions of the embedding:
    - Go [string] is [string]; a slice is a [list]; [map[string]*Contact]
      is [gmap string Contact] (every key owns its own [Contact], so the
      pointer indirection carries no aliasing);
    - [log.Printf] appends the formatted message to an explicit log;
    - a Go [error] is an [option] of an error value, [None] being [nil];
    - a [panic] is a distinguished outcome, never confused with an error;
    - Go [int] is a 64-bit two's complement integer, kept as a [Z] that
      is wrapped after every increment;
    - a loop over the XML input takes fuel and answers [None] when it
      runs out; with the fuel the callers give it never does
      ([MessageDecoder_Decode_total], [main_total]). *)

From Stdlib Require Import Ascii String ZArith.
From stdpp Require Import gmap strings list fin_maps pretty.

Open Scope string_scope.
Open Scope list_scope.
Open Scope nat_scope.

(** ** Errors and outcomes *)

(** Go [error] values met in the package. *)
Inductive error :=
| EOF                                        (* io.EOF *)
| SyntaxError (msg : string)                 (* *xml.SyntaxError *)
| ErrorString (msg : string)                 (* errors.New and the like *)
| Errorf (prefix : string) (wrapped : error) (* fmt.Errorf("<prefix>: %w", err) *).

(** [errors.Is(err, io.EOF)]: [err] is [io.EOF] or wraps it. *)
Fixpoint errors_Is_EOF (err : error) : bool :=
  match err with
  | EOF => true
  | Errorf _ wrapped => errors_Is_EOF wrapped
  | _ => false
  end.

(** How a call that may panic ends. *)
Inductive outcome :=
| Return (err : option error)
| Panic (msg : string).

(** ** Writers *)

Definition tab : string := String "009"%char "".
Definition newline : string := String "010"%char "".

(** Go's [io.Writer]: writing changes the writer and may fail. *)
Class Writer (W : Type) := Write : W → string → option error * W.
Global Hint Mode Writer ! : typeclass_instances.

(** A writer that keeps every chunk it was given, like a [bytes.Buffer]
    whose contents are the concatenation of the chunks. *)
Global Instance chunk_writer : Writer (list string) :=
  λ chunks p, (None, chunks ++ [p]).

(** ** Pieces of the Go standard library used by the package *)

Module strings.

(** [strings.Split(s, sep)] for a one-byte separator: the pieces of [s]
    between consecutive occurrences of [sep]; never the empty slice. *)
Fixpoint Split (s : string) (sep : ascii) : list string :=
  match s with
  | EmptyString => [EmptyString]
  | String c s' =>
      if decide (c = sep) then EmptyString :: Split s' sep
      else match Split s' sep with
           | [] => [String c EmptyString]
           | x :: xs => String c x :: xs
           end
  end.

(** [strings.Join(elems, sep)]. *)
Fixpoint Join (elems : list string) (sep : string) : string :=
  match elems with
  | [] => ""
  | [x] => x
  | x :: xs => x +:+ sep +:+ Join xs sep
  end.

(** [strings.HasPrefix(s, prefix)]. *)
Fixpoint HasPrefix (s prefix : string) : bool :=
  match prefix, s with
  | EmptyString, _ => true
  | String p prefix', String c s' =>
      if decide (p = c) then HasPrefix s' prefix' else false
  | String _ _, EmptyString => false
  end.

End strings.

Module fmt.

(** The verb [%d] applied to a slice length. *)
Definition d (n : nat) : string := pretty n.

(** The verb [%v] applied to a [[]string]: the elements separated by one
    space, in square brackets. *)
Definition v (l : list string) : string :=
  "[" +:+ strings.Join l " " +:+ "]".

(** [fmt.Fprintln(f, s)] for one string operand. *)
Definition Fprintln `{Writer W} (f : W) (s : string) : option error * W :=
  Write f (s +:+ newline).

End fmt.

(** ** Record model

    [PhoneNumber] and [AndroidTS] are string types in the package (the
    code converts with [string(sms.Address)] and [AndroidTS(attr.Value)]);
    the remaining scalar types are used only through [String()] and stay
    abstract. *)

Definition PhoneNumber := string.
Definition AndroidTS := string.

Record Part := mkPart {
  part_ContentType : string;
  part_Name : string;
  part_FileName : string;
  part_ContentDisplay : string;
  part_Text : string;
  part_Base64Data : string
}.

Section RecordModel.

Context {SMSMessageType SMSStatus ReadStatus BoolValue AddressType : Type}.

Record SMS := mkSMS {
  sms_Protocol : string;
  sms_Address : PhoneNumber;
  sms_Type : SMSMessageType;
  sms_Subject : string;
  sms_Body : string;
  sms_ServiceCenter : PhoneNumber;
  sms_Status : SMSStatus;
  sms_Read : ReadStatus;
  sms_Date : AndroidTS;
  sms_Locked : BoolValue;
  sms_DateSent : AndroidTS;
  sms_ReadableDate : string;
  sms_ContactName : string
}.

Record MMSAddress := mkMMSAddress {
  addr_Address : PhoneNumber;
  addr_Type : AddressType;
  addr_Charset : string
}.

Record MMS := mkMMS {
  mms_TextOnly : BoolValue;
  mms_Read : ReadStatus;
  mms_Date : AndroidTS;
  mms_Locked : BoolValue;
  mms_DateSent : AndroidTS;
  mms_ReadableDate : string;
  mms_ContactName : string;
  mms_Seen : BoolValue;
  mms_FromAddress : PhoneNumber;
  mms_Address : PhoneNumber;
  mms_MessageClassifier : string;
  mms_MessageSize : string;
  mms_Addresses : list MMSAddress;
  mms_Parts : list Part
}.

Record Messages := mkMessages {
  msgs_SMS : list SMS;
  msgs_MMS : list MMS
}.

End RecordModel.

Arguments SMS : clear implicits.
Arguments MMSAddress : clear implicits.
Arguments MMS : clear implicits.
Arguments Messages : clear implicits.

(** ** guessing.go *)

Record Contact := mkContact {
  Name : string;
  CanonicalNumber : string;
  RawNumbers : list string
}.

Definition set_Name (c : Contact) (n : string) : Contact :=
  {| Name := n; CanonicalNumber := CanonicalNumber c; RawNumbers := RawNumbers c |}.

(** The scan of [addRawNum]: does some element of the slice equal [rawNum]? *)
Fixpoint hasRawNum (nums : list string) (rawNum : string) : bool :=
  match nums with
  | [] => false
  | num :: rest => if decide (num = rawNum) then true else hasRawNum rest rawNum
  end.

Definition addRawNum (c : Contact) (rawNum : string) : Contact :=
  if hasRawNum (RawNumbers c) rawNum then c
  else {| Name := Name c; CanonicalNumber := CanonicalNumber c;
          RawNumbers := RawNumbers c ++ [rawNum] |}.

(** What [GuessContacts] has built so far: the canonical map and the lines
    handed to [log.Printf]. *)
Record GuessState := mkGuess {
  canonicalMap : gmap string Contact;
  logged : list string
}.

Definition log_Printf (line : string) (st : GuessState) : GuessState :=
  {| canonicalMap := canonicalMap st; logged := logged st ++ [line] |}.

Definition multiple_names_warning (canonicalNum old new : string) : string :=
  "Warning: " +:+ canonicalNum +:+ " has multiple names: " +:+ old +:+ " and " +:+ new.

Definition mms_count_warning (nums names : nat) (reason : string) : string :=
  "Warning: mms has " +:+ fmt.d nums +:+ " numbers, but " +:+ fmt.d names
    +:+ " contact names. " +:+ reason.

Section Guessing.

Context {SMSMessageType SMSStatus ReadStatus BoolValue AddressType : Type}.

Local Abbreviation SMS := (SMS SMSMessageType SMSStatus ReadStatus BoolValue).
Local Abbreviation MMS := (MMS ReadStatus BoolValue AddressType).
Local Abbreviation Messages :=
  (Messages SMSMessageType SMSStatus ReadStatus BoolValue AddressType).

(** Helpers of the package whose bodies live in other files. *)
Variable NormalizePhoneNumber : string → string.
Variable RemoveCommasBeforeSuffixes : string → string.
(** [strings.TrimSpace] of the standard library. *)
Variable TrimSpace : string → string.

(** Body of the first loop, for one [sms]. *)
Definition guess_sms (st : GuessState) (sms : SMS) : GuessState :=
  let rawNum := sms_Address sms in
  let canonicalNum := NormalizePhoneNumber rawNum in
  match canonicalMap st !! canonicalNum with
  | Some contact =>
      let '(contact, st) :=
        if decide (Name contact ≠ sms_ContactName sms) then
          if decide (Name contact = "(Unknown)") then
            (set_Name contact (sms_ContactName sms), st)
          else if decide (sms_ContactName sms = "(Unknown)") then
            (contact, st)
          else
            (contact,
             log_Printf (multiple_names_warning canonicalNum (Name contact)
                           (sms_ContactName sms)) st)
        else (contact, st) in
      {| canonicalMap := <[canonicalNum := addRawNum contact rawNum]> (canonicalMap st);
         logged := logged st |}
  | None =>
      {| canonicalMap :=
           <[canonicalNum := {| Name := sms_ContactName sms;
                                CanonicalNumber := canonicalNum;
                                RawNumbers := [rawNum] |}]> (canonicalMap st);
         logged := logged st |}
  end.

(** Body of the second loop, for one [mms]. *)
Definition guess_mms (st : GuessState) (mms : MMS) : GuessState :=
  let rawNumStr := mms_Address mms in
  let rawNumsList := strings.Split rawNumStr "~"%char in
  let contactNames :=
    strings.Split (RemoveCommasBeforeSuffixes (mms_ContactName mms)) ","%char in
  let contactNames := map TrimSpace contactNames in
  if decide (length rawNumsList ≠ length contactNames) then
    let reason :=
      if decide (length contactNames < length rawNumsList)
      then "A number probably doesn't have a known contact"
      else "A contact probably has a comma" in
    let st := log_Printf (mms_count_warning (length rawNumsList)
                            (length contactNames) reason) st in
    let st := log_Printf ("rawNumsList: " +:+ fmt.v rawNumsList) st in
    let st := log_Printf ("contactNames: " +:+ fmt.v contactNames) st in
    match mms_Parts mms with
    | _ :: p1 :: _ => log_Printf ("text: " +:+ part_Text p1) st
    | _ => st
    end
  else st.

(** [GuessContacts]: the map, the returned [error] and the log. *)
Definition GuessContacts (m : Messages)
  : gmap string Contact * option error * list string :=
  let st := {| canonicalMap := ∅; logged := [] |} in
  let st := foldl guess_sms st (msgs_SMS m) in
  let st := foldl guess_mms st (msgs_MMS m) in
  (canonicalMap st, None, logged st).

(** What holds of the canonical map once the records [seen] went through
    the first loop. *)
Definition map_ok (seen : list SMS) (m : gmap string Contact) : Prop :=
  ∀ k c, m !! k = Some c →
    CanonicalNumber c = k
    ∧ NoDup (RawNumbers c)
    ∧ ∃ sms, sms ∈ seen ∧ NormalizePhoneNumber (sms_Address sms) = k.

End Guessing.

(** ** encoding/xml, as far as the package uses it

    The byte stream is represented by the sequence of tokens its lexer
    yields; [BadSyntax] marks a place where the bytes do not lex, and is
    never returned as a token. The decoder keeps the stack of open
    elements, which is what tells a clean end of input ([io.EOF]) from a
    truncated document. *)

Module xml.

Record Attr := mkAttr {
  Attr_Name : string;
  Attr_Value : string
}.

Record StartElement := mkStartElement {
  Name_Local : string;
  Attrs : list Attr
}.

Inductive Token :=
| StartElementT (se : StartElement)
| EndElement (name : string)
| CharData (data : string)
| Comment (data : string)
| ProcInst (target inst : string)
| Directive (data : string)
| BadSyntax (msg : string).

Record Decoder := mkDecoder {
  input : list Token;
  stk : list string
}.

Definition NewDecoder (stream : list Token) : Decoder :=
  {| input := stream; stk := [] |}.

(** [Decoder.Token]. *)
Definition Decoder_Token (d : Decoder) : (Token + error) * Decoder :=
  match input d with
  | [] =>
      match stk d with
      | [] => (inr EOF, d)
      | _ :: _ => (inr (SyntaxError "unexpected EOF"), d)
      end
  | t :: rest =>
      match t with
      | StartElementT se =>
          (inl t, {| input := rest; stk := Name_Local se :: stk d |})
      | EndElement name =>
          match stk d with
          | [] =>
              (inr (SyntaxError ("unexpected end element </" +:+ name +:+ ">")),
               {| input := rest; stk := [] |})
          | open :: stk' =>
              if decide (open = name)
              then (inl t, {| input := rest; stk := stk' |})
              else (inr (SyntaxError ("element <" +:+ open +:+ "> closed by </"
                                        +:+ name +:+ ">")),
                    {| input := rest; stk := stk d |})
          end
      | BadSyntax msg => (inr (SyntaxError msg), {| input := rest; stk := stk d |})
      | _ => (inl t, {| input := rest; stk := stk d |})
      end
  end.

(** The loop of [Decoder.Skip], entered with [depth] elements open below
    the one being skipped. [None] only when [fuel] runs out. *)
Fixpoint Skip_loop (fuel : nat) (depth : nat) (d : Decoder)
  : option (option error * Decoder) :=
  match fuel with
  | O => None
  | S fuel =>
      match Decoder_Token d with
      | (inr err, d) => Some (Some err, d)
      | (inl tok, d) =>
          match tok with
          | StartElementT _ => Skip_loop fuel (S depth) d
          | EndElement _ =>
              match depth with
              | O => Some (None, d)
              | S depth' => Skip_loop fuel depth' d
              end
          | _ => Skip_loop fuel depth d
          end
      end
  end.

Definition Decoder_Skip (fuel : nat) (d : Decoder) := Skip_loop fuel 0 d.

(** The tokens between a start element already read and its end element,
    which is consumed too: what [DecodeElement] hands to the unmarshaller. *)
Fixpoint read_subtree (fuel : nat) (depth : nat) (acc : list Token) (d : Decoder)
  : option ((list Token + error) * Decoder) :=
  match fuel with
  | O => None
  | S fuel =>
      match Decoder_Token d with
      | (inr err, d) => Some (inr err, d)
      | (inl tok, d) =>
          match tok with
          | StartElementT _ => read_subtree fuel (S depth) (acc ++ [tok]) d
          | EndElement _ =>
              match depth with
              | O => Some (inl acc, d)
              | S depth' => read_subtree fuel depth' (acc ++ [tok]) d
              end
          | _ => read_subtree fuel depth (acc ++ [tok]) d
          end
      end
  end.

(** [Decoder.DecodeElement(&v, &start)]: [unmarshal] stands for the
    reflective filling of [v] from the start element and its content. *)
Definition Decoder_DecodeElement {V : Type}
    (unmarshal : StartElement → list Token → V + error)
    (fuel : nat) (start : StartElement) (d : Decoder)
  : option ((V + error) * Decoder) :=
  match read_subtree fuel 0 [] d with
  | None => None
  | Some (inr err, d) => Some (inr err, d)
  | Some (inl content, d) => Some (unmarshal start content, d)
  end.

End xml.

(** ** xml.go *)

Record BackupInfo := mkBackupInfo {
  Count : string;
  BackupSet : string;
  BackupDate : AndroidTS
}.

Definition fillBackupInfo (info : BackupInfo) (elem : xml.StartElement) : BackupInfo :=
  foldl (λ info attr,
           if decide (xml.Attr_Name attr = "count") then
             {| Count := xml.Attr_Value attr; BackupSet := BackupSet info;
                BackupDate := BackupDate info |}
           else if decide (xml.Attr_Name attr = "backup_set") then
             {| Count := Count info; BackupSet := xml.Attr_Value attr;
                BackupDate := BackupDate info |}
           else if decide (xml.Attr_Name attr = "backup_date") then
             {| Count := Count info; BackupSet := BackupSet info;
                BackupDate := xml.Attr_Value attr |}
           else info)
        info (xml.Attrs elem).

(** [findElem(decoder, names...)]: the next start element whose name is one
    of [names], skipping every other element together with its content. *)
Fixpoint findElem (fuel : nat) (decoder : xml.Decoder) (names : list string)
  : option ((xml.StartElement + error) * xml.Decoder) :=
  let namesSet : gset string := list_to_set names in
  match fuel with
  | O => None
  | S fuel =>
      match xml.Decoder_Token decoder with
      | (inr err, decoder) => Some (inr err, decoder)
      | (inl t, decoder) =>
          match t with
          | xml.StartElementT se =>
              if decide (xml.Name_Local se ∈ namesSet) then Some (inl se, decoder)
              else
                match xml.Decoder_Skip fuel decoder with
                | None => None
                | Some (Some err, decoder) => Some (inr err, decoder)
                | Some (None, decoder) => findElem fuel decoder names
                end
          | _ => findElem fuel decoder names
          end
      end
  end.

(** Enough fuel for any loop over what is left of the input: every turn of
    every loop consumes a token, the last one meets the end of the input,
    and [Decode] enters [findElem] once more than it returns from it. *)
Definition fuel_for (d : xml.Decoder) : nat := S (S (length (xml.input d))).

Section Decoders.

(** The record types and their unmarshalling; [H] is whatever the handlers
    act upon. *)
Context {SMS MMS Call H : Type}.
Variable unmarshalSMS : xml.StartElement → list xml.Token → SMS + error.
Variable unmarshalMMS : xml.StartElement → list xml.Token → MMS + error.
Variable unmarshalCall : xml.StartElement → list xml.Token → Call + error.

(** A handler field: [None] is the nil func. *)
Definition handler (R : Type) : Type := option (R → H → option error * H).

Record MessageDecoder := mkMessageDecoder {
  md_decoder : xml.Decoder;
  md_BackupInfo : BackupInfo;
  OnSMS : handler SMS;
  OnMMS : handler MMS
}.

Definition NewMessageDecoder (stream : list xml.Token)
  : option (MessageDecoder + error) :=
  let decoder := xml.NewDecoder stream in
  match findElem (fuel_for decoder) decoder ["smses"] with
  | None => None
  | Some (inr err, _) => Some (inr (Errorf "unable to find root smses element" err))
  | Some (inl root, decoder) =>
      Some (inl {| md_decoder := decoder;
                   md_BackupInfo := fillBackupInfo (mkBackupInfo "" "" "") root;
                   OnSMS := None; OnMMS := None |})
  end.

(** The [for] loop of [MessageDecoder.Decode]. *)
Fixpoint MessageDecoder_loop (fuel : nat) (onSMS : handler SMS) (onMMS : handler MMS)
    (decoder : xml.Decoder) (h : H) : option (outcome * H) :=
  match fuel with
  | O => None
  | S fuel =>
      match findElem fuel decoder ["sms"; "mms"] with
      | None => None
      | Some (inr err, _) =>
          if errors_Is_EOF err then Some (Return None, h)
          else Some (Return (Some (Errorf "unable to find sms or mms element" err)), h)
      | Some (inl child, decoder) =>
          if decide (xml.Name_Local child = "sms") then
            match onSMS with
            | None =>
                match xml.Decoder_Skip fuel decoder with
                | None => None
                | Some (Some err, _) => Some (Return (Some err), h)
                | Some (None, decoder) =>
                    MessageDecoder_loop fuel onSMS onMMS decoder h
                end
            | Some OnSMS =>
                match xml.Decoder_DecodeElement unmarshalSMS fuel child decoder with
                | None => None
                | Some (inr err, _) =>
                    Some (Return (Some (Errorf "unable to decode sms element" err)), h)
                | Some (inl sms, decoder) =>
                    match OnSMS sms h with
                    | (Some err, h) => Some (Return (Some err), h)
                    | (None, h) => MessageDecoder_loop fuel onSMS onMMS decoder h
                    end
                end
            end
          else if decide (xml.Name_Local child = "mms") then
            match onMMS with
            | None =>
                match xml.Decoder_Skip fuel decoder with
                | None => None
                | Some (Some err, _) => Some (Return (Some err), h)
                | Some (None, decoder) =>
                    MessageDecoder_loop fuel onSMS onMMS decoder h
                end
            | Some OnMMS =>
                match xml.Decoder_DecodeElement unmarshalMMS fuel child decoder with
                | None => None
                | Some (inr err, _) =>
                    Some (Return (Some (Errorf "unable to decode mms element" err)), h)
                | Some (inl mms, decoder) =>
                    match OnMMS mms h with
                    | (Some err, h) => Some (Return (Some err), h)
                    | (None, h) => MessageDecoder_loop fuel onSMS onMMS decoder h
                    end
                end
            end
          else Some (Panic "unexpected element", h)
      end
  end.

(** [MessageDecoder.Decode]. *)
Definition MessageDecoder_Decode (d : MessageDecoder) (h : H) : option (outcome * H) :=
  match OnSMS d, OnMMS d with
  | None, None => Some (Panic "OnSMS or OnMMS must be set", h)
  | _, _ => MessageDecoder_loop (fuel_for (md_decoder d)) (OnSMS d) (OnMMS d)
              (md_decoder d) h
  end.

Record CallDecoder := mkCallDecoder {
  cd_decoder : xml.Decoder;
  cd_BackupInfo : BackupInfo;
  OnCall : handler Call
}.

Definition NewCallDecoder (stream : list xml.Token)
  : option (CallDecoder + error) :=
  let decoder := xml.NewDecoder stream in
  match findElem (fuel_for decoder) decoder ["calls"] with
  | None => None
  | Some (inr err, _) => Some (inr (Errorf "unable to find root calls element" err))
  | Some (inl root, decoder) =>
      Some (inl {| cd_decoder := decoder;
                   cd_BackupInfo := fillBackupInfo (mkBackupInfo "" "" "") root;
                   OnCall := None |})
  end.

(** The [for] loop of [CallDecoder.Decode], entered with a handler. *)
Fixpoint CallDecoder_loop (fuel : nat) (OnCall : Call → H → option error * H)
    (decoder : xml.Decoder) (h : H) : option (outcome * H) :=
  match fuel with
  | O => None
  | S fuel =>
      match findElem fuel decoder ["call"] with
      | None => None
      | Some (inr err, _) =>
          if errors_Is_EOF err then Some (Return None, h)
          else Some (Return (Some (Errorf "unable to find call element" err)), h)
      | Some (inl child, decoder) =>
          match xml.Decoder_DecodeElement unmarshalCall fuel child decoder with
          | None => None
          | Some (inr err, _) =>
              Some (Return (Some (Errorf "unable to decode call element" err)), h)
          | Some (inl call, decoder) =>
              match OnCall call h with
              | (Some err, h) => Some (Return (Some err), h)
              | (None, h) => CallDecoder_loop fuel OnCall decoder h
              end
          end
      end
  end.

(** [CallDecoder.Decode]. *)
Definition CallDecoder_Decode (d : CallDecoder) (h : H) : option (outcome * H) :=
  match OnCall d with
  | None => Some (Panic "OnCall must be set", h)
  | Some OnCall => CallDecoder_loop (fuel_for (cd_decoder d)) OnCall (cd_decoder d) h
  end.

End Decoders.

(** ** Integers and paths *)

(** Go [int] on a 64-bit platform: the value of [z] after overflow. *)
Definition wrap64 (z : Z) : Z := ((z + 2 ^ 63) `mod` 2 ^ 64 - 2 ^ 63)%Z.

Module strconv.
Definition Itoa (i : Z) : string := pretty i.
End strconv.

Module filepath.

Fixpoint strip_separators (rev_path : list ascii) : list ascii :=
  match rev_path with
  | c :: rest => if decide (c = "/"%char) then strip_separators rest else rev_path
  | [] => []
  end.

Fixpoint last_element (rev_path : list ascii) : list ascii :=
  match rev_path with
  | c :: rest => if decide (c = "/"%char) then [] else c :: last_element rest
  | [] => []
  end.

(** [filepath.Base] where the separator is the slash and there is no
    volume name. *)
Definition Base (path : string) : string :=
  if decide (path = "") then "."
  else
    let stripped := strip_separators (rev (list_ascii_of_string path)) in
    let elem := rev (last_element stripped) in
    if decide (elem = []) then "/" else string_of_list_ascii elem.

(** The backward scan of [filepath.Ext]; [seen] holds the bytes already
    passed, in path order. *)
Fixpoint ext_scan (rev_path : list ascii) (seen : list ascii) : list ascii :=
  match rev_path with
  | c :: rest =>
      if decide (c = "/"%char) then []
      else if decide (c = "."%char) then c :: seen
      else ext_scan rest (c :: seen)
  | [] => []
  end.

Definition Ext (path : string) : string :=
  string_of_list_ascii (ext_scan (rev (list_ascii_of_string path)) []).

End filepath.

(** ** sms.go *)

Record SMSOutput (W : Type) := mkSMSOutput {
  out_f : W;
  out_idx : Z
}.
Arguments mkSMSOutput {W}.
Arguments out_f {W}.
Arguments out_idx {W}.

Definition sms_headers : list string :=
  [ "SMS Index #"; "Protocol"; "Address"; "Type"; "Subject"; "Body";
    "Service Center"; "Status"; "Read"; "Date"; "Locked"; "Date Sent";
    "Readable Date"; "Contact Name" ].

Section FlatFileSink.

Context {SMSMessageType SMSStatus ReadStatus BoolValue : Type}.
Local Abbreviation SMS := (SMS SMSMessageType SMSStatus ReadStatus BoolValue).

(** The [String()] methods of the scalar types and the two clean-up helpers
    of the package, whose bodies live in other files. *)
Variable PhoneNumber_String : PhoneNumber → string.
Variable SMSMessageType_String : SMSMessageType → string.
Variable SMSStatus_String : SMSStatus → string.
Variable ReadStatus_String : ReadStatus → string.
Variable AndroidTS_String : AndroidTS → string.
Variable BoolValue_String : BoolValue → string.
Variable CleanupMessageBody : string → string.
Variable RemoveCommasBeforeSuffixes : string → string.

Context `{Writer W}.

(** On failure the caller keeps its writer, in whatever state the failed
    write left it. *)
Definition NewSMSOutput (f : W) : SMSOutput W + error * W :=
  match fmt.Fprintln f (strings.Join sms_headers tab) with
  | (Some err, f) => inr (err, f)
  | (None, f) => inl {| out_f := f; out_idx := 0 |}
  end.

Definition SMSOutput_Write (o : SMSOutput W) (sms : SMS) : option error * SMSOutput W :=
  let row :=
    [ strconv.Itoa (out_idx o);
      sms_Protocol sms;
      PhoneNumber_String (sms_Address sms);
      SMSMessageType_String (sms_Type sms);
      sms_Subject sms;
      CleanupMessageBody (sms_Body sms);
      PhoneNumber_String (sms_ServiceCenter sms);
      SMSStatus_String (sms_Status sms);
      ReadStatus_String (sms_Read sms);
      AndroidTS_String (sms_Date sms);
      BoolValue_String (sms_Locked sms);
      AndroidTS_String (sms_DateSent sms);
      sms_ReadableDate sms;
      RemoveCommasBeforeSuffixes (sms_ContactName sms) ] in
  let o := {| out_f := out_f o; out_idx := wrap64 (out_idx o + 1) |} in
  let '(err, f) := fmt.Fprintln (out_f o) (strings.Join row tab) in
  (err, {| out_f := f; out_idx := out_idx o |}).

(** The row that [Write] builds while the counter stands at [idx]. *)
Definition sms_row (idx : Z) (sms : SMS) : list string :=
  [ strconv.Itoa idx;
    sms_Protocol sms;
    PhoneNumber_String (sms_Address sms);
    SMSMessageType_String (sms_Type sms);
    sms_Subject sms;
    CleanupMessageBody (sms_Body sms);
    PhoneNumber_String (sms_ServiceCenter sms);
    SMSStatus_String (sms_Status sms);
    ReadStatus_String (sms_Read sms);
    AndroidTS_String (sms_Date sms);
    BoolValue_String (sms_Locked sms);
    AndroidTS_String (sms_DateSent sms);
    sms_ReadableDate sms;
    RemoveCommasBeforeSuffixes (sms_ContactName sms) ].

(** The loop of [GenerateSMSOutput]: write the records in order, stop at
    the first error. *)
Fixpoint write_all (o : SMSOutput W) (l : list SMS) : option error * SMSOutput W :=
  match l with
  | [] => (None, o)
  | sms :: l =>
      match SMSOutput_Write o sms with
      | (Some err, o) => (Some err, o)
      | (None, o) => write_all o l
      end
  end.

(** [GenerateSMSOutput], given the writer that [os.Create] returned. *)
Definition GenerateSMSOutput (smsOutput : W) (sms : list SMS)
  : option error * W :=
  match NewSMSOutput smsOutput with
  | inr (err, f) => (Some err, f)
  | inl out => let '(err, out) := write_all out sms in (err, out_f out)
  end.

End FlatFileSink.

(** ** cmd/sbrparser, the variant writing to an sqlite store *)

Definition strOrNil (s : string) : option string :=
  if decide (s = "" ∨ s = "null") then None else Some s.

(** An argument handed to [Stmt.Exec]. *)
Inductive SqlArg {BoolValue : Type} :=
| ArgString (s : string)
| ArgStringPtr (p : option string)   (* a *string; nil is stored as NULL *)
| ArgAndroidTS (t : AndroidTS)
| ArgBoolValue (b : BoolValue)
| ArgInt64 (i : Z)
| ArgBytes (b : option string)       (* a []byte; nil is stored as NULL *).
Arguments SqlArg : clear implicits.

Inductive Stmt := insertSMS | insertMMS | insertMMSPart.

(** The rows of the three tables, oldest first, without the autoincrement
    [id] column (the row at position [i] has id [i + 1]). *)
Record Tables {BoolValue : Type} := mkTables {
  sms_table : list (list (SqlArg BoolValue));
  mms_table : list (list (SqlArg BoolValue));
  mms_parts_table : list (list (SqlArg BoolValue))
}.
Arguments Tables : clear implicits.

Definition insert_row {BoolValue} (stmt : Stmt) (row : list (SqlArg BoolValue))
    (t : Tables BoolValue) : Tables BoolValue :=
  match stmt with
  | insertSMS =>
      {| sms_table := sms_table t ++ [row]; mms_table := mms_table t;
         mms_parts_table := mms_parts_table t |}
  | insertMMS =>
      {| sms_table := sms_table t; mms_table := mms_table t ++ [row];
         mms_parts_table := mms_parts_table t |}
  | insertMMSPart =>
      {| sms_table := sms_table t; mms_table := mms_table t;
         mms_parts_table := mms_parts_table t ++ [row] |}
  end.

(** [LastInsertId] after an insert through [stmt]. *)
Definition last_insert_id {BoolValue} (stmt : Stmt) (t : Tables BoolValue) : Z :=
  Z.of_nat (length (match stmt with
                    | insertSMS => sms_table t
                    | insertMMS => mms_table t
                    | insertMMSPart => mms_parts_table t
                    end)).

(** [db] is the store as its readers see it; [tx] is the view inside the
    open transaction, [None] once it was committed or rolled back. *)
Record StreamingOutput {BoolValue : Type} := mkStreamingOutput {
  db : Tables BoolValue;
  tx : option (Tables BoolValue);
  smsCount : Z;
  mmsCount : Z;
  callCount : Z
}.
Arguments StreamingOutput : clear implicits.

Definition ErrTxDone : error :=
  ErrorString "sql: transaction has already been committed or rolled back".

(** What [os.Stat] and [OpenBackup] answer for a path. *)
Record FileSystem := mkFileSystem {
  Stat : string → option bool;                (* [Some isDir], [None] on error *)
  OpenBackup : string → list xml.Token + error
}.

(** A line on standard error: the message and the error it quotes. *)
Definition stderr_line : Type := string * option error.

Record AddressInfo := mkAddressInfo {
  ai_Address : string;
  ai_RawAddress : string;
  ai_Type : string;
  ai_Charset : string
}.

Section RelationalSink.

Context {SMSMessageType SMSStatus ReadStatus BoolValue AddressType : Type}.
Local Abbreviation SMS := (SMS SMSMessageType SMSStatus ReadStatus BoolValue).
Local Abbreviation MMS := (MMS ReadStatus BoolValue AddressType).
Local Abbreviation SqlArg := (SqlArg BoolValue).
Local Abbreviation Tables := (Tables BoolValue).
Local Abbreviation StreamingOutput := (StreamingOutput BoolValue).

Variable PhoneNumber_String : PhoneNumber → string.
Variable SMSMessageType_String : SMSMessageType → string.
Variable SMSStatus_String : SMSStatus → string.
Variable ReadStatus_String : ReadStatus → string.
Variable AddressType_String : AddressType → string.
Variable unmarshalSMS : xml.StartElement → list xml.Token → SMS + error.
Variable unmarshalMMS : xml.StartElement → list xml.Token → MMS + error.
(** [json.Marshal] of the address list and [base64.StdEncoding.DecodeString]. *)
Variable json_Marshal : list AddressInfo → string + error.
Variable base64_DecodeString : string → string + error.
(** The driver's verdict on an insert, given the rows the transaction
    sees: an I/O failure, a constraint violation, a full disk. *)
Variable driver_error : Tables → Stmt → list SqlArg → option error.

(** [NewStreamingOutput] on the store found in [result.db]: the tables
    are there or are created, and one transaction is begun for the whole
    run. Opening the store and preparing the statements are taken to
    succeed. *)
Definition NewStreamingOutput (store : Tables) : StreamingOutput :=
  {| db := store; tx := Some store; smsCount := 0; mmsCount := 0; callCount := 0 |}.

(** [Stmt.Exec] on a statement prepared in the transaction of [s]; the
    result is the id of the inserted row. *)
Definition Exec (stmt : Stmt) (args : list SqlArg) (s : StreamingOutput)
  : (Z + error) * StreamingOutput :=
  match tx s with
  | None => (inr ErrTxDone, s)
  | Some view =>
      match driver_error view stmt args with
      | Some err => (inr err, s)
      | None =>
          let view := insert_row stmt args view in
          (inl (last_insert_id stmt view),
           {| db := db s; tx := Some view; smsCount := smsCount s;
              mmsCount := mmsCount s; callCount := callCount s |})
      end
  end.

Definition Commit (s : StreamingOutput) : option error * StreamingOutput :=
  match tx s with
  | None => (Some ErrTxDone, s)
  | Some view =>
      (None, {| db := view; tx := None; smsCount := smsCount s;
                mmsCount := mmsCount s; callCount := callCount s |})
  end.

(** [Close]: the statements are closed and the transaction rolled back,
    which does nothing once it was committed. *)
Definition Close (s : StreamingOutput) : StreamingOutput :=
  {| db := db s; tx := None; smsCount := smsCount s;
     mmsCount := mmsCount s; callCount := callCount s |}.

Definition onSms (sms : SMS) (s : StreamingOutput) : option error * StreamingOutput :=
  let s := {| db := db s; tx := tx s; smsCount := wrap64 (smsCount s + 1);
              mmsCount := mmsCount s; callCount := callCount s |} in
  match Exec insertSMS
          [ ArgString (sms_Protocol sms);
            ArgString (PhoneNumber_String (sms_Address sms));
            ArgString (SMSMessageType_String (sms_Type sms));
            ArgStringPtr (strOrNil (sms_Subject sms));
            ArgString (sms_Body sms);
            ArgStringPtr (strOrNil (PhoneNumber_String (sms_ServiceCenter sms)));
            ArgString (SMSStatus_String (sms_Status sms));
            ArgString (ReadStatus_String (sms_Read sms));
            ArgAndroidTS (sms_Date sms);
            ArgBoolValue (sms_Locked sms);
            ArgAndroidTS (sms_DateSent sms);
            ArgString (sms_ReadableDate sms);
            ArgString (sms_ContactName sms) ] s with
  | (inr err, s) => (Some err, s)
  | (inl _, s) => (None, s)
  end.

(** The loop of [onMMS] over the parts of the message. *)
Fixpoint insert_parts (mmsID : Z) (parts : list Part) (s : StreamingOutput)
  : option error * StreamingOutput :=
  match parts with
  | [] => (None, s)
  | part :: parts =>
      let rawData :=
        if decide (part_Base64Data part ≠ "")
        then match base64_DecodeString (part_Base64Data part) with
             | inl bytes => inl (Some bytes)
             | inr err => inr err
             end
        else inl None in
      match rawData with
      | inr err => (Some (Errorf "error decoding base64 data" err), s)
      | inl rawData =>
          match Exec insertMMSPart
                  [ ArgInt64 mmsID;
                    ArgStringPtr (strOrNil (part_ContentType part));
                    ArgStringPtr (strOrNil (part_Name part));
                    ArgStringPtr (strOrNil (part_FileName part));
                    ArgStringPtr (strOrNil (part_ContentDisplay part));
                    ArgStringPtr (strOrNil (part_Text part));
                    ArgBytes rawData ] s with
          | (inr err, s) => (Some err, s)
          | (inl _, s) => insert_parts mmsID parts s
          end
      end
  end.

Definition onMMS (mms : MMS) (s : StreamingOutput) : option error * StreamingOutput :=
  let s := {| db := db s; tx := tx s; smsCount := smsCount s;
              mmsCount := wrap64 (mmsCount s + 1); callCount := callCount s |} in
  let addresses :=
    map (λ address,
           {| ai_Address := PhoneNumber_String (addr_Address address);
              ai_RawAddress := addr_Address address;
              ai_Type := AddressType_String (addr_Type address);
              ai_Charset := addr_Charset address |})
        (mms_Addresses mms) in
  match json_Marshal addresses with
  | inr err => (Some err, s)
  | inl addressesJoined =>
      match Exec insertMMS
              [ ArgBoolValue (mms_TextOnly mms);
                ArgString (ReadStatus_String (mms_Read mms));
                ArgAndroidTS (mms_Date mms);
                ArgBoolValue (mms_Locked mms);
                ArgAndroidTS (mms_DateSent mms);
                ArgString (mms_ReadableDate mms);
                ArgString (mms_ContactName mms);
                ArgBoolValue (mms_Seen mms);
                ArgStringPtr (strOrNil (PhoneNumber_String (mms_FromAddress mms)));
                ArgString (PhoneNumber_String (mms_Address mms));
                ArgStringPtr (strOrNil (mms_MessageClassifier mms));
                ArgStringPtr (strOrNil (mms_MessageSize mms));
                ArgBytes (Some addressesJoined) ] s with
      | (inr err, s) => (Some err, s)
      | (inl mmsID, s) => insert_parts mmsID (mms_Parts mms) s
      end
  end.

(** [StreamingOutput.MessageDecoder]: a decoder whose handlers feed the
    store (the progress bar is left out). *)
Definition StreamingOutput_MessageDecoder (file : list xml.Token)
  : option (@MessageDecoder SMS MMS StreamingOutput + error) :=
  match @NewMessageDecoder SMS MMS StreamingOutput file with
  | None => None
  | Some (inr err) => Some (inr err)
  | Some (inl decoder) =>
      Some (inl {| md_decoder := md_decoder decoder;
                   md_BackupInfo := md_BackupInfo decoder;
                   OnSMS := Some onSms; OnMMS := Some onMMS |})
  end.

(** [handleFile]; the validation report on standard output is left out. *)
Definition handleFile (fs : FileSystem) (xmlFilePath : string) (out : StreamingOutput)
  : option (outcome * StreamingOutput) :=
  let fileName := filepath.Base xmlFilePath in
  if negb (strings.HasPrefix fileName "calls" || strings.HasPrefix fileName "sms")
     || (bool_decide (filepath.Ext fileName ≠ ".xml")
         && bool_decide (filepath.Ext fileName ≠ ".zip"))
  then Some (Return (Some (ErrorString ("unexpected file name: " +:+ fileName))), out)
  else
    match OpenBackup fs xmlFilePath with
    | inr err => Some (Return (Some err), out)
    | inl f =>
        if strings.HasPrefix fileName "sms" then
          match StreamingOutput_MessageDecoder f with
          | None => None
          | Some (inr err) => Some (Return (Some err), out)
          | Some (inl decoder) =>
              MessageDecoder_Decode unmarshalSMS unmarshalMMS decoder out
          end
        else Some (Return None, out)
    end.

(** How the loop of [main] over the command-line arguments ends. *)
Inductive loop_end := Completed | ReturnedEarly | Panicked (msg : string).

Fixpoint main_loop (fs : FileSystem) (args : list string)
    (streamingOut : StreamingOutput) (stderr : list stderr_line)
  : option (loop_end * StreamingOutput * list stderr_line) :=
  match args with
  | [] => Some (Completed, streamingOut, stderr)
  | xmlFilePath :: args =>
      match Stat fs xmlFilePath with
      | None =>
          Some (ReturnedEarly, streamingOut,
                stderr ++ [("Error with path to XML file", None)])
      | Some true =>
          Some (ReturnedEarly, streamingOut,
                stderr ++ [("XML path must point to specific XML filename, not to a directory.", None)])
      | Some false =>
          match handleFile fs xmlFilePath streamingOut with
          | None => None
          | Some (Panic msg, streamingOut) => Some (Panicked msg, streamingOut, stderr)
          | Some (Return (Some err), streamingOut) =>
              main_loop fs args streamingOut
                (stderr ++ [("Error handling file", Some err)])
          | Some (Return None, streamingOut) =>
              main_loop fs args streamingOut stderr
          end
      end
  end.

(** [main] from the point where the output directory is validated: the
    store the process leaves behind and what it wrote to standard error.
    The deferred [Close] runs on every way out. *)
Definition main (fs : FileSystem) (store : Tables) (args : list string)
  : option (Tables * list stderr_line) :=
  match args with
  | [] =>
      Some (store, [("Missing required argument: Specify path to xml backup file(s).", None)])
  | _ =>
      let streamingOut := NewStreamingOutput store in
      match main_loop fs args streamingOut [] with
      | None => None
      | Some (Completed, streamingOut, stderr) =>
          let '(err, streamingOut) := Commit streamingOut in
          let stderr :=
            match err with
            | Some err => stderr ++ [("Error committing transaction", Some err)]
            | None => stderr
            end in
          Some (db (Close streamingOut), stderr)
      | Some (_, streamingOut, stderr) => Some (db (Close streamingOut), stderr)
      end
  end.

End RelationalSink.

(** ** Documents as trees

    A well-formed stretch of XML is a sequence of nodes; its token
    sequence is what the lexer yields for it. *)

#[warnings="-register-all"]
Inductive Node :=
| Element (se : xml.StartElement) (children : list Node)
| Text (data : string)
| CommentNode (data : string)
| Instruction (target inst : string)
| DirectiveNode (data : string).

Fixpoint tokens (n : Node) : list xml.Token :=
  match n with
  | Element se children =>
      xml.StartElementT se
        :: flat_map tokens children ++ [xml.EndElement (xml.Name_Local se)]
  | Text data => [xml.CharData data]
  | CommentNode data => [xml.Comment data]
  | Instruction target inst => [xml.ProcInst target inst]
  | DirectiveNode data => [xml.Directive data]
  end.

Definition tokens_of (nodes : list Node) : list xml.Token := flat_map tokens nodes.

(** Is [n] an element whose name is one of [names]? *)
Definition named (names : list string) (n : Node) : bool :=
  match n with
  | Element se _ => bool_decide (xml.Name_Local se ∈ names)
  | _ => false
  end.

Section Emission.

Context {SMS MMS H : Type}.
Variable unmarshalSMS : xml.StartElement → list xml.Token → SMS + error.
Variable unmarshalMMS : xml.StartElement → list xml.Token → MMS + error.

(** A handler invocation. *)
Inductive invocation :=
| CallOnSMS (sms : SMS)
| CallOnMMS (mms : MMS).

(** Handlers that only note their own invocation; [want] tells whether
    the handler is installed at all. *)
Definition noteSMS (want : bool) : handler (H:=list invocation) SMS :=
  if want then Some (λ sms calls, (None, calls ++ [CallOnSMS sms])) else None.

Definition noteMMS (want : bool) : handler (H:=list invocation) MMS :=
  if want then Some (λ mms calls, (None, calls ++ [CallOnMMS mms])) else None.

(** The invocation that a child of the root calls for: an [sms] or [mms]
    element whose handler is installed, decoded from its own start
    element and content. *)
Definition invocation_of (wantSMS wantMMS : bool) (n : Node) : option invocation :=
  match n with
  | Element se children =>
      if decide (xml.Name_Local se = "sms") then
        if wantSMS then
          match unmarshalSMS se (tokens_of children) with
          | inl sms => Some (CallOnSMS sms)
          | inr _ => None
          end
        else None
      else if decide (xml.Name_Local se = "mms") then
        if wantMMS then
          match unmarshalMMS se (tokens_of children) with
          | inl mms => Some (CallOnMMS mms)
          | inr _ => None
          end
        else None
      else None
  | _ => None
  end.

(** Every [sms] and [mms] child that has a handler unmarshals. *)
Definition decodable (wantSMS wantMMS : bool) (n : Node) : Prop :=
  match n with
  | Element se children =>
      (xml.Name_Local se = "sms" → wantSMS = true →
       ∃ sms, unmarshalSMS se (tokens_of children) = inl sms)
      ∧ (xml.Name_Local se = "mms" → wantMMS = true →
         ∃ mms, unmarshalMMS se (tokens_of children) = inl mms)
  | _ => True
  end.

(** The children of the root taken one after the other, in document
    order, each [sms] and [mms] element decoded and handed to its
    handler, up to the first error. *)
Fixpoint dispatch (onSMS : handler (H:=H) SMS) (onMMS : handler (H:=H) MMS)
    (children : list Node) (h : H) : option error * H :=
  match children with
  | [] => (None, h)
  | Element se content :: rest =>
      if decide (xml.Name_Local se = "sms") then
        match onSMS with
        | None => dispatch onSMS onMMS rest h
        | Some OnSMS =>
            match unmarshalSMS se (tokens_of content) with
            | inr err => (Some (Errorf "unable to decode sms element" err), h)
            | inl sms =>
                match OnSMS sms h with
                | (Some err, h) => (Some err, h)
                | (None, h) => dispatch onSMS onMMS rest h
                end
            end
        end
      else if decide (xml.Name_Local se = "mms") then
        match onMMS with
        | None => dispatch onSMS onMMS rest h
        | Some OnMMS =>
            match unmarshalMMS se (tokens_of content) with
            | inr err => (Some (Errorf "unable to decode mms element" err), h)
            | inl mms =>
                match OnMMS mms h with
                | (Some err, h) => (Some err, h)
                | (None, h) => dispatch onSMS onMMS rest h
                end
            end
        end
      else dispatch onSMS onMMS rest h
  | _ :: rest => dispatch onSMS onMMS rest h
  end.

End Emission.

Arguments invocation : clear implicits.

(** ** Sample inputs

    Stand-ins for the parts of the package that stay abstract above, used
    only to run the functions on concrete records. *)

Module Sample.

Definition is_digit (c : ascii) : bool :=
  (48 <=? nat_of_ascii c)%nat && (nat_of_ascii c <=? 57)%nat.

(** A normaliser that keeps the digits of a raw number. *)
Fixpoint digits_only (s : string) : string :=
  match s with
  | EmptyString => EmptyString
  | String c s' => if is_digit c then String c (digits_only s') else digits_only s'
  end.

Fixpoint trim_left (s : string) : string :=
  match s with
  | String c s' => if decide (c = " "%char) then trim_left s' else s
  | EmptyString => EmptyString
  end.

(** [strings.TrimSpace] on names whose only white space is the blank. *)
Definition reverse_string (s : string) : string :=
  string_of_list_ascii (rev (list_ascii_of_string s)).

Definition trim_blanks (s : string) : string :=
  reverse_string (trim_left (reverse_string (trim_left s))).

Definition sms (address contactName : string) : SMS unit unit unit unit :=
  {| sms_Protocol := "0"; sms_Address := address; sms_Type := tt;
     sms_Subject := "null"; sms_Body := "hello"; sms_ServiceCenter := "null";
     sms_Status := tt; sms_Read := tt; sms_Date := "1518548142000";
     sms_Locked := tt; sms_DateSent := "0";
     sms_ReadableDate := "Feb 13, 2018 1:55:42 PM";
     sms_ContactName := contactName |}.

Definition mms (address contactName : string) (parts : list Part)
  : MMS unit unit unit :=
  {| mms_TextOnly := tt; mms_Read := tt; mms_Date := "1518548142000";
     mms_Locked := tt; mms_DateSent := "0";
     mms_ReadableDate := "Feb 13, 2018 1:55:42 PM";
     mms_ContactName := contactName; mms_Seen := tt; mms_FromAddress := "null";
     mms_Address := address; mms_MessageClassifier := "null";
     mms_MessageSize := "null"; mms_Addresses := []; mms_Parts := parts |}.

Definition GuessContacts (m : Messages unit unit unit unit unit) :=
  GuessContacts digits_only id trim_blanks m.

(** The value of the attribute [name], empty when it is absent. *)
Definition attr (name : string) (se : xml.StartElement) : string :=
  match filter (λ a, xml.Attr_Name a = name) (xml.Attrs se) with
  | a :: _ => xml.Attr_Value a
  | [] => ""
  end.

Definition unmarshalSMS (se : xml.StartElement) (content : list xml.Token)
  : SMS unit unit unit unit + error :=
  inl (sms (attr "address" se) (attr "contact_name" se)).

Definition unmarshalMMS (se : xml.StartElement) (content : list xml.Token)
  : MMS unit unit unit + error :=
  inl (mms (attr "address" se) (attr "contact_name" se) []).

Definition sms_element (address contact_name : string) : list xml.Token :=
  [ xml.StartElementT
      {| xml.Name_Local := "sms";
         xml.Attrs := [ xml.mkAttr "address" address;
                        xml.mkAttr "contact_name" contact_name ] |};
    xml.EndElement "sms" ].

(** A backup announcing three messages that breaks off after the second. *)
Definition truncated_backup : list xml.Token :=
  [ xml.ProcInst "xml" "version='1.0' encoding='UTF-8'";
    xml.StartElementT
      {| xml.Name_Local := "smses"; xml.Attrs := [xml.mkAttr "count" "3"] |} ]
  ++ sms_element "5550100" "Alice" ++ sms_element "5550199" "Bob".

Definition sms_node (address contact_name : string) : Node :=
  Element {| xml.Name_Local := "sms";
             xml.Attrs := [ xml.mkAttr "address" address;
                            xml.mkAttr "contact_name" contact_name ] |} [].

Definition mms_node (address contact_name : string) : Node :=
  Element {| xml.Name_Local := "mms";
             xml.Attrs := [ xml.mkAttr "address" address;
                            xml.mkAttr "contact_name" contact_name ] |}
    [ Text " ";
      Element {| xml.Name_Local := "parts"; xml.Attrs := [] |}
        [ Element {| xml.Name_Local := "part";
                     xml.Attrs := [xml.mkAttr "text" "hello"] |} [] ];
      Element {| xml.Name_Local := "addrs"; xml.Attrs := [] |}
        [ Element {| xml.Name_Local := "addr";
                     xml.Attrs := [xml.mkAttr "address" address] |} [] ] ].

(** A backup whose messages are, in this order, an SMS, an MMS and an SMS. *)
Definition interleaved : list Node :=
  [ Text " "; sms_node "5550100" "Alice"; Text " ";
    mms_node "5550100~5550199" "Alice, Bob"; CommentNode "note";
    sms_node "5550199" "Bob"; Text " " ].

Definition fs : FileSystem :=
  {| Stat := λ _, Some false; OpenBackup := λ _, inl truncated_backup |}.

Definition empty_store : Tables unit :=
  {| sms_table := []; mms_table := []; mms_parts_table := [] |}.

Definition unit_String (u : unit) : string := "0".

Definition onSms :=
  onSms (SMSMessageType:=unit) (SMSStatus:=unit) (ReadStatus:=unit) (BoolValue:=unit)
    id unit_String unit_String unit_String (λ _ _ _, None).

Definition GenerateSMSOutput (records : list (SMS unit unit unit unit)) :=
  GenerateSMSOutput (W:=list string) id unit_String unit_String unit_String id
    unit_String id id [] records.

(** [main] over [fs], with a driver that accepts every insert. *)
Definition main (store : Tables unit) (args : list string) :=
  main (AddressType:=unit) id unit_String unit_String unit_String unit_String
    unmarshalSMS unmarshalMMS (λ _, inl "[]") (λ b, inl b) (λ _ _ _, None)
    fs store args.

End Sample.

(** ** Vocabulary for further properties of the contact guesser *)

(** The first name of a list that is not the "(Unknown)" sentinel, the
    sentinel when there is none. *)
Fixpoint first_known (names : list string) : string :=
  match names with
  | [] => "(Unknown)"
  | name :: rest => if decide (name = "(Unknown)") then first_known rest else name
  end.

(** The contact names that the records with canonical number [k] carry,
    in the order of the records. *)
Definition names_for {SMSMessageType SMSStatus ReadStatus BoolValue : Type}
    (NormalizePhoneNumber : string → string) (k : string)
    (l : list (SMS SMSMessageType SMSStatus ReadStatus BoolValue)) : list string :=
  map sms_ContactName (filter (λ sms, NormalizePhoneNumber (sms_Address sms) = k) l).

(** ** Vocabulary for further properties of the decoders *)

(** The value that the attributes [attrs] give to [name]: that of the last
    attribute so named, [default] when there is none. *)
Fixpoint attr_value (name : string) (attrs : list xml.Attr) (default : string)
  : string :=
  match attrs with
  | [] => default
  | a :: rest =>
      attr_value name rest
        (if decide (xml.Attr_Name a = name) then xml.Attr_Value a else default)
  end.

(** ** More sample inputs *)

Module Example.

(** An unmarshaller that refuses an [mms] element without an address. *)
Definition strict_unmarshalMMS (se : xml.StartElement) (content : list xml.Token)
  : MMS unit unit unit + error :=
  if decide (Sample.attr "address" se = "")
  then inr (ErrorString "missing address")
  else Sample.unmarshalMMS se content.

(** A handler that keeps the addresses it is given and refuses the
    records of one contact. *)
Definition keep_unless (refused : string)
  : SMS unit unit unit unit → list string → option error * list string :=
  λ sms seen,
    if decide (sms_ContactName sms = refused)
    then (Some (ErrorString "refused"), seen)
    else (None, seen ++ [sms_Address sms]).

Definition keep_mms : MMS unit unit unit → list string → option error * list string :=
  λ mms seen, (None, seen ++ [mms_Address mms]).

(** A complete message backup with an SMS, an MMS and an SMS. *)
Definition clean_backup : list xml.Token :=
  tokens_of [Instruction "xml" "version='1.0'"]
  ++ tokens (Element {| xml.Name_Local := "smses";
                        xml.Attrs := [xml.mkAttr "count" "3"] |} Sample.interleaved)
  ++ tokens_of [Text " "].

(** A directory with a complete and a truncated message backup, a call
    backup and a subdirectory. *)
Definition fs : FileSystem :=
  {| Stat := λ p,
       if decide (p = "backups/old") then Some true
       else if decide (p ∈ ["backups/sms-clean.xml"; "backups/sms-truncated.xml";
                            "backups/calls-20180213.xml"]) then Some false
       else None;
     OpenBackup := λ p,
       if decide (p = "backups/sms-clean.xml") then inl clean_backup
       else if decide (p = "backups/sms-truncated.xml") then inl Sample.truncated_backup
       else if decide (p = "backups/calls-20180213.xml")
       then inl (tokens_of [Element {| xml.Name_Local := "calls"; xml.Attrs := [] |} []])
       else inr (ErrorString "open: no such file or directory") |}.

(** [main] over [fs], with a driver that accepts every insert. *)
Definition main (store : Tables unit) (args : list string) :=
  main (AddressType:=unit) id Sample.unit_String Sample.unit_String
    Sample.unit_String Sample.unit_String
    Sample.unmarshalSMS Sample.unmarshalMMS (λ _, inl "[]") (λ b, inl b) (λ _ _ _, None)
    fs store args.

Definition onMMS :=
  onMMS (ReadStatus:=unit) (BoolValue:=unit) (AddressType:=unit)
    id Sample.unit_String Sample.unit_String
    (λ _, inl "[]") (λ b, inl b) (λ _ _ _, None).

(** A store that already holds one SMS row. *)
Definition old_store : Tables unit :=
  {| sms_table := [[ArgString "0"; ArgString "5550000"]]; mms_table := [];
     mms_parts_table := [] |}.

End Example.

(** ** Vocabulary for further properties of the sqlite driver *)

(** Every table of [after] starts with the rows of the same table of
    [before], in the same order. *)
Definition tables_extend {BoolValue : Type} (before after : Tables BoolValue) : Prop :=
  sms_table before `prefix_of` sms_table after
  ∧ mms_table before `prefix_of` mms_table after
  ∧ mms_parts_table before `prefix_of` mms_parts_table after.

(** The record that a child of the root decodes to, when it is an [sms]
    (an [mms]) element that unmarshals. *)
Definition sms_of {SMS : Type}
    (unmarshalSMS : xml.StartElement → list xml.Token → SMS + error) (n : Node)
  : option SMS :=
  match n with
  | Element se content =>
      if decide (xml.Name_Local se = "sms") then
        match unmarshalSMS se (tokens_of content) with
        | inl sms => Some sms
        | inr _ => None
        end
      else None
  | _ => None
  end.

Definition mms_of {MMS : Type}
    (unmarshalMMS : xml.StartElement → list xml.Token → MMS + error) (n : Node)
  : option MMS :=
  match n with
  | Element se content =>
      if decide (xml.Name_Local se = "sms") then None
      else if decide (xml.Name_Local se = "mms") then
        match unmarshalMMS se (tokens_of content) with
        | inl mms => Some mms
        | inr _ => None
        end
      else None
  | _ => None
  end.

(** What a run that started from [store] keeps true of its
    [StreamingOutput]: the store itself is untouched, and the open
    transaction sees the rows of [store] with rows added behind them. *)
Definition run_ok {BoolValue : Type} (store : Tables BoolValue)
    (s : StreamingOutput BoolValue) : Prop :=
  db s = store ∧ ∀ view, tx s = Some view → tables_extend store view.

(** The arguments that [onSms] hands to the insert statement for [sms]. *)
Definition sms_sql_row {SMSMessageType SMSStatus ReadStatus BoolValue : Type}
    (PhoneNumber_String : PhoneNumber → string)
    (SMSMessageType_String : SMSMessageType → string)
    (SMSStatus_String : SMSStatus → string)
    (ReadStatus_String : ReadStatus → string)
    (sms : SMS SMSMessageType SMSStatus ReadStatus BoolValue)
  : list (SqlArg BoolValue) :=
  [ ArgString (sms_Protocol sms);
    ArgString (PhoneNumber_String (sms_Address sms));
    ArgString (SMSMessageType_String (sms_Type sms));
    ArgStringPtr (strOrNil (sms_Subject sms));
    ArgString (sms_Body sms);
    ArgStringPtr (strOrNil (PhoneNumber_String (sms_ServiceCenter sms)));
    ArgString (SMSStatus_String (sms_Status sms));
    ArgString (ReadStatus_String (sms_Read sms));
    ArgAndroidTS (sms_Date sms);
    ArgBoolValue (sms_Locked sms);
    ArgAndroidTS (sms_DateSent sms);
    ArgString (sms_ReadableDate sms);
    ArgString (sms_ContactName sms) ].

(** ** The flat-file sink for calls *)

Record Call {CallType : Type} := mkCall {
  call_Number : PhoneNumber;
  call_Duration : Z;
  call_Date : AndroidTS;
  call_Type : CallType;
  call_ReadableDate : string;
  call_ContactName : string
}.
Arguments Call : clear implicits.

Record CallOutput (W : Type) := mkCallOutput {
  calls_f : W;
  calls_idx : Z
}.
Arguments mkCallOutput {W}.
Arguments calls_f {W}.
Arguments calls_idx {W}.

Definition call_headers : list string :=
  [ "Call Index #"; "Number"; "Duration (Seconds)"; "Date"; "Type";
    "Readable Date"; "Contact Name" ].

Section CallFlatFileSink.

Context {CallType : Type}.
Local Abbreviation Call := (Call CallType).

Variable PhoneNumber_String : PhoneNumber → string.
Variable AndroidTS_String : AndroidTS → string.
Variable CallType_String : CallType → string.
Variable RemoveCommasBeforeSuffixes : string → string.

Context `{Writer W}.

Definition NewCallOutput (f : W) : CallOutput W + error * W :=
  match fmt.Fprintln f (strings.Join call_headers tab) with
  | (Some err, f) => inr (err, f)
  | (None, f) => inl {| calls_f := f; calls_idx := 0 |}
  end.

Definition CallOutput_Write (o : CallOutput W) (call : Call)
  : option error * CallOutput W :=
  let row :=
    [ strconv.Itoa (calls_idx o);
      PhoneNumber_String (call_Number call);
      strconv.Itoa (call_Duration call);
      AndroidTS_String (call_Date call);
      CallType_String (call_Type call);
      call_ReadableDate call;
      RemoveCommasBeforeSuffixes (call_ContactName call) ] in
  let o := {| calls_f := calls_f o; calls_idx := wrap64 (calls_idx o + 1) |} in
  let '(err, f) := fmt.Fprintln (calls_f o) (strings.Join row tab) in
  (err, {| calls_f := f; calls_idx := calls_idx o |}).

(** The loop of [GenerateCallOutput]. *)
Fixpoint write_all_calls (o : CallOutput W) (l : list Call)
  : option error * CallOutput W :=
  match l with
  | [] => (None, o)
  | call :: l =>
      match CallOutput_Write o call with
      | (Some err, o) => (Some err, o)
      | (None, o) => write_all_calls o l
      end
  end.

(** [GenerateCallOutput], given the writer that [os.Create] returned. *)
Definition GenerateCallOutput (callOutput : W) (calls : list Call)
  : option error * W :=
  match NewCallOutput callOutput with
  | inr (err, f) => (Some err, f)
  | inl out => let '(err, out) := write_all_calls out calls in (err, calls_f out)
  end.

End CallFlatFileSink.

(** ** A writer that fails

    A disk with room for [disk_room] more writes: it takes them, and
    refuses every write from then on, like a full device. What it took
    and what it refused are kept apart. *)

Record Disk := mkDisk {
  disk_written : list string;
  disk_refused : list string;
  disk_room : nat
}.

Definition ENOSPC : error := ErrorString "no space left on device".

Global Instance disk_writer : Writer Disk :=
  λ d p,
    match disk_room d with
    | O => (Some ENOSPC,
            {| disk_written := disk_written d;
               disk_refused := disk_refused d ++ [p]; disk_room := 0 |})
    | S room => (None,
                 {| disk_written := disk_written d ++ [p];
                    disk_refused := disk_refused d; disk_room := room |})
    end.

(** ** Vocabulary for the call decoder *)

Section CallEmission.

Context {Call H : Type}.
Variable unmarshalCall : xml.StartElement → list xml.Token → Call + error.

(** The record that a child of the root decodes to, when it is a [call]
    element that unmarshals. *)
Definition call_of (n : Node) : option Call :=
  match n with
  | Element se content =>
      if decide (xml.Name_Local se = "call") then
        match unmarshalCall se (tokens_of content) with
        | inl call => Some call
        | inr _ => None
        end
      else None
  | _ => None
  end.

(** The children of the root taken one after the other, in document
    order, each [call] element decoded and handed to the handler, up to
    the first error. *)
Fixpoint dispatch_calls (OnCall : Call → H → option error * H)
    (children : list Node) (h : H) : option error * H :=
  match children with
  | [] => (None, h)
  | Element se content :: rest =>
      if decide (xml.Name_Local se = "call") then
        match unmarshalCall se (tokens_of content) with
        | inr err => (Some (Errorf "unable to decode call element" err), h)
        | inl call =>
            match OnCall call h with
            | (Some err, h) => (Some err, h)
            | (None, h) => dispatch_calls OnCall rest h
            end
        end
      else dispatch_calls OnCall rest h
  | _ :: rest => dispatch_calls OnCall rest h
  end.

End CallEmission.

(** Sample call backups: a call is kept as its number, and a [call]
    element without number does not unmarshal. *)
Module CallExample.

Definition unmarshalCall (se : xml.StartElement) (content : list xml.Token)
  : string + error :=
  match Sample.attr "number" se with
  | "" => inr (ErrorString "missing number")
  | number => inl number
  end.

Definition call_node (number : string) : Node :=
  Element {| xml.Name_Local := "call";
             xml.Attrs := [ xml.mkAttr "number" number;
                            xml.mkAttr "duration" "61" ] |} [].

(** Two calls, and between them a foreign element holding a third. *)
Definition children : list Node :=
  [ Text " "; call_node "5550100"; CommentNode "note";
    Element {| xml.Name_Local := "folder"; xml.Attrs := [] |} [call_node "5550111"];
    call_node "5550199"; Text " " ].

Definition keep_call : string → list string → option error * list string :=
  λ call calls, (None, calls ++ [call]).

End CallExample.

(** ** cmd/sbrparser, the variant writing tab-separated files *)

Module TsvDriver.

(** How [handleFile] ends: it returns, or panics with a message or with
    the error it was given. *)
Inductive ending :=
| Returns (err : option error)
| PanicsWith (msg : string)
| PanicsWithError (err : error).

(** The [findElem] of the command: the next start element whose name is
    one of [names]. No element is skipped: the search goes on inside the
    elements of other names. *)
Fixpoint findElem (fuel : nat) (decoder : xml.Decoder) (names : list string)
  : option ((xml.StartElement + error) * xml.Decoder) :=
  let namesSet : gset string := list_to_set names in
  match fuel with
  | O => None
  | S fuel =>
      match xml.Decoder_Token decoder with
      | (inr err, decoder) => Some (inr err, decoder)
      | (inl t, decoder) =>
          match t with
          | xml.StartElementT se =>
              if decide (xml.Name_Local se ∈ namesSet) then Some (inl se, decoder)
              else findElem fuel decoder names
          | _ => findElem fuel decoder names
          end
      end
  end.

Section HandleFile.

Context {SMSMessageType SMSStatus ReadStatus BoolValue AddressType : Type}.
Context {Calls World : Type}.
Local Abbreviation SMS := (SMS SMSMessageType SMSStatus ReadStatus BoolValue).
Local Abbreviation MMS := (MMS ReadStatus BoolValue AddressType).
Local Abbreviation Messages :=
  (Messages SMSMessageType SMSStatus ReadStatus BoolValue AddressType).

Variable unmarshalSMS : xml.StartElement → list xml.Token → SMS + error.
Variable unmarshalMMS : xml.StartElement → list xml.Token → MMS + error.
(** [decoder.Decode(c)] for a whole call backup. *)
Variable unmarshalCalls : list xml.Token → Calls + error.
Variable os_Open : string → list xml.Token + error.

(** What the reports and the writers of output files do to the world
    outside; the count, backup set and backup date of a [Messages] are the
    [BackupInfo] beside it. *)
Variable PrintMessageCountQC : BackupInfo → Messages → World → World.
Variable SMSOutput : BackupInfo → Messages → World → World.
Variable MMSOutput : BackupInfo → Messages → World → World.
Variable PrintCallCountQC : Calls → World → World.
Variable CallsOutput : Calls → World → World.

(** The [for] loop of [handleFile] over the [sms] and [mms] elements;
    [Returns None] stands for its [break]. *)
Fixpoint handleFile_loop (fuel : nat) (fileName : string) (decoder : xml.Decoder)
    (m : Messages) : option (ending * Messages) :=
  match fuel with
  | O => None
  | S fuel =>
      match findElem fuel decoder ["sms"; "mms"] with
      | None => None
      | Some (inr err, _) =>
          match err with
          | EOF => Some (Returns None, m)
          | _ => Some (Returns (Some (Errorf ("unable to find sms or mms element in "
                                               +:+ fileName) err)), m)
          end
      | Some (inl child, decoder) =>
          if decide (xml.Name_Local child = "sms") then
            match xml.Decoder_DecodeElement unmarshalSMS fuel child decoder with
            | None => None
            | Some (inr err, _) =>
                Some (Returns (Some (Errorf ("unable to decode sms element in "
                                              +:+ fileName) err)), m)
            | Some (inl sms, decoder) =>
                handleFile_loop fuel fileName decoder
                  {| msgs_SMS := msgs_SMS m ++ [sms]; msgs_MMS := msgs_MMS m |}
            end
          else if decide (xml.Name_Local child = "mms") then
            match xml.Decoder_DecodeElement unmarshalMMS fuel child decoder with
            | None => None
            | Some (inr err, _) =>
                Some (Returns (Some (Errorf ("unable to decode mms element in "
                                              +:+ fileName) err)), m)
            | Some (inl mms, decoder) =>
                handleFile_loop fuel fileName decoder
                  {| msgs_SMS := msgs_SMS m; msgs_MMS := msgs_MMS m ++ [mms] |}
            end
          else Some (PanicsWith "unexpected element", m)
      end
  end.

Definition handleFile (xmlFilePath : string) (w : World) : option (ending * World) :=
  let fileName := filepath.Base xmlFilePath in
  if negb (strings.HasPrefix fileName "calls-" || strings.HasPrefix fileName "sms-")
     || bool_decide (filepath.Ext fileName ≠ ".xml")
  then Some (Returns (Some (ErrorString ("unexpected file name: " +:+ fileName))), w)
  else
    match os_Open xmlFilePath with
    | inr err =>
        Some (Returns (Some (Errorf ("error opening '" +:+ xmlFilePath +:+ "'") err)), w)
    | inl f =>
        let decoder := xml.NewDecoder f in
        if strings.HasPrefix fileName "sms-" then
          match findElem (fuel_for decoder) decoder ["smses"] with
          | None => None
          | Some (inr err, _) =>
              Some (Returns (Some (Errorf ("unable to find smses element in "
                                            +:+ fileName) err)), w)
          | Some (inl root, decoder) =>
              let info := fillBackupInfo (mkBackupInfo "" "" "") root in
              match handleFile_loop (fuel_for decoder) fileName decoder
                      {| msgs_SMS := []; msgs_MMS := [] |} with
              | None => None
              | Some (Returns None, m) =>
                  let w := PrintMessageCountQC info m w in
                  let w := SMSOutput info m w in
                  let w := MMSOutput info m w in
                  Some (Returns None, w)
              | Some (o, _) => Some (o, w)
              end
          end
        else
          match unmarshalCalls f with
          | inr err => Some (PanicsWithError err, w)
          | inl c =>
              let w := PrintCallCountQC c w in
              let w := CallsOutput c w in
              Some (Returns None, w)
          end
    end.

(** What the loop of [handleFile] makes of one node of the document, and
    of a sequence of nodes: every [sms] and [mms] element is unmarshalled
    and appended, wherever it stands, and the content of elements of other
    names is gone through in the same way. *)
Fixpoint gather (fileName : string) (n : Node) (m : Messages)
  : option error * Messages :=
  match n with
  | Element se content =>
      if decide (xml.Name_Local se = "sms") then
        match unmarshalSMS se (tokens_of content) with
        | inr err =>
            (Some (Errorf ("unable to decode sms element in " +:+ fileName) err), m)
        | inl sms =>
            (None, {| msgs_SMS := msgs_SMS m ++ [sms]; msgs_MMS := msgs_MMS m |})
        end
      else if decide (xml.Name_Local se = "mms") then
        match unmarshalMMS se (tokens_of content) with
        | inr err =>
            (Some (Errorf ("unable to decode mms element in " +:+ fileName) err), m)
        | inl mms =>
            (None, {| msgs_SMS := msgs_SMS m; msgs_MMS := msgs_MMS m ++ [mms] |})
        end
      else
        (fix gather_all (nodes : list Node) (m : Messages) : option error * Messages :=
           match nodes with
           | [] => (None, m)
           | n :: nodes =>
               match gather fileName n m with
               | (Some err, m) => (Some err, m)
               | (None, m) => gather_all nodes m
               end
           end) content m
  | _ => (None, m)
  end.

Fixpoint gather_all (fileName : string) (nodes : list Node) (m : Messages)
  : option error * Messages :=
  match nodes with
  | [] => (None, m)
  | n :: nodes =>
      match gather fileName n m with
      | (Some err, m) => (Some err, m)
      | (None, m) => gather_all fileName nodes m
      end
  end.

End HandleFile.

End TsvDriver.

(** Is [n] an element at all? *)
Definition element (n : Node) : bool :=
  match n with
  | Element _ _ => true
  | _ => false
  end.

(** A sample world for the command: the lines its reports and writers
    leave behind, the count first, then the addresses of the SMS and of the
    MMS handed over. *)
Module TsvExample.

Definition World : Type := list string.

Definition PrintMessageCountQC (info : BackupInfo)
    (m : Messages unit unit unit unit unit) (w : World) : World :=
  w ++ [Count info].

Definition SMSOutput (info : BackupInfo)
    (m : Messages unit unit unit unit unit) (w : World) : World :=
  w ++ map sms_Address (msgs_SMS m).

Definition MMSOutput (info : BackupInfo)
    (m : Messages unit unit unit unit unit) (w : World) : World :=
  w ++ map mms_Address (msgs_MMS m).

(** Two SMS and an MMS below the root, a third SMS inside a foreign
    element. *)
Definition children : list Node :=
  [ Text " "; Sample.sms_node "5550100" "Alice";
    Element {| xml.Name_Local := "folder"; xml.Attrs := [] |}
      [ CommentNode "archived"; Sample.sms_node "5550111" "Carol" ];
    Sample.mms_node "5550100~5550199" "Alice, Bob";
    Sample.sms_node "5550199" "Bob" ].

Definition prolog : list Node := [Instruction "xml" "version='1.0'"; Text " "].

Definition root : xml.StartElement :=
  {| xml.Name_Local := "smses"; xml.Attrs := [xml.mkAttr "count" "4"] |}.

Definition os_Open (path : string) : list xml.Token + error :=
  if decide (path = "backups/sms-20180213.xml") then
    inl (tokens_of prolog ++ tokens (Element root children) ++ tokens_of [Text " "])
  else if decide (path = "backups/sms-20180214.xml") then
    inl (tokens_of prolog ++ xml.StartElementT root :: tokens_of children)
  else inr (ErrorString "no such file or directory").

Definition handleFile :=
  TsvDriver.handleFile (Calls:=unit) Sample.unmarshalSMS Sample.unmarshalMMS
    (λ _, inl tt) os_Open PrintMessageCountQC SMSOutput MMSOutput
    (λ _ w, w) (λ _ w, w).

End TsvExample.

(** ** The collecting decoder

    An earlier [MessageDecoder] of the package keeps a [Messages] value
    and appends to it every record that has no callback of its own; its
    count, backup set and backup date are the [BackupInfo] beside it. *)

Module Collecting.

Section Decoder.

Context {SMSMessageType SMSStatus ReadStatus BoolValue AddressType H : Type}.
Local Abbreviation SMS := (SMS SMSMessageType SMSStatus ReadStatus BoolValue).
Local Abbreviation MMS := (MMS ReadStatus BoolValue AddressType).
Local Abbreviation Messages :=
  (Messages SMSMessageType SMSStatus ReadStatus BoolValue AddressType).

Variable unmarshalSMS : xml.StartElement → list xml.Token → SMS + error.
Variable unmarshalMMS : xml.StartElement → list xml.Token → MMS + error.

Record MessageDecoder := mkMessageDecoder {
  decoder : xml.Decoder;
  info : BackupInfo;
  collected : Messages;
  OnSMS : handler (H:=H) SMS;
  OnMMS : handler (H:=H) MMS
}.

Definition NewMessageDecoder (stream : list xml.Token)
  : option (MessageDecoder + error) :=
  let decoder := xml.NewDecoder stream in
  match findElem (fuel_for decoder) decoder ["smses"] with
  | None => None
  | Some (inr err, _) => Some (inr (Errorf "unable to find root smses element" err))
  | Some (inl root, decoder) =>
      Some (inl {| decoder := decoder;
                   info := fillBackupInfo (mkBackupInfo "" "" "") root;
                   collected := {| msgs_SMS := []; msgs_MMS := [] |};
                   OnSMS := None; OnMMS := None |})
  end.

(** The methods [onSms] and [onMms], on the [Messages] of the decoder and
    the state of the callbacks. *)
Definition onSms (OnSMS : handler (H:=H) SMS) (sms : SMS) (s : Messages * H)
  : option error * (Messages * H) :=
  match OnSMS with
  | Some OnSMS => let '(err, h) := OnSMS sms s.2 in (err, (s.1, h))
  | None =>
      (None, ({| msgs_SMS := msgs_SMS s.1 ++ [sms]; msgs_MMS := msgs_MMS s.1 |}, s.2))
  end.

Definition onMms (OnMMS : handler (H:=H) MMS) (mms : MMS) (s : Messages * H)
  : option error * (Messages * H) :=
  match OnMMS with
  | Some OnMMS => let '(err, h) := OnMMS mms s.2 in (err, (s.1, h))
  | None =>
      (None, ({| msgs_SMS := msgs_SMS s.1; msgs_MMS := msgs_MMS s.1 ++ [mms] |}, s.2))
  end.

(** The [for] loop of [Decode]. *)
Fixpoint Decode_loop (fuel : nat) (OnSMS : handler (H:=H) SMS)
    (OnMMS : handler (H:=H) MMS) (decoder : xml.Decoder) (s : Messages * H)
  : option (outcome * (Messages * H)) :=
  match fuel with
  | O => None
  | S fuel =>
      match findElem fuel decoder ["sms"; "mms"] with
      | None => None
      | Some (inr err, _) =>
          match err with
          | EOF => Some (Return None, s)
          | _ => Some (Return (Some (Errorf "unable to find sms or mms element" err)), s)
          end
      | Some (inl child, decoder) =>
          if decide (xml.Name_Local child = "sms") then
            match xml.Decoder_DecodeElement unmarshalSMS fuel child decoder with
            | None => None
            | Some (inr err, _) =>
                Some (Return (Some (Errorf "unable to decode sms element" err)), s)
            | Some (inl sms, decoder) =>
                match onSms OnSMS sms s with
                | (Some err, s) => Some (Return (Some err), s)
                | (None, s) => Decode_loop fuel OnSMS OnMMS decoder s
                end
            end
          else if decide (xml.Name_Local child = "mms") then
            match xml.Decoder_DecodeElement unmarshalMMS fuel child decoder with
            | None => None
            | Some (inr err, _) =>
                Some (Return (Some (Errorf "unable to decode mms element" err)), s)
            | Some (inl mms, decoder) =>
                match onMms OnMMS mms s with
                | (Some err, s) => Some (Return (Some err), s)
                | (None, s) => Decode_loop fuel OnSMS OnMMS decoder s
                end
            end
          else Some (Panic "unexpected element", s)
      end
  end.

(** [Decode]: how it ends, the [Messages] of the decoder and the state
    of the callbacks afterwards. *)
Definition Decode (d : MessageDecoder) (h : H) : option (outcome * (Messages * H)) :=
  Decode_loop (fuel_for (decoder d)) (OnSMS d) (OnMMS d) (decoder d) (collected d, h).

End Decoder.

End Collecting.

(** ** Files and buffered writers

    An [os.File] opened for writing is the bytes it holds and whether it
    was closed; a write to an open file succeeds as a whole. *)

Module os.

Record File := mkFile {
  file_content : string;
  file_closed : bool
}.

Definition ErrClosed : error := ErrorString "file already closed".

(** What [os.Create] returns when it succeeds. *)
Definition created : File := {| file_content := ""; file_closed := false |}.

Definition File_Write (f : File) (p : string) : option error * File :=
  if file_closed f then (Some ErrClosed, f)
  else (None, {| file_content := file_content f +:+ p; file_closed := false |}).

Definition File_Close (f : File) : option error * File :=
  if file_closed f then (Some ErrClosed, f)
  else (None, {| file_content := file_content f; file_closed := true |}).

End os.

(** [bufio.Writer] over a file, with the default buffer size. [w_err] is
    the error that the writer remembers. *)
Module bufio.

Definition defaultBufSize : nat := 4096.

Record Writer := mkWriter {
  w_wr : os.File;
  w_buf : string;
  w_err : option error
}.

Definition NewWriter (f : os.File) : Writer :=
  {| w_wr := f; w_buf := ""; w_err := None |}.

Definition Buffered (b : Writer) : nat := String.length (w_buf b).
Definition Available (b : Writer) : nat := defaultBufSize - Buffered b.

Definition Flush (b : Writer) : option error * Writer :=
  match w_err b with
  | Some err => (Some err, b)
  | None =>
      if decide (Buffered b = 0) then (None, b)
      else
        match os.File_Write (w_wr b) (w_buf b) with
        | (Some err, f) => (Some err, {| w_wr := f; w_buf := w_buf b; w_err := Some err |})
        | (None, f) => (None, {| w_wr := f; w_buf := ""; w_err := None |})
        end
  end.

(** The loop of [Write]: while [p] does not fit and no error is
    remembered, [p] goes to the file directly when nothing is buffered,
    and otherwise fills the buffer, which is flushed. *)
Fixpoint Write_loop (turns : nat) (b : Writer) (p : string) : Writer * string :=
  match turns with
  | O => (b, p)
  | S turns =>
      if decide (Available b < String.length p ∧ w_err b = None) then
        if decide (Buffered b = 0) then
          match os.File_Write (w_wr b) p with
          | (Some err, f) =>
              Write_loop turns {| w_wr := f; w_buf := w_buf b; w_err := Some err |} p
          | (None, f) =>
              Write_loop turns {| w_wr := f; w_buf := w_buf b; w_err := None |} ""
          end
        else
          let n := Available b in
          let b := {| w_wr := w_wr b; w_buf := w_buf b +:+ substring 0 n p;
                      w_err := w_err b |} in
          let '(_, b) := Flush b in
          Write_loop turns b (substring n (String.length p - n) p)
      else (b, p)
  end.

(** [Write]. Three turns see the loop through: after a flush nothing is
    buffered, after a direct write nothing is left of [p]. *)
Definition Write (b : Writer) (p : string) : option error * Writer :=
  let '(b, p) := Write_loop 3 b p in
  match w_err b with
  | Some err => (Some err, b)
  | None => (None, {| w_wr := w_wr b; w_buf := w_buf b +:+ p; w_err := None |})
  end.

End bufio.

Global Instance bufio_writer : Writer bufio.Writer := bufio.Write.

(** ** cmd/sbrparser, the variant streaming into tab-separated files *)

Module TsvStream.

Definition nil_dereference : string :=
  "runtime error: invalid memory address or nil pointer dereference".

Record StreamingOutput {MmsSide : Type} := mkStreamingOutput {
  mmsOut : MmsSide;
  smsOut : SMSOutput bufio.Writer;
  callsOut : option (CallOutput bufio.Writer);   (* [None] is the nil pointer *)
  smsCount : Z;
  mmsCount : Z;
  callCount : Z
}.
Arguments StreamingOutput : clear implicits.

(** The state that the handlers act upon: the output, and the panic
    under way, if any. A handler that panics returns at once, as the
    panic takes it through [Decode]. *)
Record Run {MmsSide : Type} := mkRun {
  out : StreamingOutput MmsSide;
  panicking : option string
}.
Arguments Run : clear implicits.

Section Driver.

Context {SMSMessageType SMSStatus ReadStatus BoolValue AddressType CallType : Type}.
(** Everything behind [mmsOut]: the file [mms.tsv] with its buffer, the
    image directory and the image counters. *)
Context {MmsSide : Type}.
Local Abbreviation SMS := (SMS SMSMessageType SMSStatus ReadStatus BoolValue).
Local Abbreviation MMS := (MMS ReadStatus BoolValue AddressType).
Local Abbreviation Call := (Call CallType).
Local Abbreviation StreamingOutput := (StreamingOutput MmsSide).
Local Abbreviation Run := (Run MmsSide).

Variable PhoneNumber_String : PhoneNumber → string.
Variable SMSMessageType_String : SMSMessageType → string.
Variable SMSStatus_String : SMSStatus → string.
Variable ReadStatus_String : ReadStatus → string.
Variable AndroidTS_String : AndroidTS → string.
Variable BoolValue_String : BoolValue → string.
Variable CallType_String : CallType → string.
Variable CleanupMessageBody : string → string.
Variable RemoveCommasBeforeSuffixes : string → string.
Variable unmarshalSMS : xml.StartElement → list xml.Token → SMS + error.
Variable unmarshalMMS : xml.StartElement → list xml.Token → MMS + error.
Variable unmarshalCall : xml.StartElement → list xml.Token → Call + error.

(** The image directory below the output directory, and what the
    operating system answers: for the creation of that directory and of
    the two files, for a path of the command line. *)
Variable imageDir : string.
Variable MkdirAll : option error.
Variable create_mms_tsv : option error.
Variable create_sms_tsv : option error.
Variable os_Stat : string → option bool.
Variable os_Open : string → list xml.Token + error.

(** The MMS output of the package: its creation over the new [mms.tsv],
    its [Write], and what closing the file and then flushing its buffer
    leaves. *)
Variable NewMMSOutput : MmsSide + error.
Variable MMSOutput_Write : MMS → MmsSide → option error * MmsSide.
Variable mms_close_flush : MmsSide → MmsSide.

Definition NewStreamingOutput : StreamingOutput + error :=
  match MkdirAll with
  | Some err => inr (Errorf ("unable to create image directory " +:+ imageDir) err)
  | None =>
      match create_mms_tsv with
      | Some err => inr (Errorf "unable to create file mms.tsv" err)
      | None =>
          match NewMMSOutput with
          | inr err => inr err
          | inl mmsOut =>
              match create_sms_tsv with
              | Some err => inr (Errorf "unable to create file sms.tsv" err)
              | None =>
                  let smsBufFile := bufio.NewWriter os.created in
                  match NewSMSOutput smsBufFile with
                  | inr (err, _) => inr err
                  | inl smsOut =>
                      inl {| mmsOut := mmsOut; smsOut := smsOut; callsOut := None;
                             smsCount := 0; mmsCount := 0; callCount := 0 |}
                  end
              end
          end
      end
  end.

(** [Close] runs [closeFuncs] in the order in which they were appended:
    for each file its [Close] first, then the [Flush] of its buffer. *)
Definition Close (s : StreamingOutput) : StreamingOutput :=
  let smsBufFile := out_f (smsOut s) in
  let '(_, smsFile) := os.File_Close (bufio.w_wr smsBufFile) in
  let '(_, smsBufFile) :=
    bufio.Flush {| bufio.w_wr := smsFile; bufio.w_buf := bufio.w_buf smsBufFile;
                   bufio.w_err := bufio.w_err smsBufFile |} in
  {| mmsOut := mms_close_flush (mmsOut s);
     smsOut := {| out_f := smsBufFile; out_idx := out_idx (smsOut s) |};
     callsOut := callsOut s;
     smsCount := smsCount s; mmsCount := mmsCount s; callCount := callCount s |}.

Definition onSms (sms : SMS) (r : Run) : option error * Run :=
  let s := out r in
  let '(err, smsOut) :=
    SMSOutput_Write PhoneNumber_String SMSMessageType_String SMSStatus_String
      ReadStatus_String AndroidTS_String BoolValue_String CleanupMessageBody
      RemoveCommasBeforeSuffixes (smsOut s) sms in
  (err, {| out := {| mmsOut := mmsOut s; smsOut := smsOut; callsOut := callsOut s;
                     smsCount := wrap64 (smsCount s + 1); mmsCount := mmsCount s;
                     callCount := callCount s |};
           panicking := panicking r |}).

Definition onMms (mms : MMS) (r : Run) : option error * Run :=
  let s := out r in
  let '(err, mmsOut) := MMSOutput_Write mms (mmsOut s) in
  (err, {| out := {| mmsOut := mmsOut; smsOut := smsOut s; callsOut := callsOut s;
                     smsCount := smsCount s; mmsCount := wrap64 (mmsCount s + 1);
                     callCount := callCount s |};
           panicking := panicking r |}).

Definition onCall (call : Call) (r : Run) : option error * Run :=
  let s := out r in
  let counted (callsOut : option (CallOutput bufio.Writer)) :=
    {| mmsOut := mmsOut s; smsOut := smsOut s; callsOut := callsOut;
       smsCount := smsCount s; mmsCount := mmsCount s;
       callCount := wrap64 (callCount s + 1) |} in
  match callsOut s with
  | None =>
      (Some (ErrorString nil_dereference),
       {| out := counted None; panicking := Some nil_dereference |})
  | Some callsOut =>
      let '(err, callsOut) :=
        CallOutput_Write PhoneNumber_String AndroidTS_String CallType_String
          RemoveCommasBeforeSuffixes callsOut call in
      (err, {| out := counted (Some callsOut); panicking := panicking r |})
  end.

(** [StreamingOutput.MessageDecoder] and [StreamingOutput.CallDecoder];
    the progress bar is left out. The receiver is only captured. *)
Definition StreamingOutput_MessageDecoder (file : list xml.Token)
  : option (@MessageDecoder SMS MMS Run + error) :=
  match @NewMessageDecoder SMS MMS Run file with
  | None => None
  | Some (inr err) => Some (inr err)
  | Some (inl decoder) =>
      Some (inl {| md_decoder := md_decoder decoder;
                   md_BackupInfo := md_BackupInfo decoder;
                   OnSMS := Some onSms; OnMMS := Some onMms |})
  end.

Definition StreamingOutput_CallDecoder (file : list xml.Token)
  : option (@CallDecoder Call Run + error) :=
  match @NewCallDecoder Call Run file with
  | None => None
  | Some (inr err) => Some (inr err)
  | Some (inl decoder) =>
      Some (inl {| cd_decoder := cd_decoder decoder;
                   cd_BackupInfo := cd_BackupInfo decoder;
                   OnCall := Some onCall |})
  end.

(** How a [Decode] that was entered with [s] ends for [handleFile]. *)
Definition decoded (result : option (outcome * Run))
  : option (outcome * option StreamingOutput) :=
  match result with
  | None => None
  | Some (o, r) =>
      match panicking r with
      | Some msg => Some (Panic msg, Some (out r))
      | None => Some (o, Some (out r))
      end
  end.

(** [handleFile]; [out] is [None] for the nil pointer. The validation
    report on standard output is left out. *)
Definition handleFile (xmlFilePath : string) (out : option StreamingOutput)
  : option (outcome * option StreamingOutput) :=
  let fileName := filepath.Base xmlFilePath in
  if negb (strings.HasPrefix fileName "calls-" || strings.HasPrefix fileName "sms-")
     || bool_decide (filepath.Ext fileName ≠ ".xml")
  then Some (Return (Some (ErrorString ("unexpected file name: " +:+ fileName))), out)
  else
    match os_Open xmlFilePath with
    | inr err =>
        Some (Return (Some (Errorf ("error opening '" +:+ xmlFilePath +:+ "'") err)), out)
    | inl f =>
        if strings.HasPrefix fileName "sms-" then
          match StreamingOutput_MessageDecoder f with
          | None => None
          | Some (inr err) => Some (Return (Some err), out)
          | Some (inl decoder) =>
              match out with
              | None => Some (Panic nil_dereference, None)
              | Some s =>
                  decoded (MessageDecoder_Decode unmarshalSMS unmarshalMMS decoder
                             {| TsvStream.out := s; panicking := None |})
              end
          end
        else
          match StreamingOutput_CallDecoder f with
          | None => None
          | Some (inr err) => Some (Return (Some err), out)
          | Some (inl decoder) =>
              match out with
              | None => Some (Panic nil_dereference, None)
              | Some s =>
                  decoded (CallDecoder_Decode unmarshalCall decoder
                             {| TsvStream.out := s; panicking := None |})
              end
          end
    end.

Fixpoint main_loop (args : list string) (streamingOut : option StreamingOutput)
    (stderr : list stderr_line)
  : option (loop_end * option StreamingOutput * list stderr_line) :=
  match args with
  | [] => Some (Completed, streamingOut, stderr)
  | xmlFilePath :: args =>
      match os_Stat xmlFilePath with
      | None =>
          Some (ReturnedEarly, streamingOut,
                stderr ++ [("Error with path to XML file", None)])
      | Some true =>
          Some (ReturnedEarly, streamingOut,
                stderr ++ [("XML path must point to specific XML filename, not to a directory.", None)])
      | Some false =>
          match handleFile xmlFilePath streamingOut with
          | None => None
          | Some (Panic msg, streamingOut) => Some (Panicked msg, streamingOut, stderr)
          | Some (Return (Some err), streamingOut) =>
              main_loop args streamingOut
                (stderr ++ [("Error handling file", Some err)])
          | Some (Return None, streamingOut) =>
              main_loop args streamingOut stderr
          end
      end
  end.

(** [main] from the point where the output directory is validated: how
    it ends, the output as the deferred [Close] leaves it ([None] when it
    was never created), and the errors it reported on standard error. When
    [NewStreamingOutput] fails, [main] goes on with the nil pointer. *)
Definition main (args : list string)
  : option (loop_end * option StreamingOutput * list stderr_line) :=
  match args with
  | [] =>
      Some (ReturnedEarly, None,
            [("Missing required argument: Specify path to xml backup file(s).", None)])
  | _ =>
      let '(streamingOut, stderr) :=
        match NewStreamingOutput with
        | inl s => (Some s, [])
        | inr err => (None, [("Error creating output files", Some err)])
        end in
      match main_loop args streamingOut stderr with
      | None => None
      | Some (e, streamingOut, stderr) =>
          match streamingOut with
          | None => Some (Panicked nil_dereference, None, stderr)
          | Some s => Some (e, Some (Close s), stderr)
          end
      end
  end.

End Driver.

End TsvStream.

(** The bytes that a sequence of chunks makes up. *)
Definition bytes_of (chunks : list string) : string := foldr String.append "" chunks.

(** A sample run of the streaming variant: every file can be created,
    the MMS output only counts what it is given, and the command line
    names a message backup and a call backup. *)
Module TsvStreamExample.

Definition os_Stat (path : string) : option bool :=
  if decide (path = "backups") then Some true else Some false.

Definition os_Open (path : string) : list xml.Token + error :=
  if decide (path = "backups/sms-20180213.xml") then
    inl (tokens_of [Instruction "xml" "version='1.0'"]
         ++ tokens (Element {| xml.Name_Local := "smses";
                               xml.Attrs := [xml.mkAttr "count" "3"] |}
                      Sample.interleaved)
         ++ tokens_of [Text " "])
  else if decide (path = "backups/calls-20180213.xml") then
    inl (tokens_of [Instruction "xml" "version='1.0'"]
         ++ xml.StartElementT {| xml.Name_Local := "calls";
                                 xml.Attrs := [xml.mkAttr "count" "2"] |}
         :: tokens_of [Text " "]
         ++ tokens (Element {| xml.Name_Local := "call";
                               xml.Attrs := [xml.mkAttr "number" "5550100"] |} [])
         ++ [xml.BadSyntax "invalid character"])
  else inr (ErrorString "no such file or directory").

Definition unmarshalCall (se : xml.StartElement) (content : list xml.Token)
  : Call unit + error :=
  inl {| call_Number := Sample.attr "number" se; call_Duration := 0;
         call_Date := ""; call_Type := tt; call_ReadableDate := "";
         call_ContactName := "" |}.

(** [mkdir] is what [os.MkdirAll] answers. *)
Definition main (mkdir : option error) (args : list string) :=
  TsvStream.main (MmsSide:=nat) id Sample.unit_String Sample.unit_String
    Sample.unit_String id Sample.unit_String Sample.unit_String id id
    Sample.unmarshalSMS Sample.unmarshalMMS unmarshalCall
    "out/images" mkdir None None os_Stat os_Open
    (inl 0) (λ _ n, (None, S n)) id args.

Definition NewStreamingOutput (mkdir : option error) :=
  TsvStream.NewStreamingOutput (MmsSide:=nat) "out/images" mkdir None None (inl 0).

End TsvStreamExample.

(** The lines that [SMSOutput.Write] produces for [records] when its
    counter starts at [idx]. *)
Fixpoint sms_lines {SMSMessageType SMSStatus ReadStatus BoolValue : Type}
    (PhoneNumber_String : PhoneNumber → string)
    (SMSMessageType_String : SMSMessageType → string)
    (SMSStatus_String : SMSStatus → string)
    (ReadStatus_String : ReadStatus → string)
    (AndroidTS_String : AndroidTS → string)
    (BoolValue_String : BoolValue → string)
    (CleanupMessageBody RemoveCommasBeforeSuffixes : string → string)
    (idx : Z) (records : list (SMS SMSMessageType SMSStatus ReadStatus BoolValue))
  : list string :=
  match records with
  | [] => []
  | sms :: records =>
      (strings.Join
         (sms_row PhoneNumber_String SMSMessageType_String SMSStatus_String
            ReadStatus_String AndroidTS_String BoolValue_String CleanupMessageBody
            RemoveCommasBeforeSuffixes idx sms) tab +:+ newline)
      :: sms_lines PhoneNumber_String SMSMessageType_String SMSStatus_String
           ReadStatus_String AndroidTS_String BoolValue_String CleanupMessageBody
           RemoveCommasBeforeSuffixes (wrap64 (idx + 1)) records
  end.

(** * Properties *)

(** ** Contact guessing *)

Lemma hasRawNum_elem_of (nums : list string) (rawNum : string) :
  hasRawNum nums rawNum = true ↔ rawNum ∈ nums.
Proof.
  induction nums as [|num rest IH]; simpl.
  - split; [discriminate | intros Hin; inversion Hin].
  - case_decide as Heq.
    + subst. split; [intros _; left | reflexivity].
    + rewrite IH. split.
      * intros Hin. by right.
      * intros Hin. inversion Hin; subst; [congruence | assumption].
Qed.

Lemma addRawNum_NoDup (c : Contact) (rawNum : string) :
  NoDup (RawNumbers c) → NoDup (RawNumbers (addRawNum c rawNum)).
Proof.
  intros Hnd. unfold addRawNum.
  destruct (hasRawNum (RawNumbers c) rawNum) eqn:Hhas; [assumption|].
  simpl. apply NoDup_app. split_and!; [assumption | | apply NoDup_singleton].
  intros x Hx Hx'. apply list_elem_of_singleton in Hx'. subst x.
  apply hasRawNum_elem_of in Hx. congruence.
Qed.

Lemma addRawNum_Name (c : Contact) (rawNum : string) :
  Name (addRawNum c rawNum) = Name c.
Proof. unfold addRawNum. by destruct (hasRawNum _ _). Qed.

Lemma addRawNum_CanonicalNumber (c : Contact) (rawNum : string) :
  CanonicalNumber (addRawNum c rawNum) = CanonicalNumber c.
Proof. unfold addRawNum. by destruct (hasRawNum _ _). Qed.

(** Unfolding the loop bodies, whatever the section below calls them. *)
Ltac unfold_guess_sms := unfold guess_sms.
Ltac unfold_guess_mms := unfold guess_mms.
Ltac unfold_GuessContacts := unfold GuessContacts.

Section GuessingProperties.

Context {SMSMessageType SMSStatus ReadStatus BoolValue AddressType : Type}.
Local Abbreviation SMS := (SMS SMSMessageType SMSStatus ReadStatus BoolValue).
Local Abbreviation MMS := (MMS ReadStatus BoolValue AddressType).
Local Abbreviation Messages :=
  (Messages SMSMessageType SMSStatus ReadStatus BoolValue AddressType).

Variable NormalizePhoneNumber : string → string.
Variable RemoveCommasBeforeSuffixes : string → string.
Variable TrimSpace : string → string.

Local Abbreviation guess_sms := (guess_sms NormalizePhoneNumber).
Local Abbreviation guess_mms := (guess_mms RemoveCommasBeforeSuffixes TrimSpace).
Local Abbreviation map_ok := (map_ok NormalizePhoneNumber).
Local Abbreviation GuessContacts :=
  (GuessContacts (SMSMessageType:=SMSMessageType) (SMSStatus:=SMSStatus)
     (AddressType:=AddressType)
     NormalizePhoneNumber RemoveCommasBeforeSuffixes TrimSpace).

Lemma guess_sms_map_ok (seen : list SMS) (st : GuessState) (sms : SMS) :
  map_ok seen (canonicalMap st) →
  map_ok (seen ++ [sms]) (canonicalMap (guess_sms st sms)).
Proof.
  intros Hok k c. unfold_guess_sms.
  set (canonicalNum := NormalizePhoneNumber (sms_Address sms)).
  assert (Hweak : ∀ k' c', canonicalMap st !! k' = Some c' →
            CanonicalNumber c' = k' ∧ NoDup (RawNumbers c')
            ∧ ∃ sms', sms' ∈ seen ++ [sms]
                ∧ NormalizePhoneNumber (sms_Address sms') = k').
  { intros k' c' Hk'. destruct (Hok _ _ Hk') as (? & ? & sms' & ? & ?).
    split_and!; [done..|]. exists sms'. split; [|done].
    apply elem_of_app. by left. }
  assert (Hnew : ∃ sms', sms' ∈ seen ++ [sms]
            ∧ NormalizePhoneNumber (sms_Address sms') = canonicalNum).
  { exists sms. split; [|done]. apply elem_of_app. right. by apply list_elem_of_singleton. }
  destruct (canonicalMap st !! canonicalNum) as [contact|] eqn:Hlook.
  - destruct (Hok _ _ Hlook) as (Hcan & Hnd & _).
    assert (Hins : ∀ contact', CanonicalNumber contact' = canonicalNum →
              NoDup (RawNumbers contact') →
              <[canonicalNum := addRawNum contact' (sms_Address sms)]>
                (canonicalMap st) !! k = Some c →
              CanonicalNumber c = k ∧ NoDup (RawNumbers c)
              ∧ ∃ sms', sms' ∈ seen ++ [sms]
                  ∧ NormalizePhoneNumber (sms_Address sms') = k).
    { intros contact' Hcan' Hnd' Hk. destruct (decide (canonicalNum = k)) as [<-|Hne].
      - rewrite lookup_insert_eq in Hk. injection Hk as <-.
        rewrite addRawNum_CanonicalNumber. split_and!; [done| |done].
        by apply addRawNum_NoDup.
      - rewrite lookup_insert_ne in Hk by done. by apply Hweak. }
    repeat case_decide; simpl; apply Hins; done.
  - simpl. intros Hk. destruct (decide (canonicalNum = k)) as [<-|Hne].
    + rewrite lookup_insert_eq in Hk. injection Hk as <-. simpl.
      split_and!; [done| |done]. apply NoDup_singleton.
    + rewrite lookup_insert_ne in Hk by done. by apply Hweak.
Qed.

Lemma foldl_guess_sms_map_ok (l seen : list SMS) (st : GuessState) :
  map_ok seen (canonicalMap st) →
  map_ok (seen ++ l) (canonicalMap (foldl guess_sms st l)).
Proof.
  revert seen st. induction l as [|sms l IH]; intros seen st Hok; simpl.
  - by rewrite app_nil_r.
  - replace (seen ++ sms :: l) with ((seen ++ [sms]) ++ l)
      by (by rewrite <- app_assoc).
    apply IH. by apply guess_sms_map_ok.
Qed.

Lemma guess_mms_canonicalMap (st : GuessState) (mms : MMS) :
  canonicalMap (guess_mms st mms) = canonicalMap st.
Proof.
  unfold_guess_mms. case_decide; [|done].
  by destruct (mms_Parts mms) as [|? [|? ?]].
Qed.

Lemma foldl_guess_mms_canonicalMap (l : list MMS) (st : GuessState) :
  canonicalMap (foldl guess_mms st l) = canonicalMap st.
Proof.
  revert st. induction l as [|mms l IH]; intros st; simpl; [done|].
  by rewrite IH, guess_mms_canonicalMap.
Qed.

Lemma GuessContacts_map_ok (m : Messages) :
  map_ok (msgs_SMS m) (GuessContacts m).1.1.
Proof.
  unfold_GuessContacts. simpl.
  rewrite foldl_guess_mms_canonicalMap.
  apply (foldl_guess_sms_map_ok (msgs_SMS m) []).
  intros k c Hk. simpl in Hk. by rewrite lookup_empty in Hk.
Qed.

(** C8. Every key [k] of the map returned by [GuessContacts] holds a
    contact whose [CanonicalNumber] is [k], and [k] is the normalised
    address of some SMS of the input. *)
Theorem GuessContacts_keys_canonical (m : Messages) (k : string) (c : Contact) :
  (GuessContacts m).1.1 !! k = Some c →
  CanonicalNumber c = k
  ∧ ∃ sms, sms ∈ msgs_SMS m ∧ NormalizePhoneNumber (sms_Address sms) = k.
Proof.
  intros Hk. destruct (GuessContacts_map_ok m k c Hk) as (? & _ & ?). done.
Qed.

(** C9. No contact of the map returned by [GuessContacts] lists a raw
    number twice, however many SMS records carry that raw address. *)
Theorem GuessContacts_RawNumbers_NoDup (m : Messages) (k : string) (c : Contact) :
  (GuessContacts m).1.1 !! k = Some c → NoDup (RawNumbers c).
Proof.
  intros Hk. destruct (GuessContacts_map_ok m k c Hk) as (_ & ? & _). done.
Qed.

Lemma guess_sms_name_policy (st : GuessState) (sms : SMS) (c : Contact) :
  canonicalMap st !! NormalizePhoneNumber (sms_Address sms) = Some c →
  ∃ c', canonicalMap (guess_sms st sms) !! NormalizePhoneNumber (sms_Address sms)
          = Some c'
    ∧ Name c' = (if decide (Name c = "(Unknown)") then sms_ContactName sms else Name c)
    ∧ logged (guess_sms st sms)
      = logged st ++
        (if decide (Name c ≠ "(Unknown)" ∧ sms_ContactName sms ≠ "(Unknown)"
                    ∧ Name c ≠ sms_ContactName sms)
         then [multiple_names_warning (NormalizePhoneNumber (sms_Address sms))
                 (Name c) (sms_ContactName sms)]
         else []).
Proof.
  intros Hlook. unfold_guess_sms. rewrite Hlook.
  destruct (decide (Name c ≠ sms_ContactName sms)) as [Hne|Heq];
    [destruct (decide (Name c = "(Unknown)")) as [Hold|Hold];
       [|destruct (decide (sms_ContactName sms = "(Unknown)")) as [Hnew|Hnew]]|];
    simpl; eexists; rewrite lookup_insert_eq; (split; [reflexivity|]);
    rewrite addRawNum_Name; simpl.
  - split; [done|]. rewrite decide_False by tauto. by rewrite app_nil_r.
  - split; [done|]. rewrite decide_False by tauto. by rewrite app_nil_r.
  - split; [done|]. by rewrite decide_True by tauto.
  - split.
    + case_decide; [|done]. apply dec_stable in Heq. congruence.
    + rewrite decide_False by tauto. by rewrite app_nil_r.
Qed.

Lemma guess_mms_logged (st : GuessState) (mms : MMS) :
  logged (guess_mms st mms)
  = logged st ++ logged (guess_mms {| canonicalMap := ∅; logged := [] |} mms).
Proof.
  unfold_guess_mms. case_decide; [|simpl; by rewrite app_nil_r].
  destruct (mms_Parts mms) as [|? [|? ?]]; simpl; by rewrite <- ?app_assoc.
Qed.

Lemma foldl_guess_mms_logged (l : list MMS) (st : GuessState) :
  logged (foldl guess_mms st l)
  = logged st ++ logged (foldl guess_mms {| canonicalMap := ∅; logged := [] |} l).
Proof.
  revert st. induction l as [|mms l IH]; intros st; simpl.
  - by rewrite app_nil_r.
  - rewrite IH. rewrite (IH (guess_mms _ mms)).
    rewrite guess_mms_logged. by rewrite app_assoc.
Qed.

(** The second loop never touches the map: the result is the map built
    from the SMS records alone. *)
Lemma GuessContacts_map_ignores_mms (smss : list SMS) (mmss : list MMS) :
  (GuessContacts (mkMessages smss mmss)).1.1
  = (GuessContacts (mkMessages smss [])).1.1.
Proof.
  unfold_GuessContacts. simpl. apply foldl_guess_mms_canonicalMap.
Qed.

Lemma GuessContacts_logged_app (smss : list SMS) (pre post : list MMS) :
  (GuessContacts (mkMessages smss (pre ++ post))).2
  = (GuessContacts (mkMessages smss pre)).2 ++ (GuessContacts (mkMessages [] post)).2.
Proof.
  unfold_GuessContacts. simpl. rewrite foldl_app.
  by rewrite foldl_guess_mms_logged.
Qed.

(** C3. Two SMS records [a] then [b] with the same normalised number: the
    contact takes the name of [b] if [a] carried "(Unknown)", keeps the
    name of [a] otherwise, and exactly when both names are known and
    differ one naming-conflict warning is logged. *)
Theorem GuessContacts_name_conflict_policy (a b : SMS) (mmss : list MMS) :
  NormalizePhoneNumber (sms_Address a) = NormalizePhoneNumber (sms_Address b) →
  ∃ c,
    (GuessContacts (mkMessages [a; b] mmss)).1.1
      !! NormalizePhoneNumber (sms_Address a) = Some c
    ∧ (sms_ContactName a = "(Unknown)" → Name c = sms_ContactName b)
    ∧ (sms_ContactName b = "(Unknown)" → Name c = sms_ContactName a)
    ∧ (sms_ContactName a ≠ "(Unknown)" → Name c = sms_ContactName a)
    ∧ (GuessContacts (mkMessages [a; b] mmss)).1.2 = None
    ∧ (GuessContacts (mkMessages [a; b] mmss)).2
      = (if decide (sms_ContactName a ≠ "(Unknown)"
                    ∧ sms_ContactName b ≠ "(Unknown)"
                    ∧ sms_ContactName a ≠ sms_ContactName b)
         then [multiple_names_warning (NormalizePhoneNumber (sms_Address a))
                 (sms_ContactName a) (sms_ContactName b)]
         else [])
        ++ (GuessContacts (mkMessages [] mmss)).2.
Proof.
  intros Hsame.
  set (st0 := {| canonicalMap := ∅; logged := [] |}).
  set (st1 := guess_sms st0 a).
  assert (Hst1 : canonicalMap st1 !! NormalizePhoneNumber (sms_Address b)
                 = Some {| Name := sms_ContactName a;
                           CanonicalNumber := NormalizePhoneNumber (sms_Address a);
                           RawNumbers := [sms_Address a] |}).
  { unfold st1; unfold_guess_sms. simpl. rewrite lookup_empty. simpl.
    rewrite <- Hsame. apply lookup_insert_eq. }
  assert (Hlog1 : logged st1 = []).
  { unfold st1; unfold_guess_sms. simpl. by rewrite lookup_empty. }
  destruct (guess_sms_name_policy st1 b _ Hst1) as (c & Hc & Hname & Hlog).
  simpl in Hname, Hlog. rewrite Hlog1 in Hlog. simpl in Hlog.
  exists c. unfold_GuessContacts. simpl.
  rewrite foldl_guess_mms_canonicalMap, foldl_guess_mms_logged.
  fold st0. fold st1. rewrite Hsame at 1. split_and!; [done| | | |done|].
  - intros Ha. by rewrite Hname, decide_True.
  - intros Hb. rewrite Hname. destruct (decide (sms_ContactName a = "(Unknown)")); congruence.
  - intros Ha. by rewrite Hname, decide_False.
  - rewrite Hlog. by rewrite <- Hsame.
Qed.

(** C4. An MMS whose address list and contact-name list split into
    different numbers of pieces is skipped: the map is the one obtained
    without the record, no error is returned, the other records log what
    they log without it, and in its place stands a warning that states
    the two counts and the probable cause. *)
Theorem GuessContacts_skips_unpaired_mms
    (smss : list SMS) (pre post : list MMS) (mms : MMS) :
  let rawNumsList := strings.Split (mms_Address mms) "~" in
  let contactNames :=
    strings.Split (RemoveCommasBeforeSuffixes (mms_ContactName mms)) "," in
  length rawNumsList ≠ length contactNames →
  let result := GuessContacts (mkMessages smss (pre ++ mms :: post)) in
  let without := GuessContacts (mkMessages smss (pre ++ post)) in
  result.1.1 = without.1.1
  ∧ result.1.2 = None
  ∧ ∃ more,
      result.2
      = (GuessContacts (mkMessages smss pre)).2
        ++ (mms_count_warning (length rawNumsList) (length contactNames)
              (if decide (length contactNames < length rawNumsList)
               then "A number probably doesn't have a known contact"
               else "A contact probably has a comma") :: more)
        ++ (GuessContacts (mkMessages [] post)).2
      ∧ without.2
        = (GuessContacts (mkMessages smss pre)).2
          ++ (GuessContacts (mkMessages [] post)).2.
Proof.
  intros rawNumsList contactNames Hlen result without.
  split_and!.
  - unfold result, without.
    rewrite (GuessContacts_map_ignores_mms smss (pre ++ mms :: post)).
    by rewrite (GuessContacts_map_ignores_mms smss (pre ++ post)).
  - done.
  - unfold result, without.
    rewrite (GuessContacts_logged_app smss pre (mms :: post)).
    rewrite (GuessContacts_logged_app smss pre post).
    change (mms :: post) with ([mms] ++ post).
    rewrite (GuessContacts_logged_app [] [mms] post).
    assert (Hdiag : ∃ more,
      (GuessContacts (mkMessages [] [mms])).2
      = mms_count_warning (length rawNumsList) (length contactNames)
          (if decide (length contactNames < length rawNumsList)
           then "A number probably doesn't have a known contact"
           else "A contact probably has a comma") :: more).
    { unfold_GuessContacts; unfold_guess_mms. simpl.
      rewrite length_map. fold rawNumsList contactNames.
      rewrite decide_True by done.
      destruct (mms_Parts mms) as [|? [|? ?]]; simpl; eexists; reflexivity. }
    destruct Hdiag as [more Hmore]. exists more. rewrite Hmore.
    split; reflexivity.
Qed.

End GuessingProperties.

Lemma GuessContacts_keys_canonical_witness :
  let m := mkMessages [Sample.sms "+1 (555) 0100" "Alice"; Sample.sms "15550100" "Alice"] [] in
  let c := {| Name := "Alice"; CanonicalNumber := "15550100";
              RawNumbers := ["+1 (555) 0100"; "15550100"] |} in
  (Sample.GuessContacts m).1.1 !! "15550100" = Some c
  ∧ CanonicalNumber c = "15550100"
  ∧ ∃ sms, sms ∈ msgs_SMS m ∧ Sample.digits_only (sms_Address sms) = "15550100".
Proof.
  intros m c.
  assert (Hk : (Sample.GuessContacts m).1.1 !! "15550100" = Some c)
    by (vm_compute; reflexivity).
  split; [exact Hk|].
  exact (GuessContacts_keys_canonical Sample.digits_only id Sample.trim_blanks
           m "15550100" c Hk).
Defined.

Lemma GuessContacts_RawNumbers_NoDup_witness :
  let m := mkMessages
             [Sample.sms "555-0100" "Alice"; Sample.sms "5550100" "Alice";
              Sample.sms "555-0100" "Alice"] [] in
  let c := {| Name := "Alice"; CanonicalNumber := "5550100";
              RawNumbers := ["555-0100"; "5550100"] |} in
  (Sample.GuessContacts m).1.1 !! "5550100" = Some c ∧ NoDup (RawNumbers c).
Proof.
  intros m c.
  assert (Hk : (Sample.GuessContacts m).1.1 !! "5550100" = Some c)
    by (vm_compute; reflexivity).
  split; [exact Hk|].
  exact (GuessContacts_RawNumbers_NoDup Sample.digits_only id Sample.trim_blanks
           m "5550100" c Hk).
Defined.

Lemma GuessContacts_name_conflict_policy_witness :
  Sample.digits_only "555-0100" = Sample.digits_only "5550100"
  ∧ ∃ c,
      (Sample.GuessContacts
         (mkMessages [Sample.sms "555-0100" "Alice"; Sample.sms "5550100" "Bob"] [])).1.1
        !! "5550100" = Some c
      ∧ Name c = "Alice"
      ∧ (Sample.GuessContacts
           (mkMessages [Sample.sms "555-0100" "Alice"; Sample.sms "5550100" "Bob"] [])).2
        = ["Warning: 5550100 has multiple names: Alice and Bob"].
Proof.
  assert (Hsame : Sample.digits_only "555-0100" = Sample.digits_only "5550100")
    by reflexivity.
  split; [exact Hsame|].
  destruct (GuessContacts_name_conflict_policy Sample.digits_only id Sample.trim_blanks
              (AddressType:=unit)
              (Sample.sms "555-0100" "Alice") (Sample.sms "5550100" "Bob") [] Hsame)
    as (c & Hc & _ & _ & Hkeep & _ & Hlog).
  exists c. split_and!.
  - exact Hc.
  - apply Hkeep. discriminate.
  - exact Hlog.
Defined.

Lemma GuessContacts_skips_unpaired_mms_witness :
  let smss := [Sample.sms "555-0100" "Alice"] in
  let mms := Sample.mms "5550199" "Doe, Jane" [] in
  length (strings.Split (mms_Address mms) "~")
    ≠ length (strings.Split (id (mms_ContactName mms)) ",")
  ∧ (Sample.GuessContacts (mkMessages smss [mms])).1.1
    = (Sample.GuessContacts (mkMessages smss [])).1.1
  ∧ (Sample.GuessContacts (mkMessages smss [mms])).1.2 = None
  ∧ (Sample.GuessContacts (mkMessages smss [mms])).2
    = [ "Warning: mms has 1 numbers, but 2 contact names. A contact probably has a comma";
        "rawNumsList: [5550199]"; "contactNames: [Doe Jane]" ].
Proof.
  intros smss mms.
  assert (Hlen : length (strings.Split (mms_Address mms) "~")
                 ≠ length (strings.Split (id (mms_ContactName mms)) ","))
    by (vm_compute; lia).
  split; [exact Hlen|].
  destruct (GuessContacts_skips_unpaired_mms Sample.digits_only id Sample.trim_blanks
              smss [] [] mms Hlen) as (Hmap & Herr & _).
  split_and!; [exact Hmap | exact Herr | reflexivity].
Defined.

(** What the second loop does with an MMS whose lists pair up: nothing. *)
Lemma guess_mms_paired {SMSMessageType SMSStatus ReadStatus BoolValue AddressType : Type}
    (RemoveCommasBeforeSuffixes TrimSpace : string → string)
    (st : GuessState) (mms : MMS ReadStatus BoolValue AddressType) :
  length (strings.Split (mms_Address mms) "~")
    = length (strings.Split (RemoveCommasBeforeSuffixes (mms_ContactName mms)) ",") →
  guess_mms RemoveCommasBeforeSuffixes TrimSpace st mms = st.
Proof.
  intros Hlen. unfold guess_mms. rewrite length_map.
  by rewrite decide_False by (intros Hne; apply Hne, Hlen).
Qed.

(** C2 (the code falls short of the claim). An MMS with two addresses and
    two contact names, so that the lists pair up, leaves the returned map
    empty: neither number is merged, and nothing is logged. *)
Theorem GuessContacts_paired_mms_not_merged :
  let mms := Sample.mms "5550100~5550199" "Alice, Bob" [] in
  strings.Split (mms_Address mms) "~" = ["5550100"; "5550199"]
  ∧ map Sample.trim_blanks (strings.Split (id (mms_ContactName mms)) ",")
    = ["Alice"; "Bob"]
  ∧ Sample.GuessContacts (mkMessages [] [mms]) = (∅, None, []).
Proof. split_and!; reflexivity. Qed.

(** ** Decoder set-up *)


(** The constructors install no handler: the panic above is what a
    freshly built decoder meets when decoding starts. *)
Lemma NewMessageDecoder_no_handlers {SMS MMS H : Type}
    (stream : list xml.Token) (d : @MessageDecoder SMS MMS H) :
  NewMessageDecoder stream = Some (inl d) → OnSMS d = None ∧ OnMMS d = None.
Proof.
  unfold NewMessageDecoder.
  destruct (findElem _ _ _) as [[[root|err] decoder]|]; [|discriminate..].
  intros [= <-]. done.
Qed.

(** ** The relational sink's treatment of optional text *)

Lemma strOrNil_None (s : string) : strOrNil s = None ↔ s = "" ∨ s = "null".
Proof.
  unfold strOrNil. case_decide as Hs; split; [done | done | discriminate | tauto].
Qed.

Lemma strOrNil_Some (s : string) : ¬ (s = "" ∨ s = "null") → strOrNil s = Some s.
Proof. intros Hs. unfold strOrNil. by rewrite decide_False. Qed.

Ltac unfold_onSms := unfold onSms.

Section RelationalSinkProperties.

Context {SMSMessageType SMSStatus ReadStatus BoolValue : Type}.
Local Abbreviation SMS := (SMS SMSMessageType SMSStatus ReadStatus BoolValue).

Variable PhoneNumber_String : PhoneNumber → string.
Variable SMSMessageType_String : SMSMessageType → string.
Variable SMSStatus_String : SMSStatus → string.
Variable ReadStatus_String : ReadStatus → string.
Variable driver_error : Tables BoolValue → Stmt → list (SqlArg BoolValue) → option error.

Local Abbreviation onSms :=
  (onSms PhoneNumber_String SMSMessageType_String SMSStatus_String
     ReadStatus_String driver_error).


End RelationalSinkProperties.


(** ** The transaction of the sqlite driver *)

Section DriverProperties.

Context {SMSMessageType SMSStatus ReadStatus BoolValue AddressType : Type}.
Local Abbreviation SMS := (SMS SMSMessageType SMSStatus ReadStatus BoolValue).
Local Abbreviation MMS := (MMS ReadStatus BoolValue AddressType).

Variable PhoneNumber_String : PhoneNumber → string.
Variable SMSMessageType_String : SMSMessageType → string.
Variable SMSStatus_String : SMSStatus → string.
Variable ReadStatus_String : ReadStatus → string.
Variable AddressType_String : AddressType → string.
Variable unmarshalSMS : xml.StartElement → list xml.Token → SMS + error.
Variable unmarshalMMS : xml.StartElement → list xml.Token → MMS + error.
Variable json_Marshal : list AddressInfo → string + error.
Variable base64_DecodeString : string → string + error.
Variable driver_error : Tables BoolValue → Stmt → list (SqlArg BoolValue) → option error.

Local Abbreviation sbrparser :=
  (main PhoneNumber_String SMSMessageType_String SMSStatus_String ReadStatus_String
     AddressType_String unmarshalSMS unmarshalMMS json_Marshal base64_DecodeString
     driver_error).
Local Abbreviation handle :=
  (handleFile PhoneNumber_String SMSMessageType_String SMSStatus_String
     ReadStatus_String AddressType_String unmarshalSMS unmarshalMMS json_Marshal
     base64_DecodeString driver_error).

(** The deferred [Close] does roll back when [main] returns from inside
    its loop: a path that [os.Stat] rejects leaves the store as it was. *)
Lemma main_bad_path_rolls_back (fs : FileSystem) (store : Tables BoolValue)
    (xmlFilePath : string) (args : list string) :
  Stat fs xmlFilePath = None →
  sbrparser fs store (xmlFilePath :: args)
  = Some (store, [("Error with path to XML file", None)]).
Proof. intros Hstat. unfold main. simpl. by rewrite Hstat. Qed.

(** When the only file fails in [handleFile], [main] prints the error and
    commits all the same: the store becomes whatever the transaction held
    at the moment of the failure. *)
Lemma main_commits_after_failed_file (fs : FileSystem) (store view : Tables BoolValue)
    (xmlFilePath : string) (err : error) (out : StreamingOutput BoolValue) :
  Stat fs xmlFilePath = Some false →
  handle fs xmlFilePath (NewStreamingOutput store) = Some (Return (Some err), out) →
  tx out = Some view →
  sbrparser fs store [xmlFilePath]
  = Some (view, [("Error handling file", Some err)]).
Proof.
  intros Hstat Hhandle Htx. unfold main. simpl.
  rewrite Hstat, Hhandle. unfold Commit. by rewrite Htx.
Qed.

End DriverProperties.

(** C5 (the code falls short of the claim). One backup file that holds
    two complete messages and then breaks off, imported into an empty
    store: the decoder reports the syntax error, [main] prints it, and the
    commit that follows makes the two rows of the failed file permanent. *)
Theorem main_commits_partial_file :
  ∃ row1 row2,
    Sample.main Sample.empty_store ["sms-20180213135542.xml"]
    = Some ({| sms_table := [row1; row2]; mms_table := []; mms_parts_table := [] |},
            [("Error handling file",
              Some (Errorf "unable to find sms or mms element"
                      (SyntaxError "unexpected EOF")))])
    ∧ row1 !! 1 = Some (ArgString "5550100")
    ∧ row2 !! 1 = Some (ArgString "5550199").
Proof. do 2 eexists. split_and!; [vm_compute; reflexivity | reflexivity..]. Qed.

(** ** The SMS flat-file sink *)

Lemma wrap64_small (z : Z) : (- 2 ^ 63 ≤ z < 2 ^ 63)%Z → wrap64 z = z.
Proof. intros Hz. unfold wrap64. rewrite Z.mod_small; lia. Qed.

Lemma wrap64_succ (z : Z) : wrap64 (wrap64 z + 1) = wrap64 (z + 1).
Proof.
  unfold wrap64.
  replace ((z + 2 ^ 63) `mod` 2 ^ 64 - 2 ^ 63 + 1 + 2 ^ 63)%Z
    with ((z + 2 ^ 63) `mod` 2 ^ 64 + 1)%Z by lia.
  replace (z + 1 + 2 ^ 63)%Z with ((z + 2 ^ 63) + 1)%Z by lia.
  by rewrite Zplus_mod_idemp_l.
Qed.

Ltac unfold_flat_file :=
  cbn [write_all];
  unfold GenerateSMSOutput, NewSMSOutput, SMSOutput_Write, fmt.Fprintln, Write,
    chunk_writer.

Section FlatFileProperties.

Context {SMSMessageType SMSStatus ReadStatus BoolValue : Type}.
Local Abbreviation SMS := (SMS SMSMessageType SMSStatus ReadStatus BoolValue).

Variable PhoneNumber_String : PhoneNumber → string.
Variable SMSMessageType_String : SMSMessageType → string.
Variable SMSStatus_String : SMSStatus → string.
Variable ReadStatus_String : ReadStatus → string.
Variable AndroidTS_String : AndroidTS → string.
Variable BoolValue_String : BoolValue → string.
Variable CleanupMessageBody : string → string.
Variable RemoveCommasBeforeSuffixes : string → string.

Local Abbreviation sms_row :=
  (sms_row PhoneNumber_String SMSMessageType_String SMSStatus_String
     ReadStatus_String AndroidTS_String BoolValue_String CleanupMessageBody
     RemoveCommasBeforeSuffixes).
Local Abbreviation write_all :=
  (write_all (W:=list string) PhoneNumber_String SMSMessageType_String
     SMSStatus_String ReadStatus_String AndroidTS_String BoolValue_String
     CleanupMessageBody RemoveCommasBeforeSuffixes).
Local Abbreviation GenerateSMSOutput :=
  (GenerateSMSOutput (W:=list string) PhoneNumber_String SMSMessageType_String
     SMSStatus_String ReadStatus_String AndroidTS_String BoolValue_String
     CleanupMessageBody RemoveCommasBeforeSuffixes).

(** Writing [l] when [k] records went before: one chunk per record, the
    counter (modulo overflow) in front. *)
Lemma write_all_chunks (l : list SMS) (k : nat) (f : list string) :
  write_all {| out_f := f; out_idx := wrap64 (Z.of_nat k) |} l
  = (None,
     {| out_f := f ++ imap (λ i sms,
                    strings.Join (sms_row (wrap64 (Z.of_nat (k + i))) sms) tab
                    +:+ newline) l;
        out_idx := wrap64 (Z.of_nat (k + length l)) |}).
Proof.
  revert k f. induction l as [|sms l IH]; intros k f.
  - simpl. by rewrite app_nil_r, Nat.add_0_r.
  - unfold_flat_file. cbn [out_f out_idx].
    rewrite wrap64_succ.
    replace (Z.of_nat k + 1)%Z with (Z.of_nat (S k)) by lia.
    rewrite IH. rewrite imap_cons. rewrite <- app_assoc. cbn [app].
    rewrite Nat.add_0_r. f_equal. f_equal.
    + f_equal. f_equal. apply imap_ext. intros i x _. unfold compose.
      by replace (k + S i) with (S k + i) by lia.
    + f_equal. f_equal. simpl. lia.
Qed.

(** C7. Through one [SMSOutput] the writer receives the header line once,
    first, and then one line per record: the [i]-th record (from 0) gives
    the decimal rendering of [i] followed by protocol, address, type,
    subject, body, service centre, status, read, date, locked, date sent,
    readable date and contact name, tab-separated. The counter is a Go
    [int], so the statement is for at most 2^63 records. *)
Theorem SMSOutput_header_then_indexed_rows (records : list SMS) :
  (Z.of_nat (length records) ≤ 2 ^ 63)%Z →
  GenerateSMSOutput [] records
  = (None,
     (strings.Join
        [ "SMS Index #"; "Protocol"; "Address"; "Type"; "Subject"; "Body";
          "Service Center"; "Status"; "Read"; "Date"; "Locked"; "Date Sent";
          "Readable Date"; "Contact Name" ] tab +:+ newline)
     :: imap (λ i sms,
          strings.Join
            [ strconv.Itoa (Z.of_nat i);
              sms_Protocol sms;
              PhoneNumber_String (sms_Address sms);
              SMSMessageType_String (sms_Type sms);
              sms_Subject sms;
              CleanupMessageBody (sms_Body sms);
              PhoneNumber_String (sms_ServiceCenter sms);
              SMSStatus_String (sms_Status sms);
              ReadStatus_String (sms_Read sms);
              AndroidTS_String (sms_Date sms);
              BoolValue_String (sms_Locked sms);
              AndroidTS_String (sms_DateSent sms);
              sms_ReadableDate sms;
              RemoveCommasBeforeSuffixes (sms_ContactName sms) ] tab
          +:+ newline) records).
Proof.
  intros Hlen. unfold GenerateSMSOutput, NewSMSOutput, fmt.Fprintln, Write.
  unfold chunk_writer at 1. cbn [app].
  pose proof (write_all_chunks records 0
                [strings.Join sms_headers tab +:+ newline]) as Hall.
  rewrite wrap64_small in Hall by (simpl; lia).
  change (Z.of_nat 0) with 0%Z in Hall. rewrite Hall. cbn [out_f app].
  f_equal. f_equal. apply imap_ext. intros i sms Hi.
  apply lookup_lt_Some in Hi. cbn [Nat.add].
  rewrite wrap64_small by lia. reflexivity.
Qed.

End FlatFileProperties.

Lemma SMSOutput_header_then_indexed_rows_witness :
  let records := [Sample.sms "5550100" "Alice"; Sample.sms "5550199" "Bob"] in
  (Z.of_nat (length records) ≤ 2 ^ 63)%Z
  ∧ ∃ header row0 row1,
      Sample.GenerateSMSOutput records = (None, [header; row0; row1])
      ∧ strings.HasPrefix row0 ("0" +:+ tab +:+ "0" +:+ tab +:+ "5550100") = true
      ∧ strings.HasPrefix row1 ("1" +:+ tab +:+ "0" +:+ tab +:+ "5550199") = true.
Proof.
  intros records.
  assert (Hlen : (Z.of_nat (length records) ≤ 2 ^ 63)%Z) by (simpl; lia).
  split; [exact Hlen|].
  pose proof (SMSOutput_header_then_indexed_rows id Sample.unit_String
                Sample.unit_String Sample.unit_String id Sample.unit_String id id
                records Hlen) as Hrows.
  do 3 eexists. split; [exact Hrows|]. split; reflexivity.
Defined.

(** ** The decoder: fuel, trees, and the order of emission *)

Lemma Decoder_Token_inl (d d' : xml.Decoder) (t : xml.Token) :
  xml.Decoder_Token d = (inl t, d') →
  length (xml.input d) = S (length (xml.input d')).
Proof.
  unfold xml.Decoder_Token. destruct d as [[|t0 rest] stk]; simpl.
  - destruct stk; discriminate.
  - destruct t0; try (intros [= <- <-]; reflexivity); try discriminate.
    destruct stk as [|open stk']; [discriminate|].
    case_decide; [|discriminate]. intros [= <- <-]. reflexivity.
Qed.

Lemma Decoder_Token_inr (d d' : xml.Decoder) (err : error) :
  xml.Decoder_Token d = (inr err, d') →
  length (xml.input d') ≤ length (xml.input d).
Proof.
  unfold xml.Decoder_Token. destruct d as [[|t0 rest] stk]; simpl.
  - destruct stk; intros [= <- <-]; reflexivity.
  - destruct t0; try discriminate; try (intros [= <- <-]; simpl; lia).
    destruct stk as [|open stk']; [intros [= <- <-]; simpl; lia|].
    case_decide; [discriminate|]. intros [= <- <-]. simpl. lia.
Qed.

Lemma Skip_loop_mono (fuel fuel' depth : nat) (d : xml.Decoder) r :
  xml.Skip_loop fuel depth d = Some r → fuel ≤ fuel' →
  xml.Skip_loop fuel' depth d = Some r.
Proof.
  revert fuel' depth d. induction fuel as [|fuel IH]; intros fuel' depth d;
    [discriminate|].
  destruct fuel' as [|fuel']; [lia|]. intros Hrun Hle. simpl in *.
  destruct (xml.Decoder_Token d) as [[tok|err] d1]; [|assumption].
  destruct tok; try (apply IH; [assumption | lia]).
  destruct depth; [assumption | apply IH; [assumption | lia]].
Qed.

Lemma Skip_loop_total (fuel depth : nat) (d : xml.Decoder) :
  length (xml.input d) < fuel →
  ∃ r d', xml.Skip_loop fuel depth d = Some (r, d')
          ∧ length (xml.input d') ≤ length (xml.input d).
Proof.
  revert depth d. induction fuel as [|fuel IH]; intros depth d Hlen; [lia|].
  simpl. destruct (xml.Decoder_Token d) as [[tok|err] d1] eqn:Htok.
  - apply Decoder_Token_inl in Htok.
    assert (Hrec : ∀ depth', ∃ r d',
               xml.Skip_loop fuel depth' d1 = Some (r, d')
               ∧ length (xml.input d') ≤ length (xml.input d)).
    { intros depth'. destruct (IH depth' d1) as (r & d' & Hrun & Hle); [lia|].
      exists r, d'. split; [assumption | lia]. }
    destruct tok; try apply Hrec.
    destruct depth; [|apply Hrec].
    eexists _, _. split; [reflexivity | lia].
  - apply Decoder_Token_inr in Htok. eexists _, _. split; [reflexivity | lia].
Qed.

Lemma Skip_loop_fuel (fuel fuel' depth : nat) (d : xml.Decoder) :
  length (xml.input d) < fuel → length (xml.input d) < fuel' →
  xml.Skip_loop fuel depth d = xml.Skip_loop fuel' depth d.
Proof.
  intros Hf Hf'.
  destruct (Skip_loop_total (S (length (xml.input d))) depth d) as (r & d' & Hrun & _);
    [lia|].
  rewrite (Skip_loop_mono _ fuel _ _ _ Hrun) by lia.
  by rewrite (Skip_loop_mono _ fuel' _ _ _ Hrun) by lia.
Qed.

Lemma read_subtree_mono (fuel fuel' depth : nat) (acc : list xml.Token)
    (d : xml.Decoder) r :
  xml.read_subtree fuel depth acc d = Some r → fuel ≤ fuel' →
  xml.read_subtree fuel' depth acc d = Some r.
Proof.
  revert fuel' depth acc d. induction fuel as [|fuel IH]; intros fuel' depth acc d;
    [discriminate|].
  destruct fuel' as [|fuel']; [lia|]. intros Hrun Hle. simpl in *.
  destruct (xml.Decoder_Token d) as [[tok|err] d1]; [|assumption].
  destruct tok; try (apply IH; [assumption | lia]).
  destruct depth; [assumption | apply IH; [assumption | lia]].
Qed.

Lemma read_subtree_total (fuel depth : nat) (acc : list xml.Token) (d : xml.Decoder) :
  length (xml.input d) < fuel →
  ∃ r d', xml.read_subtree fuel depth acc d = Some (r, d')
          ∧ length (xml.input d') ≤ length (xml.input d).
Proof.
  revert depth acc d. induction fuel as [|fuel IH]; intros depth acc d Hlen; [lia|].
  simpl. destruct (xml.Decoder_Token d) as [[tok|err] d1] eqn:Htok.
  - apply Decoder_Token_inl in Htok.
    assert (Hrec : ∀ depth' acc', ∃ r d',
               xml.read_subtree fuel depth' acc' d1 = Some (r, d')
               ∧ length (xml.input d') ≤ length (xml.input d)).
    { intros depth' acc'.
      destruct (IH depth' acc' d1) as (r & d' & Hrun & Hle); [lia|].
      exists r, d'. split; [assumption | lia]. }
    destruct tok; try apply Hrec.
    destruct depth; [|apply Hrec].
    eexists _, _. split; [reflexivity | lia].
  - apply Decoder_Token_inr in Htok. eexists _, _. split; [reflexivity | lia].
Qed.

Lemma read_subtree_fuel (fuel fuel' depth : nat) (acc : list xml.Token)
    (d : xml.Decoder) :
  length (xml.input d) < fuel → length (xml.input d) < fuel' →
  xml.read_subtree fuel depth acc d = xml.read_subtree fuel' depth acc d.
Proof.
  intros Hf Hf'.
  destruct (read_subtree_total (S (length (xml.input d))) depth acc d)
    as (r & d' & Hrun & _); [lia|].
  rewrite (read_subtree_mono _ fuel _ _ _ _ Hrun) by lia.
  by rewrite (read_subtree_mono _ fuel' _ _ _ _ Hrun) by lia.
Qed.

Lemma DecodeElement_mono {V : Type}
    (unmarshal : xml.StartElement → list xml.Token → V + error)
    (fuel fuel' : nat) (start : xml.StartElement) (d : xml.Decoder) r :
  xml.Decoder_DecodeElement unmarshal fuel start d = Some r → fuel ≤ fuel' →
  xml.Decoder_DecodeElement unmarshal fuel' start d = Some r.
Proof.
  unfold xml.Decoder_DecodeElement. intros Hrun Hle.
  destruct (xml.read_subtree fuel 0 [] d) as [sub|] eqn:Hsub; [|discriminate].
  by rewrite (read_subtree_mono _ fuel' _ _ _ _ Hsub Hle).
Qed.

Lemma DecodeElement_total {V : Type}
    (unmarshal : xml.StartElement → list xml.Token → V + error)
    (fuel : nat) (start : xml.StartElement) (d : xml.Decoder) :
  length (xml.input d) < fuel →
  ∃ r d', xml.Decoder_DecodeElement unmarshal fuel start d = Some (r, d')
          ∧ length (xml.input d') ≤ length (xml.input d).
Proof.
  intros Hlen. unfold xml.Decoder_DecodeElement.
  destruct (read_subtree_total fuel 0 [] d Hlen) as ([content|err] & d' & -> & Hle);
    eexists _, _; (split; [reflexivity | assumption]).
Qed.

Lemma findElem_mono (fuel fuel' : nat) (d : xml.Decoder) (names : list string) r :
  findElem fuel d names = Some r → fuel ≤ fuel' →
  findElem fuel' d names = Some r.
Proof.
  revert fuel' d. induction fuel as [|fuel IH]; intros fuel' d; [discriminate|].
  destruct fuel' as [|fuel']; [lia|]. intros Hrun Hle. simpl in *.
  destruct (xml.Decoder_Token d) as [[tok|err] d1]; [|assumption].
  destruct tok; try (apply IH; [assumption | lia]).
  case_decide; [assumption|]. unfold xml.Decoder_Skip in *.
  destruct (xml.Skip_loop fuel 0 d1) as [[skipped d2]|] eqn:Hskip; [|discriminate].
  rewrite (Skip_loop_mono _ fuel' _ _ _ Hskip) by lia.
  destruct skipped; [assumption|]. apply IH; [assumption | lia].
Qed.

Lemma findElem_total (fuel : nat) (d : xml.Decoder) (names : list string) :
  length (xml.input d) < fuel →
  ∃ r d', findElem fuel d names = Some (r, d')
          ∧ match r with
            | inl _ => length (xml.input d') < length (xml.input d)
            | inr _ => length (xml.input d') ≤ length (xml.input d)
            end.
Proof.
  revert d. induction fuel as [|fuel IH]; intros d Hlen; [lia|].
  simpl. destruct (xml.Decoder_Token d) as [[tok|err] d1] eqn:Htok.
  - apply Decoder_Token_inl in Htok.
    assert (Hrec : ∀ d2, length (xml.input d2) ≤ length (xml.input d1) →
               ∃ r d', findElem fuel d2 names = Some (r, d')
                 ∧ match r with
                   | inl _ => length (xml.input d') < length (xml.input d)
                   | inr _ => length (xml.input d') ≤ length (xml.input d)
                   end).
    { intros d2 Hd2. destruct (IH d2) as (r & d' & Hrun & Hle); [lia|].
      exists r, d'. split; [assumption|]. destruct r; lia. }
    destruct tok; try (apply Hrec; lia).
    case_decide.
    + eexists _, _. split; [reflexivity|]. simpl. lia.
    + unfold xml.Decoder_Skip.
      destruct (Skip_loop_total fuel 0 d1) as ([err|] & d2 & -> & Hle); [lia| |].
      * eexists _, _. split; [reflexivity|]. simpl. lia.
      * by apply Hrec.
  - apply Decoder_Token_inr in Htok. eexists _, _. split; [reflexivity|]. simpl. lia.
Qed.

Lemma findElem_fuel (fuel fuel' : nat) (d : xml.Decoder) (names : list string) :
  length (xml.input d) < fuel → length (xml.input d) < fuel' →
  findElem fuel d names = findElem fuel' d names.
Proof.
  intros Hf Hf'.
  destruct (findElem_total (S (length (xml.input d))) d names) as (r & d' & Hrun & _);
    [lia|].
  rewrite (findElem_mono _ fuel _ _ _ Hrun) by lia.
  by rewrite (findElem_mono _ fuel' _ _ _ Hrun) by lia.
Qed.

(** The constructors come to an end on every input. *)
Lemma NewMessageDecoder_total {SMS MMS H : Type} (stream : list xml.Token) :
  ∃ r, @NewMessageDecoder SMS MMS H stream = Some r.
Proof.
  unfold NewMessageDecoder.
  destruct (findElem_total (fuel_for (xml.NewDecoder stream)) (xml.NewDecoder stream)
              ["smses"]) as ([root|err] & d & -> & _);
    [unfold fuel_for; lia | eexists; reflexivity..].
Qed.

Lemma NewCallDecoder_total {Call H : Type} (stream : list xml.Token) :
  ∃ r, @NewCallDecoder Call H stream = Some r.
Proof.
  unfold NewCallDecoder.
  destruct (findElem_total (fuel_for (xml.NewDecoder stream)) (xml.NewDecoder stream)
              ["calls"]) as ([root|err] & d & -> & _);
    [unfold fuel_for; lia | eexists; reflexivity..].
Qed.

(** Induction on nodes, with the hypothesis for every child of an element. *)
Lemma Node_nested_ind (P : Node → Prop) :
  (∀ se children, Forall P children → P (Element se children)) →
  (∀ data, P (Text data)) →
  (∀ data, P (CommentNode data)) →
  (∀ target inst, P (Instruction target inst)) →
  (∀ data, P (DirectiveNode data)) →
  ∀ n, P n.
Proof.
  intros HElement HText HComment HInstruction HDirective.
  fix IH 1.
  intros [se children|data|data|target inst|data];
    [|apply HText | apply HComment | apply HInstruction | apply HDirective].
  apply HElement. induction children as [|c children IHchildren]; constructor.
  - apply IH.
  - apply IHchildren.
Qed.

Lemma tokens_of_cons (n : Node) (nodes : list Node) :
  tokens_of (n :: nodes) = tokens n ++ tokens_of nodes.
Proof. reflexivity. Qed.

Lemma tokens_Element (se : xml.StartElement) (children : list Node)
    (rest : list xml.Token) :
  tokens (Element se children) ++ rest
  = xml.StartElementT se
      :: tokens_of children ++ xml.EndElement (xml.Name_Local se) :: rest.
Proof. simpl. unfold tokens_of. by rewrite <- app_assoc. Qed.

(** Reading on inside a subtree passes over whole nodes, keeping them. *)
Lemma read_subtree_node (n : Node) :
  ∀ depth acc rest stk fuel,
    length (tokens n ++ rest) < fuel →
    xml.read_subtree fuel depth acc {| xml.input := tokens n ++ rest; xml.stk := stk |}
    = xml.read_subtree fuel depth (acc ++ tokens n)
        {| xml.input := rest; xml.stk := stk |}.
Proof.
  induction n as [se children IH|data|data|target inst|data] using Node_nested_ind;
    intros depth acc rest stk fuel Hlen.
  2-5: destruct fuel as [|fuel]; [simpl in Hlen; lia|];
       rewrite (read_subtree_fuel (S fuel) fuel depth (acc ++ _)
                  {| xml.input := rest; xml.stk := stk |})
         by (simpl in *; lia);
       reflexivity.
  assert (Hchildren : ∀ depth acc rest stk fuel,
            length (tokens_of children ++ rest) < fuel →
            xml.read_subtree fuel depth acc
              {| xml.input := tokens_of children ++ rest; xml.stk := stk |}
            = xml.read_subtree fuel depth (acc ++ tokens_of children)
                {| xml.input := rest; xml.stk := stk |}).
  { clear Hlen depth acc rest stk fuel.
    induction IH as [|c children Hc _ IHchildren]; intros depth acc rest stk fuel Hlen.
    - simpl. by rewrite app_nil_r.
    - rewrite tokens_of_cons, <- app_assoc in *.
      rewrite Hc by assumption.
      rewrite IHchildren by (rewrite length_app in Hlen; lia).
      by rewrite <- app_assoc. }
  rewrite tokens_Element in Hlen. simpl in Hlen. rewrite length_app in Hlen.
  simpl in Hlen.
  rewrite (read_subtree_fuel fuel (pred (pred fuel)) depth (acc ++ _)
             {| xml.input := rest; xml.stk := stk |}) by (simpl; lia).
  rewrite tokens_Element.
  destruct fuel as [|fuel]; [lia|]. cbn [xml.read_subtree xml.Decoder_Token xml.input xml.stk].
  rewrite Hchildren by (rewrite length_app; simpl; lia).
  destruct fuel as [|fuel]; [lia|]. cbn [xml.read_subtree xml.Decoder_Token xml.input xml.stk].
  rewrite decide_True by reflexivity. cbn [pred].
  f_equal. simpl. unfold tokens_of. by rewrite <- !app_assoc.
Qed.

Lemma read_subtree_nodes (nodes : list Node) :
  ∀ depth acc rest stk fuel,
    length (tokens_of nodes ++ rest) < fuel →
    xml.read_subtree fuel depth acc
      {| xml.input := tokens_of nodes ++ rest; xml.stk := stk |}
    = xml.read_subtree fuel depth (acc ++ tokens_of nodes)
        {| xml.input := rest; xml.stk := stk |}.
Proof.
  induction nodes as [|n nodes IH]; intros depth acc rest stk fuel Hlen.
  - simpl. by rewrite app_nil_r.
  - rewrite tokens_of_cons, <- app_assoc in *.
    rewrite read_subtree_node by assumption.
    rewrite IH by (rewrite length_app in Hlen; lia).
    by rewrite <- app_assoc.
Qed.

(** [Skip] is [read_subtree] that forgets what it read. *)
Lemma Skip_loop_read_subtree (fuel depth : nat) (acc : list xml.Token)
    (d : xml.Decoder) :
  xml.Skip_loop fuel depth d
  = match xml.read_subtree fuel depth acc d with
    | None => None
    | Some (inl _, d') => Some (None, d')
    | Some (inr err, d') => Some (Some err, d')
    end.
Proof.
  revert depth acc d. induction fuel as [|fuel IH]; intros depth acc d; [reflexivity|].
  simpl. destruct (xml.Decoder_Token d) as [[tok|err] d1]; [|reflexivity].
  destruct tok; try apply IH. destruct depth; [reflexivity | apply IH].
Qed.

(** The content of an element whose start was just read, up to and
    including its end element. *)
Lemma read_subtree_content (name : string) (children : list Node)
    (rest : list xml.Token) (stk : list string) (fuel : nat) :
  length (tokens_of children ++ xml.EndElement name :: rest) < fuel →
  xml.read_subtree fuel 0 []
    {| xml.input := tokens_of children ++ xml.EndElement name :: rest;
       xml.stk := name :: stk |}
  = Some (inl (tokens_of children), {| xml.input := rest; xml.stk := stk |}).
Proof.
  intros Hlen. rewrite read_subtree_nodes by assumption.
  rewrite length_app in Hlen. simpl in Hlen.
  destruct fuel as [|fuel]; [lia|].
  cbn [xml.read_subtree xml.Decoder_Token xml.input xml.stk].
  by rewrite decide_True by reflexivity.
Qed.

Lemma Skip_content (name : string) (children : list Node)
    (rest : list xml.Token) (stk : list string) (fuel : nat) :
  length (tokens_of children ++ xml.EndElement name :: rest) < fuel →
  xml.Decoder_Skip fuel
    {| xml.input := tokens_of children ++ xml.EndElement name :: rest;
       xml.stk := name :: stk |}
  = Some (None, {| xml.input := rest; xml.stk := stk |}).
Proof.
  intros Hlen. unfold xml.Decoder_Skip.
  rewrite (Skip_loop_read_subtree _ _ []).
  by rewrite read_subtree_content by assumption.
Qed.

Lemma DecodeElement_content {V : Type}
    (unmarshal : xml.StartElement → list xml.Token → V + error)
    (se : xml.StartElement) (name : string) (children : list Node)
    (rest : list xml.Token) (stk : list string) (fuel : nat) :
  length (tokens_of children ++ xml.EndElement name :: rest) < fuel →
  xml.Decoder_DecodeElement unmarshal fuel se
    {| xml.input := tokens_of children ++ xml.EndElement name :: rest;
       xml.stk := name :: stk |}
  = Some (unmarshal se (tokens_of children),
          {| xml.input := rest; xml.stk := stk |}).
Proof.
  intros Hlen. unfold xml.Decoder_DecodeElement.
  by rewrite read_subtree_content by assumption.
Qed.

(** [findElem] passes over every node that is not an element it looks for. *)
Lemma findElem_skips_node (names : list string) (n : Node)
    (rest : list xml.Token) (stk : list string) (fuel : nat) :
  named names n = false →
  length (tokens n ++ rest) < fuel →
  findElem fuel {| xml.input := tokens n ++ rest; xml.stk := stk |} names
  = findElem fuel {| xml.input := rest; xml.stk := stk |} names.
Proof.
  intros Hnamed Hlen.
  destruct n as [se children|data|data|target inst|data].
  2-5: destruct fuel as [|fuel]; [simpl in Hlen; lia|];
       rewrite (findElem_fuel (S fuel) fuel {| xml.input := rest; xml.stk := stk |})
         by (simpl in *; lia);
       reflexivity.
  simpl in Hnamed. apply bool_decide_eq_false in Hnamed.
  rewrite tokens_Element in *. simpl in Hlen. rewrite length_app in Hlen.
  simpl in Hlen.
  rewrite (findElem_fuel fuel (pred fuel) {| xml.input := rest; xml.stk := stk |})
    by (simpl; lia).
  destruct fuel as [|fuel]; [lia|].
  cbn [findElem xml.Decoder_Token xml.input xml.stk pred].
  rewrite decide_False by (by rewrite elem_of_list_to_set).
  by rewrite Skip_content by (rewrite length_app; simpl; lia).
Qed.

Lemma findElem_skips_nodes (names : list string) (nodes : list Node)
    (rest : list xml.Token) (stk : list string) (fuel : nat) :
  Forall (λ n, named names n = false) nodes →
  length (tokens_of nodes ++ rest) < fuel →
  findElem fuel {| xml.input := tokens_of nodes ++ rest; xml.stk := stk |} names
  = findElem fuel {| xml.input := rest; xml.stk := stk |} names.
Proof.
  intros Hnodes. induction Hnodes as [|n nodes Hn _ IH]; intros Hlen; [reflexivity|].
  rewrite tokens_of_cons, <- app_assoc in *.
  rewrite findElem_skips_node by assumption.
  apply IH. rewrite length_app in Hlen. lia.
Qed.

Lemma findElem_finds (names : list string) (se : xml.StartElement)
    (rest : list xml.Token) (stk : list string) (fuel : nat) :
  xml.Name_Local se ∈ names →
  findElem (S fuel) {| xml.input := xml.StartElementT se :: rest; xml.stk := stk |} names
  = Some (inl se, {| xml.input := rest; xml.stk := xml.Name_Local se :: stk |}).
Proof.
  intros Hin. cbn [findElem xml.Decoder_Token xml.input xml.stk].
  by rewrite decide_True by (by rewrite elem_of_list_to_set).
Qed.

(** At the end element of the root, with nothing but passed-over nodes
    behind it, [findElem] meets the clean end of the input. *)
Lemma findElem_end_of_document (names : list string) (root : string)
    (epilogue : list Node) (fuel : nat) :
  Forall (λ n, named names n = false) epilogue →
  S (length (tokens_of epilogue)) < fuel →
  ∃ d, findElem fuel
         {| xml.input := xml.EndElement root :: tokens_of epilogue;
            xml.stk := [root] |} names
       = Some (inr EOF, d).
Proof.
  intros Hepilogue Hlen. destruct fuel as [|fuel]; [lia|].
  cbn [findElem xml.Decoder_Token xml.input xml.stk].
  rewrite decide_True by reflexivity.
  rewrite <- (app_nil_r (tokens_of epilogue)).
  rewrite findElem_skips_nodes by (rewrite ?app_nil_r; assumption || lia).
  destruct fuel as [|fuel]; [lia|]. eexists. reflexivity.
Qed.

Section DecodeProperties.

Context {SMS MMS H : Type}.
Variable unmarshalSMS : xml.StartElement → list xml.Token → SMS + error.
Variable unmarshalMMS : xml.StartElement → list xml.Token → MMS + error.

Local Abbreviation Decode_loop := (MessageDecoder_loop (H:=H) unmarshalSMS unmarshalMMS).
Local Abbreviation Decode := (MessageDecoder_Decode (H:=H) unmarshalSMS unmarshalMMS).
Local Abbreviation dispatched := (dispatch (H:=H) unmarshalSMS unmarshalMMS).

Lemma MessageDecoder_loop_mono (fuel fuel' : nat) onSMS onMMS (d : xml.Decoder) (h : H) r :
  Decode_loop fuel onSMS onMMS d h = Some r → fuel ≤ fuel' →
  Decode_loop fuel' onSMS onMMS d h = Some r.
Proof.
  revert fuel' d h. induction fuel as [|fuel IH]; intros fuel' d h; [discriminate|].
  destruct fuel' as [|fuel']; [lia|]. intros Hrun Hle.
  cbn [MessageDecoder_loop] in *.
  destruct (findElem fuel d _) as [[[child|err] d1]|] eqn:Hfind; [| |discriminate];
    rewrite (findElem_mono _ fuel' _ _ _ Hfind) by lia; [|assumption].
  unfold xml.Decoder_Skip in *.
  repeat case_decide; try assumption.
  - destruct onSMS as [OnSMS|].
    + destruct (xml.Decoder_DecodeElement unmarshalSMS fuel child d1)
        as [[[sms|err] d2]|] eqn:Hdec; [| |discriminate];
        rewrite (DecodeElement_mono _ _ fuel' _ _ _ Hdec) by lia; [|assumption].
      destruct (OnSMS sms h) as [[err|] h']; [assumption|].
      apply IH; [assumption | lia].
    + destruct (xml.Skip_loop fuel 0 d1) as [[[err|] d2]|] eqn:Hskip; [| |discriminate];
        rewrite (Skip_loop_mono _ fuel' _ _ _ Hskip) by lia; [assumption|].
      apply IH; [assumption | lia].
  - destruct onMMS as [OnMMS|].
    + destruct (xml.Decoder_DecodeElement unmarshalMMS fuel child d1)
        as [[[mms|err] d2]|] eqn:Hdec; [| |discriminate];
        rewrite (DecodeElement_mono _ _ fuel' _ _ _ Hdec) by lia; [|assumption].
      destruct (OnMMS mms h) as [[err|] h']; [assumption|].
      apply IH; [assumption | lia].
    + destruct (xml.Skip_loop fuel 0 d1) as [[[err|] d2]|] eqn:Hskip; [| |discriminate];
        rewrite (Skip_loop_mono _ fuel' _ _ _ Hskip) by lia; [assumption|].
      apply IH; [assumption | lia].
Qed.

(** The loop of [Decode] comes to an end on every input: with the fuel
    that [Decode] gives it, it returns or panics. *)
Lemma MessageDecoder_loop_total (fuel : nat) onSMS onMMS (d : xml.Decoder) (h : H) :
  S (length (xml.input d)) < fuel →
  ∃ r, Decode_loop fuel onSMS onMMS d h = Some r.
Proof.
  revert d h. induction fuel as [|fuel IH]; intros d h Hlen; [lia|].
  cbn [MessageDecoder_loop].
  destruct (findElem_total fuel d ["sms"; "mms"]) as ([child|err] & d1 & -> & Hd1);
    [lia| |destruct (errors_Is_EOF err); eexists; reflexivity].
  unfold xml.Decoder_Skip.
  repeat case_decide; [| |eexists; reflexivity].
  - destruct onSMS as [OnSMS|].
    + destruct (DecodeElement_total unmarshalSMS fuel child d1)
        as ([sms|err] & d2 & -> & Hd2); [lia| |eexists; reflexivity].
      destruct (OnSMS sms h) as [[err|] h']; [eexists; reflexivity|].
      apply IH. lia.
    + destruct (Skip_loop_total fuel 0 d1) as ([err|] & d2 & -> & Hd2);
        [lia|eexists; reflexivity|].
      apply IH. lia.
  - destruct onMMS as [OnMMS|].
    + destruct (DecodeElement_total unmarshalMMS fuel child d1)
        as ([mms|err] & d2 & -> & Hd2); [lia| |eexists; reflexivity].
      destruct (OnMMS mms h) as [[err|] h']; [eexists; reflexivity|].
      apply IH. lia.
    + destruct (Skip_loop_total fuel 0 d1) as ([err|] & d2 & -> & Hd2);
        [lia|eexists; reflexivity|].
      apply IH. lia.
Qed.

Lemma MessageDecoder_loop_fuel (fuel fuel' : nat) onSMS onMMS (d : xml.Decoder) (h : H) :
  S (length (xml.input d)) < fuel → S (length (xml.input d)) < fuel' →
  Decode_loop fuel onSMS onMMS d h = Decode_loop fuel' onSMS onMMS d h.
Proof.
  intros Hf Hf'.
  destruct (MessageDecoder_loop_total (S (S (length (xml.input d)))) onSMS onMMS d h)
    as (r & Hrun); [lia|].
  rewrite (MessageDecoder_loop_mono _ fuel _ _ _ _ _ Hrun) by lia.
  by rewrite (MessageDecoder_loop_mono _ fuel' _ _ _ _ _ Hrun) by lia.
Qed.

(** [Decode] always comes to an end. *)
Lemma MessageDecoder_Decode_total (d : MessageDecoder) (h : H) :
  ∃ r, Decode d h = Some r.
Proof.
  unfold MessageDecoder_Decode.
  destruct (OnSMS d), (OnMMS d); try (apply MessageDecoder_loop_total; unfold fuel_for; lia).
  eexists. reflexivity.
Qed.

Lemma MessageDecoder_loop_skips_node onSMS onMMS (n : Node)
    (rest : list xml.Token) (stk : list string) (h : H) (fuel : nat) :
  named ["sms"; "mms"] n = false →
  S (length (tokens n ++ rest)) < fuel →
  Decode_loop fuel onSMS onMMS {| xml.input := tokens n ++ rest; xml.stk := stk |} h
  = Decode_loop fuel onSMS onMMS {| xml.input := rest; xml.stk := stk |} h.
Proof.
  intros Hnamed Hlen. destruct fuel as [|fuel]; [lia|].
  cbn [MessageDecoder_loop]. by rewrite findElem_skips_node by (assumption || lia).
Qed.

Lemma MessageDecoder_loop_sms onSMS onMMS (se : xml.StartElement)
    (content : list Node) (rest : list xml.Token) (stk : list string) (h : H)
    (fuel : nat) :
  xml.Name_Local se = "sms" →
  S (length (tokens (Element se content) ++ rest)) < fuel →
  Decode_loop fuel onSMS onMMS
    {| xml.input := tokens (Element se content) ++ rest; xml.stk := stk |} h
  = match onSMS with
    | None => Decode_loop fuel onSMS onMMS {| xml.input := rest; xml.stk := stk |} h
    | Some OnSMS =>
        match unmarshalSMS se (tokens_of content) with
        | inr err => Some (Return (Some (Errorf "unable to decode sms element" err)), h)
        | inl sms =>
            match OnSMS sms h with
            | (Some err, h) => Some (Return (Some err), h)
            | (None, h) =>
                Decode_loop fuel onSMS onMMS {| xml.input := rest; xml.stk := stk |} h
            end
        end
    end.
Proof.
  intros Hname Hlen. rewrite tokens_Element in *. simpl in Hlen.
  rewrite length_app in Hlen. simpl in Hlen.
  assert (Hfuel : ∀ h', Decode_loop (pred fuel) onSMS onMMS
                          {| xml.input := rest; xml.stk := stk |} h'
                        = Decode_loop fuel onSMS onMMS
                            {| xml.input := rest; xml.stk := stk |} h').
  { intros h'. apply MessageDecoder_loop_fuel; simpl; lia. }
  destruct fuel as [|[|fuel]]; [lia..|]. cbn [pred] in Hfuel.
  cbn [MessageDecoder_loop].
  rewrite findElem_finds by (rewrite Hname; apply elem_of_cons; by left).
  rewrite decide_True by assumption.
  destruct onSMS as [OnSMS|].
  - rewrite DecodeElement_content by (rewrite length_app; simpl; lia).
    destruct (unmarshalSMS se (tokens_of content)) as [sms|err]; [|reflexivity].
    destruct (OnSMS sms h) as [[err|] h']; [reflexivity|]. apply Hfuel.
  - rewrite Skip_content by (rewrite length_app; simpl; lia). apply Hfuel.
Qed.

Lemma MessageDecoder_loop_mms onSMS onMMS (se : xml.StartElement)
    (content : list Node) (rest : list xml.Token) (stk : list string) (h : H)
    (fuel : nat) :
  xml.Name_Local se = "mms" →
  S (length (tokens (Element se content) ++ rest)) < fuel →
  Decode_loop fuel onSMS onMMS
    {| xml.input := tokens (Element se content) ++ rest; xml.stk := stk |} h
  = match onMMS with
    | None => Decode_loop fuel onSMS onMMS {| xml.input := rest; xml.stk := stk |} h
    | Some OnMMS =>
        match unmarshalMMS se (tokens_of content) with
        | inr err => Some (Return (Some (Errorf "unable to decode mms element" err)), h)
        | inl mms =>
            match OnMMS mms h with
            | (Some err, h) => Some (Return (Some err), h)
            | (None, h) =>
                Decode_loop fuel onSMS onMMS {| xml.input := rest; xml.stk := stk |} h
            end
        end
    end.
Proof.
  intros Hname Hlen. rewrite tokens_Element in *. simpl in Hlen.
  rewrite length_app in Hlen. simpl in Hlen.
  assert (Hfuel : ∀ h', Decode_loop (pred fuel) onSMS onMMS
                          {| xml.input := rest; xml.stk := stk |} h'
                        = Decode_loop fuel onSMS onMMS
                            {| xml.input := rest; xml.stk := stk |} h').
  { intros h'. apply MessageDecoder_loop_fuel; simpl; lia. }
  destruct fuel as [|[|fuel]]; [lia..|]. cbn [pred] in Hfuel.
  cbn [MessageDecoder_loop].
  rewrite findElem_finds
    by (rewrite Hname; apply elem_of_cons; right; apply elem_of_cons; by left).
  rewrite decide_False by (rewrite Hname; discriminate).
  rewrite decide_True by assumption.
  destruct onMMS as [OnMMS|].
  - rewrite DecodeElement_content by (rewrite length_app; simpl; lia).
    destruct (unmarshalMMS se (tokens_of content)) as [mms|err]; [|reflexivity].
    destruct (OnMMS mms h) as [[err|] h']; [reflexivity|]. apply Hfuel.
  - rewrite Skip_content by (rewrite length_app; simpl; lia). apply Hfuel.
Qed.

(** The loop of [Decode] over the token sequence of [children] does what
    [dispatch] does over the children themselves, then goes on with what
    follows them. *)
Lemma MessageDecoder_loop_children onSMS onMMS (children : list Node) :
  ∀ (rest : list xml.Token) (stk : list string) (h : H) (fuel : nat),
    S (length (tokens_of children ++ rest)) < fuel →
    Decode_loop fuel onSMS onMMS
      {| xml.input := tokens_of children ++ rest; xml.stk := stk |} h
    = match dispatched onSMS onMMS children h with
      | (Some err, h') => Some (Return (Some err), h')
      | (None, h') =>
          Decode_loop fuel onSMS onMMS {| xml.input := rest; xml.stk := stk |} h'
      end.
Proof.
  induction children as [|c children IH]; intros rest stk h fuel Hlen; [reflexivity|].
  rewrite tokens_of_cons, <- app_assoc in *.
  assert (Hrest : S (length (tokens_of children ++ rest)) < fuel)
    by (rewrite length_app in Hlen; lia).
  assert (Hother : named ["sms"; "mms"] c = false →
            Decode_loop fuel onSMS onMMS
              {| xml.input := tokens c ++ tokens_of children ++ rest; xml.stk := stk |} h
            = match dispatched onSMS onMMS children h with
              | (Some err, h') => Some (Return (Some err), h')
              | (None, h') =>
                  Decode_loop fuel onSMS onMMS
                    {| xml.input := rest; xml.stk := stk |} h'
              end).
  { intros Hnamed. rewrite MessageDecoder_loop_skips_node by assumption.
    by apply IH. }
  destruct c as [se content|data|data|target inst|data];
    try (cbn [dispatch]; by apply Hother).
  cbn [dispatch].
  destruct (decide (xml.Name_Local se = "sms")) as [Hsms|Hsms].
  - rewrite MessageDecoder_loop_sms by assumption.
    destruct onSMS as [OnSMS|]; [|by apply IH].
    destruct (unmarshalSMS se (tokens_of content)) as [sms|err]; [|reflexivity].
    destruct (OnSMS sms h) as [[err|] h']; [reflexivity | by apply IH].
  - destruct (decide (xml.Name_Local se = "mms")) as [Hmms|Hmms].
    + rewrite MessageDecoder_loop_mms by assumption.
      destruct onMMS as [OnMMS|]; [|by apply IH].
      destruct (unmarshalMMS se (tokens_of content)) as [mms|err]; [|reflexivity].
      destruct (OnMMS mms h) as [[err|] h']; [reflexivity | by apply IH].
    + apply Hother. simpl. apply bool_decide_eq_false.
      rewrite !elem_of_cons, elem_of_nil. tauto.
Qed.

(** A document: anything but an [smses] element, then the root [smses]
    with its children, then anything but [sms] and [mms] elements. The
    decoder that [NewMessageDecoder] returns stands behind the start of
    the root, and [Decode] with handlers installed dispatches the
    children of the root and returns what [dispatch] returns. *)
Lemma Decode_dispatches (prolog children epilogue : list Node)
    (attrs : list xml.Attr) onSMS onMMS (h : H) :
  Forall (λ n, named ["smses"] n = false) prolog →
  Forall (λ n, named ["sms"; "mms"] n = false) epilogue →
  is_Some onSMS ∨ is_Some onMMS →
  ∃ d : @MessageDecoder SMS MMS H,
    NewMessageDecoder
      (tokens_of prolog
       ++ tokens (Element {| xml.Name_Local := "smses"; xml.Attrs := attrs |} children)
       ++ tokens_of epilogue)
    = Some (inl d)
    ∧ Decode {| md_decoder := md_decoder d; md_BackupInfo := md_BackupInfo d;
                OnSMS := onSMS; OnMMS := onMMS |} h
      = Some (Return (dispatched onSMS onMMS children h).1,
              (dispatched onSMS onMMS children h).2).
Proof.
  intros Hprolog Hepilogue Hhandlers.
  unfold NewMessageDecoder, xml.NewDecoder.
  rewrite findElem_skips_nodes by (assumption || (unfold fuel_for; simpl; lia)).
  rewrite tokens_Element.
  rewrite (findElem_fuel _ (S (S (length (tokens_of children
                                            ++ xml.EndElement "smses"
                                            :: tokens_of epilogue)))))
    by (unfold fuel_for; cbn [xml.input length];
        repeat (rewrite length_app; cbn [length]); lia).
  rewrite findElem_finds by (apply list_elem_of_singleton; reflexivity).
  eexists. split; [reflexivity|]. cbn [md_decoder md_BackupInfo xml.Name_Local].
  assert (Hloop : Decode_loop
            (fuel_for {| xml.input := tokens_of children ++ xml.EndElement "smses"
                                        :: tokens_of epilogue;
                         xml.stk := ["smses"] |})
            onSMS onMMS
            {| xml.input := tokens_of children ++ xml.EndElement "smses"
                              :: tokens_of epilogue;
               xml.stk := ["smses"] |} h
          = Some (Return (dispatched onSMS onMMS children h).1,
                  (dispatched onSMS onMMS children h).2)).
  { rewrite MessageDecoder_loop_children by (unfold fuel_for; simpl; lia).
    destruct (dispatched onSMS onMMS children h) as [[err|] h']; [reflexivity|].
    unfold fuel_for. cbn [xml.input]. rewrite length_app. cbn [length].
    destruct (findElem_end_of_document ["sms"; "mms"] "smses" epilogue
                (S (length (tokens_of children) + S (length (tokens_of epilogue)))))
      as [d Hd]; [assumption | lia |].
    cbn [MessageDecoder_loop]. by rewrite Hd. }
  unfold MessageDecoder_Decode. cbn [OnSMS OnMMS md_decoder].
  destruct onSMS, onMMS; try exact Hloop.
  destruct Hhandlers as [[? [=]]|[? [=]]].
Qed.

End DecodeProperties.

Section EmissionOrder.

Context {SMS MMS : Type}.
Variable unmarshalSMS : xml.StartElement → list xml.Token → SMS + error.
Variable unmarshalMMS : xml.StartElement → list xml.Token → MMS + error.

Local Abbreviation invocation := (invocation SMS MMS).
Local Abbreviation Decode :=
  (MessageDecoder_Decode (H:=list invocation) unmarshalSMS unmarshalMMS).
Local Abbreviation invoked := (invocation_of unmarshalSMS unmarshalMMS).
Local Abbreviation decodes := (decodable unmarshalSMS unmarshalMMS).

(** With handlers that note their invocations, [dispatch] leaves behind
    the invocations the children call for, in the order of the children. *)
Lemma dispatch_notes (wantSMS wantMMS : bool) (children : list Node) :
  Forall (decodes wantSMS wantMMS) children →
  ∀ calls : list invocation,
    dispatch unmarshalSMS unmarshalMMS (noteSMS wantSMS) (noteMMS wantMMS) children calls
    = (None, calls ++ omap (invoked wantSMS wantMMS) children).
Proof.
  intros Hchildren.
  induction Hchildren as [|c children Hc _ IH]; intros calls.
  - simpl. by rewrite app_nil_r.
  - destruct c as [se content|data|data|target inst|data];
      try (cbn [dispatch omap list_omap invocation_of]; apply IH).
    destruct Hc as [Hsms Hmms].
    cbn [dispatch omap list_omap invocation_of].
    destruct (decide (xml.Name_Local se = "sms")) as [Hname|Hname].
    + destruct wantSMS; cbn [noteSMS]; [|apply IH].
      destruct (Hsms Hname eq_refl) as [sms ->].
      rewrite IH. by rewrite <- app_assoc.
    + destruct (decide (xml.Name_Local se = "mms")) as [Hname'|Hname']; [|apply IH].
      destruct wantMMS; cbn [noteMMS]; [|apply IH].
      destruct (Hmms Hname' eq_refl) as [mms ->].
      rewrite IH. by rewrite <- app_assoc.
Qed.


End EmissionOrder.


(** ** The driver comes to an end *)

Section DriverTermination.

Context {SMSMessageType SMSStatus ReadStatus BoolValue AddressType : Type}.
Local Abbreviation SMS := (SMS SMSMessageType SMSStatus ReadStatus BoolValue).
Local Abbreviation MMS := (MMS ReadStatus BoolValue AddressType).

Variable PhoneNumber_String : PhoneNumber → string.
Variable SMSMessageType_String : SMSMessageType → string.
Variable SMSStatus_String : SMSStatus → string.
Variable ReadStatus_String : ReadStatus → string.
Variable AddressType_String : AddressType → string.
Variable unmarshalSMS : xml.StartElement → list xml.Token → SMS + error.
Variable unmarshalMMS : xml.StartElement → list xml.Token → MMS + error.
Variable json_Marshal : list AddressInfo → string + error.
Variable base64_DecodeString : string → string + error.
Variable driver_error : Tables BoolValue → Stmt → list (SqlArg BoolValue) → option error.

Local Abbreviation sbrparser :=
  (main PhoneNumber_String SMSMessageType_String SMSStatus_String ReadStatus_String
     AddressType_String unmarshalSMS unmarshalMMS json_Marshal base64_DecodeString
     driver_error).
Local Abbreviation handle :=
  (handleFile PhoneNumber_String SMSMessageType_String SMSStatus_String
     ReadStatus_String AddressType_String unmarshalSMS unmarshalMMS json_Marshal
     base64_DecodeString driver_error).
Local Abbreviation loop :=
  (main_loop PhoneNumber_String SMSMessageType_String SMSStatus_String
     ReadStatus_String AddressType_String unmarshalSMS unmarshalMMS json_Marshal
     base64_DecodeString driver_error).

Lemma handleFile_total (fs : FileSystem) (xmlFilePath : string)
    (out : StreamingOutput BoolValue) :
  ∃ r, handle fs xmlFilePath out = Some r.
Proof.
  unfold handleFile. case_match; [eexists; reflexivity|].
  destruct (OpenBackup fs xmlFilePath) as [f|err]; [|eexists; reflexivity].
  case_match; [|eexists; reflexivity].
  unfold StreamingOutput_MessageDecoder.
  destruct (@NewMessageDecoder_total SMS MMS (StreamingOutput BoolValue) f)
    as ([decoder|err] & ->); [|eexists; reflexivity].
  apply MessageDecoder_Decode_total.
Qed.

Lemma main_loop_total (fs : FileSystem) (args : list string)
    (out : StreamingOutput BoolValue) (stderr : list stderr_line) :
  ∃ r, loop fs args out stderr = Some r.
Proof.
  revert out stderr. induction args as [|xmlFilePath args IH]; intros out stderr;
    [eexists; reflexivity|].
  cbn [main_loop]. destruct (Stat fs xmlFilePath) as [[|]|]; [eexists; reflexivity| |eexists; reflexivity].
  destruct (handleFile_total fs xmlFilePath out) as ([[[err|]|msg] out'] & ->);
    [apply IH | apply IH | eexists; reflexivity].
Qed.

Lemma main_total (fs : FileSystem) (store : Tables BoolValue) (args : list string) :
  ∃ r, sbrparser fs store args = Some r.
Proof.
  unfold main. destruct args as [|xmlFilePath args]; [eexists; reflexivity|].
  destruct (main_loop_total fs (xmlFilePath :: args) (NewStreamingOutput store) [])
    as ([[[| |msg] out] stderr] & ->); [|eexists; reflexivity..].
  destruct (Commit out) as [[err|] out']; eexists; reflexivity.
Qed.

End DriverTermination.

(** * Further properties *)

(** ** The contact guesser: what the map holds *)

Lemma addRawNum_elem_of (c : Contact) (rawNum x : string) :
  x ∈ RawNumbers (addRawNum c rawNum) ↔ x ∈ RawNumbers c ∨ x = rawNum.
Proof.
  unfold addRawNum. destruct (hasRawNum (RawNumbers c) rawNum) eqn:Hhas; simpl.
  - apply hasRawNum_elem_of in Hhas. split; [by left|].
    intros [Hx| ->]; assumption.
  - rewrite elem_of_app, list_elem_of_singleton. reflexivity.
Qed.

Lemma first_known_snoc (names : list string) (name : string) :
  first_known (names ++ [name])
  = if decide (first_known names = "(Unknown)") then name else first_known names.
Proof.
  induction names as [|n names IH]; simpl.
  - destruct (decide (name = "(Unknown)")) as [->|]; reflexivity.
  - destruct (decide (n = "(Unknown)")) as [->|Hn]; [exact IH|].
    by rewrite decide_False.
Qed.

Ltac unfold_names_for := unfold names_for.

Section GuessingFurther.

Context {SMSMessageType SMSStatus ReadStatus BoolValue AddressType : Type}.
Local Abbreviation SMS := (SMS SMSMessageType SMSStatus ReadStatus BoolValue).
Local Abbreviation MMS := (MMS ReadStatus BoolValue AddressType).
Local Abbreviation Messages :=
  (Messages SMSMessageType SMSStatus ReadStatus BoolValue AddressType).

Variable NormalizePhoneNumber : string → string.
Variable RemoveCommasBeforeSuffixes : string → string.
Variable TrimSpace : string → string.

Local Abbreviation guess_sms := (guess_sms NormalizePhoneNumber).
Local Abbreviation guess_mms := (guess_mms RemoveCommasBeforeSuffixes TrimSpace).
Local Abbreviation GuessContacts :=
  (GuessContacts (SMSMessageType:=SMSMessageType) (SMSStatus:=SMSStatus)
     (AddressType:=AddressType)
     NormalizePhoneNumber RemoveCommasBeforeSuffixes TrimSpace).
Local Abbreviation names_for := (names_for NormalizePhoneNumber).

Lemma names_for_snoc (k : string) (seen : list SMS) (sms : SMS) :
  names_for k (seen ++ [sms])
  = names_for k seen
    ++ (if decide (NormalizePhoneNumber (sms_Address sms) = k)
        then [sms_ContactName sms] else []).
Proof.
  unfold_names_for.
  rewrite filter_app, map_app. f_equal.
  rewrite filter_cons, filter_nil. by case_decide.
Qed.

(** What the first loop keeps true for every canonical number [k], once
    the records [seen] went through it: without a contact no record of
    [seen] has that number; with one, its name is the first known name
    among those records and every raw address of theirs is listed. *)
Lemma guess_sms_contents (seen : list SMS) (st : GuessState) (sms : SMS) :
  (∀ k, match canonicalMap st !! k with
        | None => filter (λ r, NormalizePhoneNumber (sms_Address r) = k) seen = []
        | Some c =>
            Name c = first_known (names_for k seen)
            ∧ ∀ r, r ∈ seen → NormalizePhoneNumber (sms_Address r) = k →
                   sms_Address r ∈ RawNumbers c
        end) →
  ∀ k, match canonicalMap (guess_sms st sms) !! k with
       | None =>
           filter (λ r, NormalizePhoneNumber (sms_Address r) = k) (seen ++ [sms]) = []
       | Some c =>
           Name c = first_known (names_for k (seen ++ [sms]))
           ∧ ∀ r, r ∈ seen ++ [sms] → NormalizePhoneNumber (sms_Address r) = k →
                  sms_Address r ∈ RawNumbers c
       end.
Proof.
  intros Hinv k. pose proof (Hinv k) as Hk.
  set (canonicalNum := NormalizePhoneNumber (sms_Address sms)).
  destruct (decide (canonicalNum = k)) as [Heq|Hne].
  - (* the record at hand has number [k] *)
    subst k. rewrite names_for_snoc. fold canonicalNum.
    rewrite decide_True by reflexivity.
    destruct (canonicalMap st !! canonicalNum) as [c|] eqn:Hlook.
    + destruct Hk as [Hname Hraw].
      destruct (guess_sms_name_policy NormalizePhoneNumber st sms c Hlook)
        as (c' & Hc' & Hname' & _).
      fold canonicalNum in Hc'. rewrite Hc'. split.
      * rewrite first_known_snoc, <- Hname. exact Hname'.
      * intros r Hr Hrk.
        assert (Hsub : ∀ x, x ∈ RawNumbers c ∨ x = sms_Address sms →
                            x ∈ RawNumbers c').
        { clear -Hlook Hc'. intros x Hx. revert Hc'. unfold_guess_sms.
          fold canonicalNum. rewrite Hlook.
          repeat case_decide; simpl; rewrite lookup_insert_eq; intros [= <-];
            apply addRawNum_elem_of; exact Hx. }
        apply elem_of_app in Hr as [Hr|Hr].
        -- apply Hsub. left. by apply Hraw.
        -- apply list_elem_of_singleton in Hr. subst r. apply Hsub. by right.
    + unfold_guess_sms. fold canonicalNum. rewrite Hlook. simpl.
      rewrite lookup_insert_eq. simpl.
      assert (Hnone : names_for canonicalNum seen = [])
        by (unfold_names_for; by rewrite Hk).
      rewrite Hnone. simpl. split.
      * destruct (decide (sms_ContactName sms = "(Unknown)")) as [->|]; reflexivity.
      * intros r Hr Hrk. apply elem_of_app in Hr as [Hr|Hr].
        -- assert (Hin : r ∈ filter (λ r, NormalizePhoneNumber (sms_Address r)
                                           = canonicalNum) seen)
             by (apply list_elem_of_filter; done).
           rewrite Hk in Hin. by apply elem_of_nil in Hin.
        -- apply list_elem_of_singleton in Hr. subst r.
           by apply list_elem_of_singleton.
  - (* another number: the contact at [k], if any, is untouched *)
    assert (Hsame : canonicalMap (guess_sms st sms) !! k = canonicalMap st !! k).
    { unfold_guess_sms. fold canonicalNum.
      destruct (canonicalMap st !! canonicalNum);
        repeat case_decide; simpl; by rewrite lookup_insert_ne. }
    rewrite Hsame. rewrite names_for_snoc. fold canonicalNum.
    rewrite decide_False by assumption. rewrite app_nil_r.
    destruct (canonicalMap st !! k) as [c|].
    + destruct Hk as [Hname Hraw]. split; [exact Hname|].
      intros r Hr Hrk. apply elem_of_app in Hr as [Hr|Hr]; [by apply Hraw|].
      apply list_elem_of_singleton in Hr. subst r. contradiction.
    + rewrite filter_app, Hk, filter_cons, filter_nil. fold canonicalNum.
      by rewrite decide_False.
Qed.

Lemma GuessContacts_contents (m : Messages) (k : string) :
  match (GuessContacts m).1.1 !! k with
  | None => filter (λ r, NormalizePhoneNumber (sms_Address r) = k) (msgs_SMS m) = []
  | Some c =>
      Name c = first_known (names_for k (msgs_SMS m))
      ∧ ∀ r, r ∈ msgs_SMS m → NormalizePhoneNumber (sms_Address r) = k →
             sms_Address r ∈ RawNumbers c
  end.
Proof.
  unfold_GuessContacts. simpl. rewrite foldl_guess_mms_canonicalMap.
  assert (Hgen : ∀ (l seen : list SMS) (st : GuessState),
    (∀ k, match canonicalMap st !! k with
          | None => filter (λ r, NormalizePhoneNumber (sms_Address r) = k) seen = []
          | Some c =>
              Name c = first_known (names_for k seen)
              ∧ ∀ r, r ∈ seen → NormalizePhoneNumber (sms_Address r) = k →
                     sms_Address r ∈ RawNumbers c
          end) →
    ∀ k, match canonicalMap (foldl guess_sms st l) !! k with
         | None => filter (λ r, NormalizePhoneNumber (sms_Address r) = k) (seen ++ l) = []
         | Some c =>
             Name c = first_known (names_for k (seen ++ l))
             ∧ ∀ r, r ∈ seen ++ l → NormalizePhoneNumber (sms_Address r) = k →
                    sms_Address r ∈ RawNumbers c
         end).
  { induction l as [|sms l IH]; intros seen st Hinv k'.
    - rewrite app_nil_r. apply Hinv.
    - replace (seen ++ sms :: l) with ((seen ++ [sms]) ++ l)
        by (by rewrite <- app_assoc).
      apply IH. by apply guess_sms_contents. }
  apply (Hgen (msgs_SMS m) [] {| canonicalMap := ∅; logged := [] |}).
  intros k'. simpl. by rewrite lookup_empty.
Qed.

(** X1. Every SMS of the input is accounted for: its normalised number is
    a key of the returned map, and its raw address is among the raw
    numbers of the contact found there. *)
Theorem GuessContacts_lists_every_address (m : Messages) (sms : SMS) :
  sms ∈ msgs_SMS m →
  ∃ c, (GuessContacts m).1.1 !! NormalizePhoneNumber (sms_Address sms) = Some c
       ∧ sms_Address sms ∈ RawNumbers c.
Proof.
  intros Hin.
  pose proof (GuessContacts_contents m (NormalizePhoneNumber (sms_Address sms))) as Hk.
  destruct ((GuessContacts m).1.1 !! NormalizePhoneNumber (sms_Address sms)) as [c|].
  - exists c. split; [reflexivity|]. destruct Hk as [_ Hraw]. by apply Hraw.
  - assert (Hf : sms ∈ filter (λ r, NormalizePhoneNumber (sms_Address r)
                                    = NormalizePhoneNumber (sms_Address sms))
                         (msgs_SMS m))
      by (apply list_elem_of_filter; done).
    rewrite Hk in Hf. by apply elem_of_nil in Hf.
Qed.

(** X2. The name of a contact is the first name that is not "(Unknown)"
    among the SMS records with its number, taken in input order, and
    "(Unknown)" when all of them carry the sentinel: a later record never
    replaces a known name. *)
Theorem GuessContacts_first_known_name (m : Messages) (k : string) (c : Contact) :
  (GuessContacts m).1.1 !! k = Some c →
  Name c = first_known (names_for k (msgs_SMS m)).
Proof.
  intros Hk. pose proof (GuessContacts_contents m k) as Hinv.
  rewrite Hk in Hinv. apply Hinv.
Qed.

End GuessingFurther.

Lemma GuessContacts_lists_every_address_witness :
  let m := mkMessages
             [Sample.sms "555-0100" "Alice"; Sample.sms "(555) 0100" "Alice";
              Sample.sms "5550199" "Bob"] [] in
  Sample.sms "(555) 0100" "Alice" ∈ msgs_SMS m
  ∧ ∃ c, (Sample.GuessContacts m).1.1 !! "5550100" = Some c
         ∧ "(555) 0100" ∈ RawNumbers c.
Proof.
  intros m.
  assert (Hin : Sample.sms "(555) 0100" "Alice" ∈ msgs_SMS m)
    by (simpl; apply elem_of_cons; right; apply elem_of_cons; by left).
  split; [exact Hin|].
  exact (GuessContacts_lists_every_address Sample.digits_only id Sample.trim_blanks
           (AddressType:=unit) m _ Hin).
Defined.

Lemma GuessContacts_first_known_name_witness :
  let m := mkMessages
             [Sample.sms "555-0100" "(Unknown)"; Sample.sms "5550199" "Carol";
              Sample.sms "5550100" "Alice"; Sample.sms "5550100" "Bob"] [] in
  let c := {| Name := "Alice"; CanonicalNumber := "5550100";
              RawNumbers := ["555-0100"; "5550100"] |} in
  (Sample.GuessContacts m).1.1 !! "5550100" = Some c
  ∧ Name c = first_known ["(Unknown)"; "Alice"; "Bob"].
Proof.
  intros m c.
  assert (Hk : (Sample.GuessContacts m).1.1 !! "5550100" = Some c)
    by (vm_compute; reflexivity).
  split; [exact Hk|].
  exact (GuessContacts_first_known_name Sample.digits_only id Sample.trim_blanks
           (AddressType:=unit) m "5550100" c Hk).
Defined.

(** ** The decoders: the root element, failures, and what is passed over *)

Lemma fillBackupInfo_attr_value (info : BackupInfo) (elem : xml.StartElement) :
  fillBackupInfo info elem
  = {| Count := attr_value "count" (xml.Attrs elem) (Count info);
       BackupSet := attr_value "backup_set" (xml.Attrs elem) (BackupSet info);
       BackupDate := attr_value "backup_date" (xml.Attrs elem) (BackupDate info) |}.
Proof.
  unfold fillBackupInfo. destruct elem as [name attrs]. simpl. revert info.
  induction attrs as [|[n v] attrs IH]; intros info; [by destruct info|].
  cbn [foldl attr_value xml.Attr_Name xml.Attr_Value]. rewrite IH.
  destruct (decide (n = "count")) as [->|Hc]; [reflexivity|].
  destruct (decide (n = "backup_set")) as [->|Hs]; [reflexivity|].
  destruct (decide (n = "backup_date")) as [->|Hd]; reflexivity.
Qed.

(** [findElem] at the start of input that holds a wanted start element
    behind nodes it does not look for. *)
Lemma findElem_reaches (names : list string) (before : list Node)
    (se : xml.StartElement) (rest : list xml.Token) (stk : list string) (fuel : nat) :
  Forall (λ n, named names n = false) before →
  xml.Name_Local se ∈ names →
  length (tokens_of before ++ xml.StartElementT se :: rest) < fuel →
  findElem fuel
    {| xml.input := tokens_of before ++ xml.StartElementT se :: rest; xml.stk := stk |}
    names
  = Some (inl se, {| xml.input := rest; xml.stk := xml.Name_Local se :: stk |}).
Proof.
  intros Hbefore Hin Hlen. rewrite findElem_skips_nodes by assumption.
  rewrite length_app in Hlen. simpl in Hlen.
  destruct fuel as [|fuel]; [lia|]. by apply findElem_finds.
Qed.

(** [findElem] over a whole input that holds no wanted element at its top
    level: the clean end of the input. *)
Lemma findElem_nothing (names : list string) (nodes : list Node) (fuel : nat) :
  Forall (λ n, named names n = false) nodes →
  length (tokens_of nodes) < fuel →
  findElem fuel {| xml.input := tokens_of nodes; xml.stk := [] |} names
  = Some (inr EOF, {| xml.input := []; xml.stk := [] |}).
Proof.
  intros Hnodes Hlen. rewrite <- (app_nil_r (tokens_of nodes)).
  rewrite findElem_skips_nodes by (rewrite ?app_nil_r; assumption).
  destruct fuel as [|fuel]; [lia|]. reflexivity.
Qed.

(** X3. [NewMessageDecoder] stops behind the start of the first top-level
    [smses] element, whatever follows it, and takes [count], [backup_set]
    and [backup_date] from its attributes: the last attribute of each name
    counts, and a name that is absent leaves the empty string. *)
Theorem NewMessageDecoder_reads_root {SMS MMS H : Type}
    (prolog : list Node) (attrs : list xml.Attr) (rest : list xml.Token) :
  Forall (λ n, named ["smses"] n = false) prolog →
  @NewMessageDecoder SMS MMS H
    (tokens_of prolog
     ++ xml.StartElementT {| xml.Name_Local := "smses"; xml.Attrs := attrs |} :: rest)
  = Some (inl {| md_decoder := {| xml.input := rest; xml.stk := ["smses"] |};
                 md_BackupInfo :=
                   {| Count := attr_value "count" attrs "";
                      BackupSet := attr_value "backup_set" attrs "";
                      BackupDate := attr_value "backup_date" attrs "" |};
                 OnSMS := None; OnMMS := None |}).
Proof.
  intros Hprolog. unfold NewMessageDecoder, xml.NewDecoder.
  rewrite findElem_reaches;
    [| assumption | apply list_elem_of_singleton; reflexivity
     | unfold fuel_for; simpl; lia].
  by rewrite fillBackupInfo_attr_value.
Qed.

Lemma named_false_subset (names names' : list string) (n : Node) :
  names' ⊆ names → named names n = false → named names' n = false.
Proof.
  intros Hsub. destruct n as [se children|data|data|target inst|data]; try done.
  simpl. rewrite !bool_decide_eq_false. intros Hnot Hin. apply Hnot, Hsub, Hin.
Qed.



Lemma NewMessageDecoder_reads_root_witness :
  Forall (λ n, named ["smses"] n = false) [Instruction "xml" "version='1.0'"; Text " "]
  ∧ @NewMessageDecoder unit unit unit
      (tokens_of [Instruction "xml" "version='1.0'"; Text " "]
       ++ xml.StartElementT
            {| xml.Name_Local := "smses";
               xml.Attrs := [ xml.mkAttr "count" "2"; xml.mkAttr "backup_date" "1518548142000";
                              xml.mkAttr "count" "3" ] |}
          :: [xml.BadSyntax "invalid character"])
    = Some (inl {| md_decoder := {| xml.input := [xml.BadSyntax "invalid character"];
                                    xml.stk := ["smses"] |};
                   md_BackupInfo := {| Count := "3"; BackupSet := "";
                                       BackupDate := "1518548142000" |};
                   OnSMS := None; OnMMS := None |}).
Proof.
  assert (Hprolog : Forall (λ n, named ["smses"] n = false)
                      [Instruction "xml" "version='1.0'"; Text " "])
    by (repeat constructor).
  split; [exact Hprolog|].
  exact (NewMessageDecoder_reads_root
           [Instruction "xml" "version='1.0'"; Text " "]
           [ xml.mkAttr "count" "2"; xml.mkAttr "backup_date" "1518548142000";
             xml.mkAttr "count" "3" ]
           [xml.BadSyntax "invalid character"] Hprolog).
Defined.

Section DecodeFurther.

Context {SMS MMS H : Type}.
Variable unmarshalSMS : xml.StartElement → list xml.Token → SMS + error.
Variable unmarshalMMS : xml.StartElement → list xml.Token → MMS + error.

Local Abbreviation Decode_loop := (MessageDecoder_loop (H:=H) unmarshalSMS unmarshalMMS).
Local Abbreviation Decode := (MessageDecoder_Decode (H:=H) unmarshalSMS unmarshalMMS).
Local Abbreviation dispatched := (dispatch (H:=H) unmarshalSMS unmarshalMMS).

Lemma dispatch_app onSMS onMMS (pre post : list Node) (h : H) :
  dispatched onSMS onMMS (pre ++ post) h
  = match dispatched onSMS onMMS pre h with
    | (Some err, h') => (Some err, h')
    | (None, h') => dispatched onSMS onMMS post h'
    end.
Proof.
  revert h. induction pre as [|c pre IH]; intros h; [reflexivity|].
  destruct c as [se content|data|data|target inst|data];
    try (cbn [app dispatch]; apply IH).
  cbn [app dispatch]. repeat case_decide; try apply IH.
  - destruct onSMS as [OnSMS|]; [|apply IH].
    destruct (unmarshalSMS se (tokens_of content)) as [sms|err]; [|reflexivity].
    destruct (OnSMS sms h) as [[err|] h']; [reflexivity | apply IH].
  - destruct onMMS as [OnMMS|]; [|apply IH].
    destruct (unmarshalMMS se (tokens_of content)) as [mms|err]; [|reflexivity].
    destruct (OnMMS mms h) as [[err|] h']; [reflexivity | apply IH].
Qed.

(** [Decode] on a decoder that stands in front of whole children: they
    are dispatched, and decoding goes on behind them. *)
Lemma MessageDecoder_Decode_children (children : list Node) (rest : list xml.Token)
    (stk : list string) (info : BackupInfo) onSMS onMMS (h : H) :
  is_Some onSMS ∨ is_Some onMMS →
  Decode {| md_decoder := {| xml.input := tokens_of children ++ rest; xml.stk := stk |};
            md_BackupInfo := info; OnSMS := onSMS; OnMMS := onMMS |} h
  = match dispatched onSMS onMMS children h with
    | (Some err, h') => Some (Return (Some err), h')
    | (None, h') =>
        Decode {| md_decoder := {| xml.input := rest; xml.stk := stk |};
                  md_BackupInfo := info; OnSMS := onSMS; OnMMS := onMMS |} h'
    end.
Proof.
  intros Hhandlers.
  assert (Hloop : ∀ d h',
            Decode {| md_decoder := d; md_BackupInfo := info;
                      OnSMS := onSMS; OnMMS := onMMS |} h'
            = Decode_loop (fuel_for d) onSMS onMMS d h').
  { intros d h'. unfold MessageDecoder_Decode. cbn [OnSMS OnMMS md_decoder].
    destruct onSMS, onMMS; try reflexivity.
    destruct Hhandlers as [[? [=]]|[? [=]]]. }
  rewrite Hloop.
  rewrite MessageDecoder_loop_children by (unfold fuel_for; simpl; lia).
  destruct (dispatched onSMS onMMS children h) as [[err|] h']; [reflexivity|].
  rewrite Hloop. apply MessageDecoder_loop_fuel; unfold fuel_for; simpl;
    rewrite ?length_app; lia.
Qed.

(** X5. Fail-fast on a handler error: when [OnSMS] returns an error for
    an [sms] child, [Decode] returns that very error, not wrapped, with
    the handler state as that call left it; nothing behind the child is
    read, be it well formed or not. *)
Theorem Decode_stops_at_handler_error
    (pre content post : list Node) (se : xml.StartElement) (rest : list xml.Token)
    (stk : list string) (info : BackupInfo)
    (OnSMS : SMS → H → option error * H) onMMS
    (h h1 h2 : H) (sms : SMS) (err : error) :
  xml.Name_Local se = "sms" →
  dispatched (Some OnSMS) onMMS pre h = (None, h1) →
  unmarshalSMS se (tokens_of content) = inl sms →
  OnSMS sms h1 = (Some err, h2) →
  Decode {| md_decoder :=
              {| xml.input := tokens_of (pre ++ Element se content :: post) ++ rest;
                 xml.stk := stk |};
            md_BackupInfo := info; OnSMS := Some OnSMS; OnMMS := onMMS |} h
  = Some (Return (Some err), h2).
Proof.
  intros Hname Hpre Hdecoded Hfails.
  rewrite MessageDecoder_Decode_children by (left; eexists; reflexivity).
  rewrite dispatch_app, Hpre. cbn [dispatch].
  rewrite decide_True by assumption. by rewrite Hdecoded, Hfails.
Qed.

(** X6. An [mms] child that does not unmarshal ends [Decode] with the
    unmarshalling error wrapped in "unable to decode mms element"; the
    handler is not invoked for it and nothing behind it is read. *)
Theorem Decode_stops_at_decode_error
    (pre content post : list Node) (se : xml.StartElement) (rest : list xml.Token)
    (stk : list string) (info : BackupInfo)
    onSMS (OnMMS : MMS → H → option error * H) (h h1 : H) (err : error) :
  xml.Name_Local se = "mms" →
  dispatched onSMS (Some OnMMS) pre h = (None, h1) →
  unmarshalMMS se (tokens_of content) = inr err →
  Decode {| md_decoder :=
              {| xml.input := tokens_of (pre ++ Element se content :: post) ++ rest;
                 xml.stk := stk |};
            md_BackupInfo := info; OnSMS := onSMS; OnMMS := Some OnMMS |} h
  = Some (Return (Some (Errorf "unable to decode mms element" err)), h1).
Proof.
  intros Hname Hpre Hdecoded.
  rewrite MessageDecoder_Decode_children by (right; eexists; reflexivity).
  rewrite dispatch_app, Hpre. cbn [dispatch].
  rewrite decide_False by (rewrite Hname; discriminate).
  rewrite decide_True by assumption. by rewrite Hdecoded.
Qed.

(** X7. A document that breaks off between two children of its root:
    every child before the break is dispatched, and then [Decode] fails
    with the syntax error "unexpected EOF" wrapped in "unable to find sms
    or mms element"; the end of input is a clean end only when no
    element is open. *)
Theorem Decode_truncated_document
    (children : list Node) (root : string) (stk : list string) (info : BackupInfo)
    onSMS onMMS (h h' : H) :
  is_Some onSMS ∨ is_Some onMMS →
  dispatched onSMS onMMS children h = (None, h') →
  Decode {| md_decoder := {| xml.input := tokens_of children; xml.stk := root :: stk |};
            md_BackupInfo := info; OnSMS := onSMS; OnMMS := onMMS |} h
  = Some (Return (Some (Errorf "unable to find sms or mms element"
                          (SyntaxError "unexpected EOF"))), h')
  ∧ Decode {| md_decoder := {| xml.input := tokens_of children; xml.stk := [] |};
              md_BackupInfo := info; OnSMS := onSMS; OnMMS := onMMS |} h
    = Some (Return None, h').
Proof.
  intros Hhandlers Hchildren.
  rewrite <- (app_nil_r (tokens_of children)).
  rewrite !MessageDecoder_Decode_children by assumption. rewrite Hchildren.
  unfold MessageDecoder_Decode. cbn [OnSMS OnMMS md_decoder].
  destruct onSMS, onMMS; try (split; reflexivity).
  destruct Hhandlers as [[? [=]]|[? [=]]].
Qed.

End DecodeFurther.

(** X8. A kind without handler is passed over and never unmarshalled:
    with [OnSMS] nil the outcome of [Decode] does not depend on how [sms]
    elements unmarshal, on any input whatever, and likewise for [mms]. *)
Theorem Decode_never_unmarshals_skipped_kind {SMS MMS H : Type}
    (unmarshalSMS unmarshalSMS' : xml.StartElement → list xml.Token → SMS + error)
    (unmarshalMMS unmarshalMMS' : xml.StartElement → list xml.Token → MMS + error)
    (decoder : xml.Decoder) (info : BackupInfo)
    (forSMS : SMS → H → option error * H) (forMMS : MMS → H → option error * H) (h : H) :
  MessageDecoder_Decode unmarshalSMS unmarshalMMS
    {| md_decoder := decoder; md_BackupInfo := info;
       OnSMS := None; OnMMS := Some forMMS |} h
  = MessageDecoder_Decode unmarshalSMS' unmarshalMMS
      {| md_decoder := decoder; md_BackupInfo := info;
         OnSMS := None; OnMMS := Some forMMS |} h
  ∧ MessageDecoder_Decode unmarshalSMS unmarshalMMS
      {| md_decoder := decoder; md_BackupInfo := info;
         OnSMS := Some forSMS; OnMMS := None |} h
    = MessageDecoder_Decode unmarshalSMS unmarshalMMS'
        {| md_decoder := decoder; md_BackupInfo := info;
           OnSMS := Some forSMS; OnMMS := None |} h.
Proof.
  unfold MessageDecoder_Decode. cbn [OnSMS OnMMS md_decoder].
  generalize (fuel_for decoder). intros fuel. revert decoder h.
  induction fuel as [|fuel IH]; intros decoder h; [split; reflexivity|].
  cbn [MessageDecoder_loop].
  destruct (findElem fuel decoder ["sms"; "mms"]) as [[[child|err] d1]|];
    [|split; reflexivity..].
  split.
  - repeat case_decide; try reflexivity.
    + destruct (xml.Decoder_Skip fuel d1) as [[[err|] d2]|]; try reflexivity.
      apply IH.
    + destruct (xml.Decoder_DecodeElement unmarshalMMS fuel child d1)
        as [[[mms|err] d2]|]; try reflexivity.
      destruct (forMMS mms h) as [[err|] h']; [reflexivity | apply IH].
  - repeat case_decide; try reflexivity.
    + destruct (xml.Decoder_DecodeElement unmarshalSMS fuel child d1)
        as [[[sms|err] d2]|]; try reflexivity.
      destruct (forSMS sms h) as [[err|] h']; [reflexivity | apply IH].
    + destruct (xml.Decoder_Skip fuel d1) as [[[err|] d2]|]; try reflexivity.
      apply IH.
Qed.

Lemma Decode_stops_at_handler_error_witness :
  let pre := [Text " "; Sample.sms_node "5550100" "Alice"] in
  let se := {| xml.Name_Local := "sms";
               xml.Attrs := [ xml.mkAttr "address" "5550199";
                              xml.mkAttr "contact_name" "Bob" ] |} in
  xml.Name_Local se = "sms"
  ∧ dispatch Sample.unmarshalSMS Sample.unmarshalMMS
      (Some (Example.keep_unless "Bob")) (Some Example.keep_mms) pre []
    = (None, ["5550100"])
  ∧ MessageDecoder_Decode Sample.unmarshalSMS Sample.unmarshalMMS
      {| md_decoder :=
           {| xml.input :=
                tokens_of (pre ++ Element se [] :: [Sample.sms_node "5550111" "Carol"])
                ++ [xml.BadSyntax "invalid character"];
              xml.stk := ["smses"] |};
         md_BackupInfo := mkBackupInfo "3" "" "";
         OnSMS := Some (Example.keep_unless "Bob");
         OnMMS := Some Example.keep_mms |} []
    = Some (Return (Some (ErrorString "refused")), ["5550100"]).
Proof.
  intros pre se.
  assert (Hname : xml.Name_Local se = "sms") by reflexivity.
  assert (Hpre : dispatch Sample.unmarshalSMS Sample.unmarshalMMS
                   (Some (Example.keep_unless "Bob")) (Some Example.keep_mms) pre []
                 = (None, ["5550100"])) by reflexivity.
  split_and!; [exact Hname | exact Hpre |].
  exact (Decode_stops_at_handler_error Sample.unmarshalSMS Sample.unmarshalMMS
           pre [] [Sample.sms_node "5550111" "Carol"] se
           [xml.BadSyntax "invalid character"] ["smses"] (mkBackupInfo "3" "" "")
           (Example.keep_unless "Bob") (Some Example.keep_mms)
           [] ["5550100"] ["5550100"] (Sample.sms "5550199" "Bob")
           (ErrorString "refused") Hname Hpre eq_refl eq_refl).
Defined.

Lemma Decode_stops_at_decode_error_witness :
  let pre := [Sample.sms_node "5550100" "Alice"; Sample.mms_node "5550100~5550199" "A, B"] in
  let se := {| xml.Name_Local := "mms"; xml.Attrs := [xml.mkAttr "contact_name" "Bob"] |} in
  xml.Name_Local se = "mms"
  ∧ Example.strict_unmarshalMMS se (tokens_of []) = inr (ErrorString "missing address")
  ∧ MessageDecoder_Decode Sample.unmarshalSMS Example.strict_unmarshalMMS
      {| md_decoder :=
           {| xml.input :=
                tokens_of (pre ++ Element se [] :: [Sample.sms_node "5550111" "Carol"])
                ++ [xml.EndElement "smses"];
              xml.stk := ["smses"] |};
         md_BackupInfo := mkBackupInfo "4" "" "";
         OnSMS := Some (Example.keep_unless "Bob");
         OnMMS := Some Example.keep_mms |} []
    = Some (Return (Some (Errorf "unable to decode mms element"
                            (ErrorString "missing address"))),
            ["5550100"; "5550100~5550199"]).
Proof.
  intros pre se.
  assert (Hname : xml.Name_Local se = "mms") by reflexivity.
  assert (Hfails : Example.strict_unmarshalMMS se (tokens_of [])
                   = inr (ErrorString "missing address")) by reflexivity.
  split_and!; [exact Hname | exact Hfails |].
  exact (Decode_stops_at_decode_error Sample.unmarshalSMS Example.strict_unmarshalMMS
           pre [] [Sample.sms_node "5550111" "Carol"] se
           [xml.EndElement "smses"] ["smses"] (mkBackupInfo "4" "" "")
           (Some (Example.keep_unless "Bob")) Example.keep_mms
           [] ["5550100"; "5550100~5550199"] (ErrorString "missing address")
           Hname eq_refl Hfails).
Defined.

Lemma Decode_truncated_document_witness :
  let children := [Sample.sms_node "5550100" "Alice"; Text " ";
                   Sample.sms_node "5550199" "Carol"] in
  (is_Some (Some (Example.keep_unless "Bob")) ∨ is_Some (Some Example.keep_mms))
  ∧ dispatch Sample.unmarshalSMS Sample.unmarshalMMS
      (Some (Example.keep_unless "Bob")) (Some Example.keep_mms) children []
    = (None, ["5550100"; "5550199"])
  ∧ MessageDecoder_Decode Sample.unmarshalSMS Sample.unmarshalMMS
      {| md_decoder := {| xml.input := tokens_of children; xml.stk := ["smses"] |};
         md_BackupInfo := mkBackupInfo "3" "" "";
         OnSMS := Some (Example.keep_unless "Bob");
         OnMMS := Some Example.keep_mms |} []
    = Some (Return (Some (Errorf "unable to find sms or mms element"
                            (SyntaxError "unexpected EOF"))),
            ["5550100"; "5550199"]).
Proof.
  intros children.
  assert (Hhandlers : is_Some (Some (Example.keep_unless "Bob"))
                      ∨ is_Some (Some Example.keep_mms))
    by (left; eexists; reflexivity).
  assert (Hchildren : dispatch Sample.unmarshalSMS Sample.unmarshalMMS
                        (Some (Example.keep_unless "Bob")) (Some Example.keep_mms)
                        children []
                      = (None, ["5550100"; "5550199"])) by reflexivity.
  split_and!; [exact Hhandlers | exact Hchildren |].
  exact (proj1 (Decode_truncated_document Sample.unmarshalSMS Sample.unmarshalMMS
                  children "smses" [] (mkBackupInfo "3" "" "")
                  (Some (Example.keep_unless "Bob")) (Some Example.keep_mms)
                  [] ["5550100"; "5550199"] Hhandlers Hchildren)).
Defined.

(** ** The sqlite driver: what a run does to the store *)

(** [Decode] touches the handler state through the handlers only: what
    both handlers keep true is true when [Decode] ends, on any input. *)
Lemma MessageDecoder_Decode_preserves {SMS MMS H : Type}
    (unmarshalSMS : xml.StartElement → list xml.Token → SMS + error)
    (unmarshalMMS : xml.StartElement → list xml.Token → MMS + error)
    (P : H → Prop) (d : MessageDecoder) (h h' : H) (o : outcome) :
  (∀ f sms h0, OnSMS d = Some f → P h0 → P (f sms h0).2) →
  (∀ f mms h0, OnMMS d = Some f → P h0 → P (f mms h0).2) →
  P h →
  MessageDecoder_Decode unmarshalSMS unmarshalMMS d h = Some (o, h') →
  P h'.
Proof.
  intros HSMS HMMS. unfold MessageDecoder_Decode.
  assert (Hloop : ∀ fuel decoder h0, P h0 →
            MessageDecoder_loop unmarshalSMS unmarshalMMS fuel (OnSMS d) (OnMMS d)
              decoder h0 = Some (o, h') → P h').
  { induction fuel as [|fuel IH]; intros decoder h0 Hh0; [discriminate|].
    cbn [MessageDecoder_loop].
    destruct (findElem fuel decoder ["sms"; "mms"]) as [[[child|err] d1]|];
      [| |discriminate].
    - repeat case_decide.
      + destruct (OnSMS d) as [f|] eqn:Hf.
        * destruct (xml.Decoder_DecodeElement unmarshalSMS fuel child d1)
            as [[[sms|err] d2]|]; [| |discriminate].
          -- pose proof (HSMS f sms h0 eq_refl Hh0) as Hnext.
             destruct (f sms h0) as [[err|] h1]; simpl in Hnext.
             ++ by intros [= <- <-].
             ++ by apply IH.
          -- by intros [= <- <-].
        * destruct (xml.Decoder_Skip fuel d1) as [[[err|] d2]|]; [| |discriminate].
          -- by intros [= <- <-].
          -- by apply IH.
      + destruct (OnMMS d) as [f|] eqn:Hf.
        * destruct (xml.Decoder_DecodeElement unmarshalMMS fuel child d1)
            as [[[mms|err] d2]|]; [| |discriminate].
          -- pose proof (HMMS f mms h0 eq_refl Hh0) as Hnext.
             destruct (f mms h0) as [[err|] h1]; simpl in Hnext.
             ++ by intros [= <- <-].
             ++ by apply IH.
          -- by intros [= <- <-].
        * destruct (xml.Decoder_Skip fuel d1) as [[[err|] d2]|]; [| |discriminate].
          -- by intros [= <- <-].
          -- by apply IH.
      + by intros [= <- <-].
    - destruct (errors_Is_EOF err); by intros [= <- <-]. }
  intros Hh. destruct (OnSMS d) eqn:HS, (OnMMS d) eqn:HM;
    try (by apply Hloop). by intros [= <- <-].
Qed.

Lemma tables_extend_refl {BoolValue : Type} (t : Tables BoolValue) : tables_extend t t.
Proof. by repeat split. Qed.

Lemma tables_extend_insert {BoolValue : Type} (before view : Tables BoolValue)
    (stmt : Stmt) (row : list (SqlArg BoolValue)) :
  tables_extend before view → tables_extend before (insert_row stmt row view).
Proof.
  intros (Hsms & Hmms & Hparts). destruct stmt; repeat split; simpl;
    try assumption; by apply prefix_app_r.
Qed.

Lemma HasPrefix_calls_not_sms (s : string) :
  strings.HasPrefix s "calls" = true → strings.HasPrefix s "sms" = false.
Proof.
  destruct s as [|c s]; [discriminate|]. simpl.
  destruct (decide ("c"%char = c)) as [<-|]; [|discriminate]. intros _.
  by rewrite decide_False.
Qed.

Ltac unfold_sqlite := unfold onSms, onMMS, Exec.

Section SqliteFurther.

Context {SMSMessageType SMSStatus ReadStatus BoolValue AddressType : Type}.
Local Abbreviation SMS := (SMS SMSMessageType SMSStatus ReadStatus BoolValue).
Local Abbreviation MMS := (MMS ReadStatus BoolValue AddressType).

Variable PhoneNumber_String : PhoneNumber → string.
Variable SMSMessageType_String : SMSMessageType → string.
Variable SMSStatus_String : SMSStatus → string.
Variable ReadStatus_String : ReadStatus → string.
Variable AddressType_String : AddressType → string.
Variable unmarshalSMS : xml.StartElement → list xml.Token → SMS + error.
Variable unmarshalMMS : xml.StartElement → list xml.Token → MMS + error.
Variable json_Marshal : list AddressInfo → string + error.
Variable base64_DecodeString : string → string + error.
Variable driver_error : Tables BoolValue → Stmt → list (SqlArg BoolValue) → option error.

Local Abbreviation sbrparser :=
  (main PhoneNumber_String SMSMessageType_String SMSStatus_String ReadStatus_String
     AddressType_String unmarshalSMS unmarshalMMS json_Marshal base64_DecodeString
     driver_error).
Local Abbreviation handle :=
  (handleFile PhoneNumber_String SMSMessageType_String SMSStatus_String
     ReadStatus_String AddressType_String unmarshalSMS unmarshalMMS json_Marshal
     base64_DecodeString driver_error).
Local Abbreviation loop :=
  (main_loop PhoneNumber_String SMSMessageType_String SMSStatus_String
     ReadStatus_String AddressType_String unmarshalSMS unmarshalMMS json_Marshal
     base64_DecodeString driver_error).
Local Abbreviation exec := (Exec driver_error).
Local Abbreviation on_sms :=
  (onSms PhoneNumber_String SMSMessageType_String SMSStatus_String
     ReadStatus_String driver_error).
Local Abbreviation on_mms :=
  (onMMS PhoneNumber_String ReadStatus_String AddressType_String json_Marshal
     base64_DecodeString driver_error).
Local Abbreviation parts_loop := (insert_parts base64_DecodeString driver_error).

Lemma Exec_run_ok (store : Tables BoolValue) (stmt : Stmt)
    (args : list (SqlArg BoolValue)) (s : StreamingOutput BoolValue) :
  run_ok store s → run_ok store (exec stmt args s).2.
Proof.
  intros Hok. unfold Exec.
  destruct (tx s) as [view|] eqn:Hview; [|exact Hok].
  destruct (driver_error view stmt args); [exact Hok|]. simpl.
  destruct Hok as [Hdb Htx]. split; [exact Hdb|].
  intros view' [= <-]. apply tables_extend_insert. by apply Htx.
Qed.

Lemma run_ok_counts (store : Tables BoolValue) (s : StreamingOutput BoolValue)
    (a b c : Z) :
  run_ok store s →
  run_ok store {| db := db s; tx := tx s; smsCount := a; mmsCount := b;
                  callCount := c |}.
Proof. intros [Hdb Htx]. by split. Qed.

Lemma onSms_run_ok (store : Tables BoolValue) (sms : SMS)
    (s : StreamingOutput BoolValue) :
  run_ok store s → run_ok store (on_sms sms s).2.
Proof.
  intros Hok. unfold onSms.
  match goal with
  | |- context [Exec _ ?stmt ?args ?s'] =>
      pose proof (Exec_run_ok store stmt args s') as Hexec;
      destruct (Exec driver_error stmt args s') as [[id|err] s'']
  end; simpl in *; apply Hexec; by apply run_ok_counts.
Qed.

Lemma insert_parts_run_ok (store : Tables BoolValue) (mmsID : Z) (parts : list Part)
    (s : StreamingOutput BoolValue) :
  run_ok store s → run_ok store (parts_loop mmsID parts s).2.
Proof.
  revert s. induction parts as [|part parts IH]; intros s Hok; [exact Hok|].
  cbn [insert_parts]. case_decide.
  - destruct (base64_DecodeString (part_Base64Data part)) as [bytes|err]; [|exact Hok].
    match goal with
    | |- context [Exec _ ?stmt ?args ?s'] =>
        pose proof (Exec_run_ok store stmt args s' Hok) as Hexec;
        destruct (Exec driver_error stmt args s') as [[id|err] s'']
    end; simpl in *; [by apply IH | exact Hexec].
  - match goal with
    | |- context [Exec _ ?stmt ?args ?s'] =>
        pose proof (Exec_run_ok store stmt args s' Hok) as Hexec;
        destruct (Exec driver_error stmt args s') as [[id|err] s'']
    end; simpl in *; [by apply IH | exact Hexec].
Qed.

Lemma onMMS_run_ok (store : Tables BoolValue) (mms : MMS)
    (s : StreamingOutput BoolValue) :
  run_ok store s → run_ok store (on_mms mms s).2.
Proof.
  intros Hok. unfold onMMS.
  destruct (json_Marshal _) as [joined|err]; [|by apply run_ok_counts].
  match goal with
  | |- context [Exec _ ?stmt ?args ?s'] =>
      pose proof (Exec_run_ok store stmt args s') as Hexec;
      destruct (Exec driver_error stmt args s') as [[id|err] s'']
  end; simpl in *.
  - apply insert_parts_run_ok. apply Hexec. by apply run_ok_counts.
  - apply Hexec. by apply run_ok_counts.
Qed.

Lemma handleFile_run_ok (store : Tables BoolValue) (fs : FileSystem)
    (xmlFilePath : string) (out out' : StreamingOutput BoolValue) (o : outcome) :
  run_ok store out →
  handle fs xmlFilePath out = Some (o, out') →
  run_ok store out'.
Proof.
  intros Hok. unfold handleFile. case_match; [by intros [= <- <-]|].
  destruct (OpenBackup fs xmlFilePath) as [f|err]; [|by intros [= <- <-]].
  case_match; [|by intros [= <- <-]].
  unfold StreamingOutput_MessageDecoder.
  destruct (NewMessageDecoder f) as [[decoder|err]|]; [| |discriminate].
  - apply MessageDecoder_Decode_preserves; [| |exact Hok]; cbn [OnSMS OnMMS].
    + intros f0 sms h0 [= <-]. apply onSms_run_ok.
    + intros f0 mms h0 [= <-]. apply onMMS_run_ok.
  - by intros [= <- <-].
Qed.

Lemma main_loop_run_ok (store : Tables BoolValue) (fs : FileSystem)
    (args : list string) (out out' : StreamingOutput BoolValue)
    (stderr stderr' : list stderr_line) (e : loop_end) :
  run_ok store out →
  loop fs args out stderr = Some (e, out', stderr') →
  run_ok store out'.
Proof.
  revert out stderr. induction args as [|p args IH]; intros out stderr Hok.
  - by intros [= <- <- <-].
  - cbn [main_loop]. destruct (Stat fs p) as [[|]|]; [by intros [= <- <- <-]| |by intros [= <- <- <-]].
    destruct (handle fs p out) as [[[[err|]|msg] out1]|] eqn:Hhandle; [| | |discriminate].
    + apply IH. eapply handleFile_run_ok; eassumption.
    + apply IH. eapply handleFile_run_ok; eassumption.
    + intros [= <- <- <-]. eapply handleFile_run_ok; eassumption.
Qed.

Lemma main_loop_completed (fs : FileSystem) (args : list string)
    (out out' : StreamingOutput BoolValue) (stderr stderr' : list stderr_line) :
  loop fs args out stderr = Some (Completed, out', stderr') →
  Forall (λ p, Stat fs p = Some false) args.
Proof.
  revert out stderr. induction args as [|p args IH]; intros out stderr; [constructor|].
  cbn [main_loop].
  destruct (Stat fs p) as [[|]|] eqn:Hstat; [discriminate| |discriminate].
  destruct (handle fs p out) as [[[[err|]|msg] out1]|]; [| |discriminate..];
    intros Hloop; (constructor; [exact Hstat | eapply IH; eassumption]).
Qed.

(** X9. A path that [os.Stat] rejects, or that is a directory, anywhere
    among the arguments makes the run end with the store exactly as it
    was before: the rows of the files imported before that path are
    rolled back with everything else. *)
Theorem main_bad_path_discards_run (fs : FileSystem) (store : Tables BoolValue)
    (args : list string) (p : string) :
  p ∈ args →
  Stat fs p ≠ Some false →
  ∃ stderr, sbrparser fs store args = Some (store, stderr).
Proof.
  intros Hin Hstat. unfold main.
  destruct args as [|p0 args]; [by apply elem_of_nil in Hin|].
  destruct (main_loop_total PhoneNumber_String SMSMessageType_String SMSStatus_String
              ReadStatus_String AddressType_String unmarshalSMS unmarshalMMS
              json_Marshal base64_DecodeString driver_error
              fs (p0 :: args) (NewStreamingOutput store) [])
    as ([[e out] stderr] & Hloop).
  rewrite Hloop.
  assert (Hok : run_ok store out).
  { eapply main_loop_run_ok; [|exact Hloop]. split; [reflexivity|].
    intros view [= <-]. apply tables_extend_refl. }
  destruct e as [| |msg].
  - apply main_loop_completed in Hloop.
    rewrite Forall_forall in Hloop. by apply Hloop in Hin.
  - eexists. simpl. by rewrite (proj1 Hok).
  - eexists. simpl. by rewrite (proj1 Hok).
Qed.

(** X10. A run only ever appends: whatever the files hold and however
    the run ends, every table of the store it leaves starts with the
    rows the table had before, unchanged and in the same order. *)
Theorem main_only_appends (fs : FileSystem) (store store' : Tables BoolValue)
    (args : list string) (stderr : list stderr_line) :
  sbrparser fs store args = Some (store', stderr) →
  tables_extend store store'.
Proof.
  unfold main. destruct args as [|p0 args].
  { intros [= <- <-]. apply tables_extend_refl. }
  destruct (loop fs (p0 :: args) (NewStreamingOutput store) [])
    as [[[e out] stderr0]|] eqn:Hloop; [|discriminate].
  assert (Hok : run_ok store out).
  { eapply main_loop_run_ok; [|exact Hloop]. split; [reflexivity|].
    intros view [= <-]. apply tables_extend_refl. }
  destruct Hok as [Hdb Htx].
  destruct e as [| |msg].
  - unfold Commit. destruct (tx out) as [view|] eqn:Hview.
    + intros [= <- <-]. simpl. by apply Htx.
    + intros [= <- <-]. simpl. rewrite Hdb. apply tables_extend_refl.
  - intros [= <- <-]. simpl. rewrite Hdb. apply tables_extend_refl.
  - intros [= <- <-]. simpl. rewrite Hdb. apply tables_extend_refl.
Qed.


Local Abbreviation sql_row :=
  (sms_sql_row (BoolValue:=BoolValue) PhoneNumber_String SMSMessageType_String
     SMSStatus_String ReadStatus_String).

(** What [Exec] does inside an open transaction. *)
Lemma Exec_open (stmt : Stmt) (args : list (SqlArg BoolValue))
    (s : StreamingOutput BoolValue) (view : Tables BoolValue) :
  tx s = Some view →
  (∃ err, exec stmt args s = (inr err, s))
  ∨ driver_error view stmt args = None
    ∧ exec stmt args s
      = (inl (last_insert_id stmt (insert_row stmt args view)),
         {| db := db s; tx := Some (insert_row stmt args view);
            smsCount := smsCount s; mmsCount := mmsCount s;
            callCount := callCount s |}).
Proof.
  intros Htx. unfold Exec. rewrite Htx.
  destruct (driver_error view stmt args) as [err|]; [left; by exists err|].
  right. by split.
Qed.

Lemma insert_parts_rows (mmsID : Z) (parts : list Part)
    (s : StreamingOutput BoolValue) (view : Tables BoolValue) :
  tx s = Some view →
  (parts_loop mmsID parts s).1 = None →
  ∃ rows,
    tx (parts_loop mmsID parts s).2
    = Some {| sms_table := sms_table view; mms_table := mms_table view;
              mms_parts_table := mms_parts_table view ++ rows |}
    ∧ length rows = length parts
    ∧ Forall (λ row, row !! 0 = Some (ArgInt64 mmsID)) rows.
Proof.
  revert s view. induction parts as [|part parts IH]; intros s view Htx.
  - intros _. exists []. simpl. rewrite app_nil_r. split_and!; [|done|constructor].
    rewrite Htx. by destruct view.
  - cbn [insert_parts].
    set (rawData := if decide (part_Base64Data part ≠ "") then _ else _).
    destruct rawData as [rawData|err]; [|discriminate].
    match goal with
    | |- context [Exec _ ?stmt ?args s] =>
        destruct (Exec_open stmt args s view Htx) as [[err ->]|[_ ->]]
    end; [discriminate|].
    intros Hrest.
    eapply IH in Hrest as (rows & Hview & Hlen & Hids); [|reflexivity].
    eexists (_ :: rows). split_and!.
    + rewrite Hview. simpl. by rewrite <- app_assoc.
    + simpl. by rewrite Hlen.
    + constructor; [reflexivity | exact Hids].
Qed.

Lemma onMMS_inserted (mms : MMS) (s : StreamingOutput BoolValue)
    (view : Tables BoolValue) :
  tx s = Some view →
  (on_mms mms s).1 = None →
  ∃ row part_rows,
    tx (on_mms mms s).2
    = Some {| sms_table := sms_table view;
              mms_table := mms_table view ++ [row];
              mms_parts_table := mms_parts_table view ++ part_rows |}
    ∧ length part_rows = length (mms_Parts mms)
    ∧ Forall (λ part_row,
                part_row !! 0 = Some (ArgInt64 (Z.of_nat (S (length (mms_table view))))))
        part_rows.
Proof.
  intros Htx. unfold onMMS.
  destruct (json_Marshal _) as [joined|err]; [|discriminate].
  match goal with
  | |- context [Exec _ ?stmt ?args ?s'] =>
      destruct (Exec_open stmt args s' view Htx) as [[err ->]|[_ ->]]
  end; [discriminate|].
  intros Hparts.
  eapply insert_parts_rows in Hparts as (rows & Hview & Hlen & Hids); [|reflexivity].
  eexists _, rows. split_and!; [exact Hview | exact Hlen |].
  unfold last_insert_id in Hids. simpl in Hids.
  rewrite length_app in Hids. simpl in Hids.
  by replace (length (mms_table view) + 1) with (S (length (mms_table view)))
    in Hids by lia.
Qed.

(** X12. An MMS that the sink takes in full adds exactly one row to the
    [mms] table and one row per part to the [mms_parts] table, and every
    one of these part rows carries, as [mms_id], the id of that new [mms]
    row; the [sms] table is left alone. *)
Theorem onMMS_rows (mms : MMS) (s : StreamingOutput BoolValue)
    (view : Tables BoolValue) :
  tx s = Some view →
  (on_mms mms s).1 = None →
  ∃ row part_rows,
    tx (on_mms mms s).2
    = Some {| sms_table := sms_table view;
              mms_table := mms_table view ++ [row];
              mms_parts_table := mms_parts_table view ++ part_rows |}
    ∧ length part_rows = length (mms_Parts mms)
    ∧ Forall (λ part_row,
                part_row !! 0 = Some (ArgInt64 (Z.of_nat (S (length (mms_table view))))))
        part_rows.
Proof. apply onMMS_inserted. Qed.

Lemma onSms_accepted (sms : SMS) (s : StreamingOutput BoolValue)
    (view : Tables BoolValue) :
  (∀ v stmt args, driver_error v stmt args = None) →
  tx s = Some view →
  on_sms sms s
  = (None, {| db := db s; tx := Some (insert_row insertSMS (sql_row sms) view);
              smsCount := wrap64 (smsCount s + 1); mmsCount := mmsCount s;
              callCount := callCount s |}).
Proof.
  intros Hdriver Htx. unfold onSms, Exec. cbn [tx]. rewrite Htx, Hdriver. reflexivity.
Qed.

Lemma insert_parts_accepted (mmsID : Z) (parts : list Part)
    (s : StreamingOutput BoolValue) (view : Tables BoolValue) :
  (∀ v stmt args, driver_error v stmt args = None) →
  (∀ data, ∃ bytes, base64_DecodeString data = inl bytes) →
  tx s = Some view →
  (parts_loop mmsID parts s).1 = None.
Proof.
  intros Hdriver Hbase64. revert s view.
  induction parts as [|part parts IH]; intros s view Htx; [reflexivity|].
  cbn [insert_parts].
  destruct (Hbase64 (part_Base64Data part)) as [bytes ->].
  set (rawData := if decide (part_Base64Data part ≠ "") then _ else _).
  assert (HrawData : ∃ r, rawData = inl (B:=error) r)
    by (unfold rawData; case_decide; eexists; reflexivity).
  destruct HrawData as [r ->].
  unfold Exec. rewrite Htx, Hdriver. eapply IH. reflexivity.
Qed.

Lemma onMMS_accepted (mms : MMS) (s : StreamingOutput BoolValue)
    (view : Tables BoolValue) :
  (∀ v stmt args, driver_error v stmt args = None) →
  (∀ addresses, ∃ joined, json_Marshal addresses = inl joined) →
  (∀ data, ∃ bytes, base64_DecodeString data = inl bytes) →
  tx s = Some view →
  ∃ s' view',
    on_mms mms s = (None, s')
    ∧ tx s' = Some view'
    ∧ sms_table view' = sms_table view
    ∧ length (mms_table view') = S (length (mms_table view)).
Proof.
  intros Hdriver Hjson Hbase64 Htx.
  assert (Hok : (on_mms mms s).1 = None).
  { unfold onMMS.
    match goal with
    | |- context [json_Marshal ?l] => destruct (Hjson l) as [joined ->]
    end.
    unfold Exec. cbn [tx]. rewrite Htx, Hdriver.
    eapply insert_parts_accepted; [assumption..|reflexivity]. }
  destruct (onMMS_inserted mms s view Htx Hok) as (row & rows & Hview & _ & _).
  destruct (on_mms mms s) as [err s'] eqn:Hrun. simpl in Hok, Hview. subst err.
  eexists s', _. split_and!; [reflexivity | exact Hview | reflexivity |].
  simpl. rewrite length_app. simpl. lia.
Qed.

(** With a driver that takes every insert, the two handlers over the
    children of the root add one [sms] row per [sms] child, in document
    order, and one [mms] row per [mms] child. *)
Lemma dispatch_sqlite (children : list Node) :
  (∀ v stmt args, driver_error v stmt args = None) →
  (∀ addresses, ∃ joined, json_Marshal addresses = inl joined) →
  (∀ data, ∃ bytes, base64_DecodeString data = inl bytes) →
  Forall (decodable unmarshalSMS unmarshalMMS true true) children →
  ∀ (s : StreamingOutput BoolValue) (view : Tables BoolValue),
    tx s = Some view →
    ∃ s' view',
      dispatch unmarshalSMS unmarshalMMS (Some on_sms) (Some on_mms) children s
      = (None, s')
      ∧ tx s' = Some view'
      ∧ sms_table view'
        = sms_table view ++ map sql_row (omap (sms_of unmarshalSMS) children)
      ∧ length (mms_table view')
        = length (mms_table view) + length (omap (mms_of unmarshalMMS) children).
Proof.
  intros Hdriver Hjson Hbase64 Hchildren.
  induction Hchildren as [|c children Hc _ IH]; intros s view Htx.
  - exists s, view. simpl. rewrite app_nil_r. split_and!; done || lia.
  - destruct c as [se content|data|data|target inst|data];
      try (cbn [dispatch omap list_omap sms_of mms_of]; by apply IH).
    destruct Hc as [Hsms Hmms].
    cbn [dispatch omap list_omap sms_of mms_of].
    destruct (decide (xml.Name_Local se = "sms")) as [Hname|Hname].
    + destruct (Hsms Hname eq_refl) as [sms ->].
      rewrite (onSms_accepted sms s view Hdriver Htx).
      destruct (IH {| db := db s;
                      tx := Some (insert_row insertSMS (sql_row sms) view);
                      smsCount := wrap64 (smsCount s + 1); mmsCount := mmsCount s;
                      callCount := callCount s |}
                  (insert_row insertSMS (sql_row sms) view) eq_refl)
        as (s' & view' & Hrun & Hview & Hrows & Hcount).
      exists s', view'. split_and!; [exact Hrun | exact Hview | |exact Hcount].
      rewrite Hrows. simpl. by rewrite <- app_assoc.
    + destruct (decide (xml.Name_Local se = "mms")) as [Hname'|Hname'];
        [|by apply IH].
      destruct (Hmms Hname' eq_refl) as [mms ->].
      destruct (onMMS_accepted mms s view Hdriver Hjson Hbase64 Htx)
        as (s1 & view1 & -> & Hview1 & Hsms1 & Hmms1).
      destruct (IH s1 view1 Hview1) as (s' & view' & Hrun & Hview & Hrows & Hcount).
      exists s', view'. split_and!; [exact Hrun | exact Hview | |].
      * by rewrite Hrows, Hsms1.
      * rewrite Hcount, Hmms1. simpl. lia.
Qed.


End SqliteFurther.

Lemma main_bad_path_discards_run_witness :
  "backups/missing.xml" ∈ ["backups/sms-clean.xml"; "backups/missing.xml"]
  ∧ Stat Example.fs "backups/missing.xml" ≠ Some false
  ∧ ∃ stderr,
      Example.main Example.old_store ["backups/sms-clean.xml"; "backups/missing.xml"]
      = Some (Example.old_store, stderr).
Proof.
  assert (Hin : "backups/missing.xml"
                ∈ ["backups/sms-clean.xml"; "backups/missing.xml"])
    by (apply elem_of_cons; right; apply elem_of_cons; by left).
  assert (Hstat : Stat Example.fs "backups/missing.xml" ≠ Some false)
    by (vm_compute; discriminate).
  split_and!; [exact Hin | exact Hstat |].
  exact (main_bad_path_discards_run id Sample.unit_String Sample.unit_String
           Sample.unit_String Sample.unit_String Sample.unmarshalSMS
           Sample.unmarshalMMS (λ _, inl "[]") (λ b, inl b) (λ _ _ _, None)
           Example.fs Example.old_store _ _ Hin Hstat).
Defined.

Lemma main_only_appends_witness :
  ∃ store' stderr,
    Example.main Example.old_store ["backups/sms-truncated.xml"; "backups/sms-clean.xml"]
    = Some (store', stderr)
    ∧ length (sms_table store') = 5
    ∧ tables_extend Example.old_store store'.
Proof.
  eexists _, _.
  assert (Hrun : ∀ r,
            r = Example.main Example.old_store
                  ["backups/sms-truncated.xml"; "backups/sms-clean.xml"] →
            ∀ store' stderr, r = Some (store', stderr) →
            tables_extend Example.old_store store').
  { intros r -> store' stderr Hr.
    exact (main_only_appends id Sample.unit_String Sample.unit_String
             Sample.unit_String Sample.unit_String Sample.unmarshalSMS
             Sample.unmarshalMMS (λ _, inl "[]") (λ b, inl b) (λ _ _ _, None)
             Example.fs Example.old_store store' _ stderr Hr). }
  split_and!; [vm_compute; reflexivity | reflexivity |].
  eapply Hrun; [reflexivity | vm_compute; reflexivity].
Defined.


Lemma onMMS_rows_witness :
  let mms := Sample.mms "5550100~5550199" "Alice, Bob"
               [ mkPart "application/smil" "null" "null" "null" "null" "";
                 mkPart "image/jpeg" "cat.jpg" "null" "null" "null" "/9j/4AAQ" ] in
  let s := NewStreamingOutput Example.old_store in
  tx s = Some Example.old_store
  ∧ (Example.onMMS mms s).1 = None
  ∧ ∃ row part_rows,
      tx (Example.onMMS mms s).2
      = Some {| sms_table := sms_table Example.old_store;
                mms_table := [row]; mms_parts_table := part_rows |}
      ∧ length part_rows = 2
      ∧ Forall (λ part_row, part_row !! 0 = Some (ArgInt64 1)) part_rows.
Proof.
  intros mms s.
  assert (Htx : tx s = Some Example.old_store) by reflexivity.
  assert (Hok : (Example.onMMS mms s).1 = None) by reflexivity.
  split_and!; [exact Htx | exact Hok |].
  exact (onMMS_rows id Sample.unit_String Sample.unit_String
           (λ _, inl "[]") (λ b, inl b) (λ _ _ _, None) mms s Example.old_store Htx Hok).
Defined.


(** ** The flat-file sinks: calls, and a writer that fails *)

Section CallFlatFileProperties.

Context {CallType : Type}.
Local Abbreviation Call := (Call CallType).

Variable PhoneNumber_String : PhoneNumber → string.
Variable AndroidTS_String : AndroidTS → string.
Variable CallType_String : CallType → string.
Variable RemoveCommasBeforeSuffixes : string → string.

Local Abbreviation calls_loop :=
  (write_all_calls (W:=list string) PhoneNumber_String AndroidTS_String
     CallType_String RemoveCommasBeforeSuffixes).
Local Abbreviation generate :=
  (GenerateCallOutput (W:=list string) PhoneNumber_String AndroidTS_String
     CallType_String RemoveCommasBeforeSuffixes).

Lemma write_all_calls_chunks (l : list Call) (k : nat) (f : list string) :
  calls_loop {| calls_f := f; calls_idx := wrap64 (Z.of_nat k) |} l
  = (None,
     {| calls_f :=
          f ++ imap (λ i call,
                 strings.Join
                   [ strconv.Itoa (wrap64 (Z.of_nat (k + i)));
                     PhoneNumber_String (call_Number call);
                     strconv.Itoa (call_Duration call);
                     AndroidTS_String (call_Date call);
                     CallType_String (call_Type call);
                     call_ReadableDate call;
                     RemoveCommasBeforeSuffixes (call_ContactName call) ] tab
                 +:+ newline) l;
        calls_idx := wrap64 (Z.of_nat (k + length l)) |}).
Proof.
  revert k f. induction l as [|call l IH]; intros k f.
  - simpl. by rewrite app_nil_r, Nat.add_0_r.
  - cbn [write_all_calls]. unfold CallOutput_Write, fmt.Fprintln, Write.
    unfold chunk_writer at 1. cbn [calls_f calls_idx].
    rewrite wrap64_succ.
    replace (Z.of_nat k + 1)%Z with (Z.of_nat (S k)) by lia.
    rewrite IH. rewrite imap_cons. rewrite <- app_assoc. cbn [app].
    rewrite Nat.add_0_r. f_equal. f_equal.
    + f_equal. f_equal. apply imap_ext. intros i x _. unfold compose.
      by replace (k + S i) with (S k + i) by lia.
    + f_equal. f_equal. simpl. lia.
Qed.

(** X14. Through one [CallOutput] the writer receives the header line
    once, first, and then one line per call: the [i]-th call (from 0)
    gives the decimal rendering of [i] followed by number, duration in
    decimal, date, type, readable date and contact name, tab-separated
    (for at most 2^63 calls, the counter being a Go [int]). *)
Theorem CallOutput_header_then_indexed_rows (calls : list Call) :
  (Z.of_nat (length calls) ≤ 2 ^ 63)%Z →
  generate [] calls
  = (None,
     (strings.Join
        [ "Call Index #"; "Number"; "Duration (Seconds)"; "Date"; "Type";
          "Readable Date"; "Contact Name" ] tab +:+ newline)
     :: imap (λ i call,
          strings.Join
            [ strconv.Itoa (Z.of_nat i);
              PhoneNumber_String (call_Number call);
              strconv.Itoa (call_Duration call);
              AndroidTS_String (call_Date call);
              CallType_String (call_Type call);
              call_ReadableDate call;
              RemoveCommasBeforeSuffixes (call_ContactName call) ] tab
          +:+ newline) calls).
Proof.
  intros Hlen. unfold GenerateCallOutput, NewCallOutput, fmt.Fprintln, Write.
  unfold chunk_writer at 1. cbn [app].
  pose proof (write_all_calls_chunks calls 0
                [strings.Join call_headers tab +:+ newline]) as Hall.
  rewrite wrap64_small in Hall by (simpl; lia).
  change (Z.of_nat 0) with 0%Z in Hall. rewrite Hall. cbn [calls_f app].
  f_equal. f_equal. apply imap_ext. intros i call Hi.
  apply lookup_lt_Some in Hi. cbn [Nat.add].
  rewrite wrap64_small by lia. reflexivity.
Qed.

End CallFlatFileProperties.

Lemma CallOutput_header_then_indexed_rows_witness :
  let calls := [ mkCall unit "5550100" 61 "1518548142000" tt "Feb 13, 2018" "Alice";
                 mkCall unit "5550199" 0 "1518548143000" tt "Feb 13, 2018" "Bob" ] in
  (Z.of_nat (length calls) ≤ 2 ^ 63)%Z
  ∧ ∃ header row0 row1,
      GenerateCallOutput (W:=list string) id id Sample.unit_String id [] calls
      = (None, [header; row0; row1])
      ∧ strings.HasPrefix row0 ("0" +:+ tab +:+ "5550100" +:+ tab +:+ "61") = true
      ∧ strings.HasPrefix row1 ("1" +:+ tab +:+ "5550199" +:+ tab +:+ "0") = true.
Proof.
  intros calls.
  assert (Hlen : (Z.of_nat (length calls) ≤ 2 ^ 63)%Z) by (simpl; lia).
  split; [exact Hlen|].
  pose proof (CallOutput_header_then_indexed_rows id id Sample.unit_String id
                calls Hlen) as Hrows.
  do 3 eexists. split; [exact Hrows|]. split; reflexivity.
Defined.

Section FailingWriter.

Context {SMSMessageType SMSStatus ReadStatus BoolValue : Type}.
Local Abbreviation SMS := (SMS SMSMessageType SMSStatus ReadStatus BoolValue).

Variable PhoneNumber_String : PhoneNumber → string.
Variable SMSMessageType_String : SMSMessageType → string.
Variable SMSStatus_String : SMSStatus → string.
Variable ReadStatus_String : ReadStatus → string.
Variable AndroidTS_String : AndroidTS → string.
Variable BoolValue_String : BoolValue → string.
Variable CleanupMessageBody : string → string.
Variable RemoveCommasBeforeSuffixes : string → string.

Local Abbreviation write_all_on :=
  (λ W (writer : Writer W),
     write_all (W:=W) PhoneNumber_String SMSMessageType_String
       SMSStatus_String ReadStatus_String AndroidTS_String BoolValue_String
       CleanupMessageBody RemoveCommasBeforeSuffixes).
Local Abbreviation generate_on :=
  (λ W (writer : Writer W),
     GenerateSMSOutput (W:=W) PhoneNumber_String SMSMessageType_String
       SMSStatus_String ReadStatus_String AndroidTS_String BoolValue_String
       CleanupMessageBody RemoveCommasBeforeSuffixes).

(** On the writer that keeps its chunks nothing fails, and what was
    written before stays in front. *)
Lemma write_all_chunk_writer_app (l : list SMS) (idx : Z) (f : list string) :
  (write_all_on (list string) chunk_writer {| out_f := f; out_idx := idx |} l).1 = None
  ∧ out_f (write_all_on (list string) chunk_writer {| out_f := f; out_idx := idx |} l).2
    = f ++ out_f (write_all_on (list string) chunk_writer
                    {| out_f := []; out_idx := idx |} l).2.
Proof.
  revert idx f. induction l as [|sms l IH]; intros idx f.
  - simpl. by rewrite app_nil_r.
  - cbn [write_all]. unfold SMSOutput_Write, fmt.Fprintln, Write.
    unfold chunk_writer at 1 3 5. cbn [out_f out_idx app].
    destruct (IH (wrap64 (idx + 1)) (f ++ [strings.Join (sms_row PhoneNumber_String
                SMSMessageType_String SMSStatus_String ReadStatus_String
                AndroidTS_String BoolValue_String CleanupMessageBody
                RemoveCommasBeforeSuffixes idx sms) tab +:+ newline]))
      as [Herr Hout].
    destruct (IH (wrap64 (idx + 1)) [strings.Join (sms_row PhoneNumber_String
                SMSMessageType_String SMSStatus_String ReadStatus_String
                AndroidTS_String BoolValue_String CleanupMessageBody
                RemoveCommasBeforeSuffixes idx sms) tab +:+ newline])
      as [_ Hout'].
    unfold sms_row in *. split; [exact Herr|].
    rewrite Hout, Hout'. by rewrite <- app_assoc.
Qed.

Lemma write_all_chunk_writer_cons (sms : SMS) (l : list SMS) (idx : Z) :
  out_f (write_all_on (list string) chunk_writer
           {| out_f := []; out_idx := idx |} (sms :: l)).2
  = (strings.Join (sms_row PhoneNumber_String SMSMessageType_String
                     SMSStatus_String ReadStatus_String AndroidTS_String
                     BoolValue_String CleanupMessageBody
                     RemoveCommasBeforeSuffixes idx sms) tab +:+ newline)
    :: out_f (write_all_on (list string) chunk_writer
                {| out_f := []; out_idx := wrap64 (idx + 1) |} l).2.
Proof.
  cbn [write_all]. unfold SMSOutput_Write, fmt.Fprintln, Write.
  unfold chunk_writer at 1. cbn [out_f out_idx app].
  destruct (write_all_chunk_writer_app l (wrap64 (idx + 1))
              [strings.Join (sms_row PhoneNumber_String SMSMessageType_String
                 SMSStatus_String ReadStatus_String AndroidTS_String
                 BoolValue_String CleanupMessageBody
                 RemoveCommasBeforeSuffixes idx sms) tab +:+ newline])
    as [_ Hout].
  unfold sms_row in *. rewrite Hout. reflexivity.
Qed.

Lemma write_all_chunk_writer_length (l : list SMS) (idx : Z) :
  length (out_f (write_all_on (list string) chunk_writer
                   {| out_f := []; out_idx := idx |} l).2) = length l.
Proof.
  revert idx. induction l as [|sms l IH]; intros idx; [reflexivity|].
  rewrite write_all_chunk_writer_cons. cbn [length]. by rewrite IH.
Qed.

(** The loop on a disk with room for [disk_room d] writes, against the
    lines [L] the same loop hands to a writer that takes everything. *)
Lemma write_all_disk (l : list SMS) (idx : Z) (d : Disk) :
  let L := out_f (write_all_on (list string) chunk_writer
                    {| out_f := []; out_idx := idx |} l).2 in
  let r := write_all_on Disk disk_writer {| out_f := d; out_idx := idx |} l in
  r.1 = (if decide (length l ≤ disk_room d) then None else Some ENOSPC)
  ∧ out_f r.2
    = {| disk_written := disk_written d ++ take (disk_room d) L;
         disk_refused := disk_refused d ++ take 1 (drop (disk_room d) L);
         disk_room := disk_room d - length l |}.
Proof.
  revert idx d. induction l as [|sms l IH]; intros idx d L r.
  - subst L r. cbn [write_all fst snd out_f length].
    rewrite decide_True by lia. split; [reflexivity|].
    rewrite take_nil, drop_nil, take_nil, !app_nil_r, Nat.sub_0_r.
    by destruct d.
  - subst L. rewrite write_all_chunk_writer_cons. subst r.
    cbn [write_all]. unfold SMSOutput_Write, fmt.Fprintln, Write.
    unfold disk_writer at 1 3. cbn [out_f out_idx].
    destruct (disk_room d) as [|room] eqn:Hroom.
    + cbn [fst snd out_f length take drop].
      rewrite decide_False by lia. split; [reflexivity|].
      rewrite app_nil_r. reflexivity.
    + specialize (IH (wrap64 (idx + 1))
                    {| disk_written :=
                         disk_written d ++
                         [strings.Join (sms_row PhoneNumber_String
                            SMSMessageType_String SMSStatus_String
                            ReadStatus_String AndroidTS_String BoolValue_String
                            CleanupMessageBody RemoveCommasBeforeSuffixes
                            idx sms) tab +:+ newline];
                       disk_refused := disk_refused d; disk_room := room |}).
      cbn zeta in IH. cbn [disk_written disk_refused disk_room] in IH.
      destruct IH as [Herr Hout]. unfold sms_row in *.
      rewrite Herr, Hout. cbn [length take drop]. split.
      * destruct (decide (length l ≤ room)), (decide (S (length l) ≤ S room));
          (reflexivity || lia).
      * rewrite <- app_assoc. reflexivity.
Qed.

(** X15. When the device takes only [room] writes and there are at least
    [room] records, [GenerateSMSOutput] returns the device's error; the
    device has then taken exactly the first [room] of the lines that a
    writer accepting everything receives, was offered the next line once,
    and was offered nothing after it. *)
Theorem GenerateSMSOutput_stops_at_first_write_error
    (records : list SMS) (room : nat) :
  room ≤ length records →
  let lines := (generate_on (list string) chunk_writer [] records).2 in
  generate_on Disk disk_writer
    {| disk_written := []; disk_refused := []; disk_room := room |} records
  = (Some ENOSPC,
     {| disk_written := take room lines;
        disk_refused := take 1 (drop room lines);
        disk_room := 0 |}).
Proof.
  intros Hroom lines.
  assert (Hlines : lines
                   = (strings.Join sms_headers tab +:+ newline)
                     :: out_f (write_all_on (list string) chunk_writer
                                 {| out_f := []; out_idx := 0 |} records).2).
  { subst lines. unfold GenerateSMSOutput, NewSMSOutput, fmt.Fprintln, Write.
    unfold chunk_writer at 1. cbn [app].
    destruct (write_all_chunk_writer_app records 0
                [strings.Join sms_headers tab +:+ newline]) as [_ Hout].
    cbn [app] in Hout. rewrite <- Hout.
    match goal with
    | |- context [let '(_, _) := ?w in _] => by destruct w
    end. }
  rewrite Hlines. clear lines Hlines.
  unfold GenerateSMSOutput, NewSMSOutput, fmt.Fprintln, Write.
  unfold disk_writer at 1. cbn [disk_room disk_written disk_refused app].
  destruct room as [|room]; [reflexivity|].
  pose proof (write_all_disk records 0
                {| disk_written := [strings.Join sms_headers tab +:+ newline];
                   disk_refused := []; disk_room := room |}) as Hdisk.
  cbn zeta in Hdisk. cbn [disk_room disk_written disk_refused] in Hdisk.
  destruct Hdisk as [Herr Hout].
  match goal with
  | |- context [let '(_, _) := ?w in _] =>
      destruct w as [derr dout]
  end.
  cbn [fst snd] in Herr, Hout. rewrite Hout, Herr.
  rewrite decide_False by lia. cbn [app take drop].
  do 2 f_equal. lia.
Qed.

End FailingWriter.

Lemma GenerateSMSOutput_stops_at_first_write_error_witness :
  let records := [ Sample.sms "5550100" "Alice"; Sample.sms "5550199" "Bob";
                   Sample.sms "5550100" "Alice" ] in
  2 ≤ length records
  ∧ ∃ header row0 row1 row2,
      Sample.GenerateSMSOutput records = (None, [header; row0; row1; row2])
      ∧ GenerateSMSOutput (W:=Disk) id Sample.unit_String Sample.unit_String
          Sample.unit_String id Sample.unit_String id id
          {| disk_written := []; disk_refused := []; disk_room := 2 |} records
        = (Some ENOSPC,
           {| disk_written := [header; row0]; disk_refused := [row1];
              disk_room := 0 |}).
Proof.
  intros records.
  assert (Hroom : 2 ≤ length records) by (simpl; lia).
  split; [exact Hroom|].
  pose proof (GenerateSMSOutput_stops_at_first_write_error id
                Sample.unit_String Sample.unit_String Sample.unit_String id
                Sample.unit_String id id records 2 Hroom) as Hstop.
  do 4 eexists. split; [reflexivity|]. exact Hstop.
Defined.

(** ** The call decoder *)

Section CallDecodeProperties.

Context {Call H : Type}.
Variable unmarshalCall : xml.StartElement → list xml.Token → Call + error.

Local Abbreviation calls_loop := (CallDecoder_loop (H:=H) unmarshalCall).
Local Abbreviation dispatched := (dispatch_calls (H:=H) unmarshalCall).

Lemma CallDecoder_loop_mono (fuel fuel' : nat) OnCall (d : xml.Decoder) (h : H) r :
  calls_loop fuel OnCall d h = Some r → fuel ≤ fuel' →
  calls_loop fuel' OnCall d h = Some r.
Proof.
  revert fuel' d h. induction fuel as [|fuel IH]; intros fuel' d h; [discriminate|].
  destruct fuel' as [|fuel']; [lia|]. intros Hrun Hle.
  cbn [CallDecoder_loop] in *.
  destruct (findElem fuel d _) as [[[child|err] d1]|] eqn:Hfind; [| |discriminate];
    rewrite (findElem_mono _ fuel' _ _ _ Hfind) by lia; [|assumption].
  destruct (xml.Decoder_DecodeElement unmarshalCall fuel child d1)
    as [[[call|err] d2]|] eqn:Hdec; [| |discriminate];
    rewrite (DecodeElement_mono _ _ fuel' _ _ _ Hdec) by lia; [|assumption].
  destruct (OnCall call h) as [[err|] h']; [assumption|].
  apply IH; [assumption | lia].
Qed.

Lemma CallDecoder_loop_total (fuel : nat) OnCall (d : xml.Decoder) (h : H) :
  S (length (xml.input d)) < fuel →
  ∃ r, calls_loop fuel OnCall d h = Some r.
Proof.
  revert d h. induction fuel as [|fuel IH]; intros d h Hlen; [lia|].
  cbn [CallDecoder_loop].
  destruct (findElem_total fuel d ["call"]) as ([child|err] & d1 & -> & Hd1);
    [lia| |destruct (errors_Is_EOF err); eexists; reflexivity].
  destruct (DecodeElement_total unmarshalCall fuel child d1)
    as ([call|err] & d2 & -> & Hd2); [lia| |eexists; reflexivity].
  destruct (OnCall call h) as [[err|] h']; [eexists; reflexivity|].
  apply IH. lia.
Qed.

Lemma CallDecoder_loop_fuel (fuel fuel' : nat) OnCall (d : xml.Decoder) (h : H) :
  S (length (xml.input d)) < fuel → S (length (xml.input d)) < fuel' →
  calls_loop fuel OnCall d h = calls_loop fuel' OnCall d h.
Proof.
  intros Hf Hf'.
  destruct (CallDecoder_loop_total (S (S (length (xml.input d)))) OnCall d h)
    as (r & Hrun); [lia|].
  rewrite (CallDecoder_loop_mono _ fuel _ _ _ _ Hrun) by lia.
  by rewrite (CallDecoder_loop_mono _ fuel' _ _ _ _ Hrun) by lia.
Qed.

Lemma CallDecoder_loop_call OnCall (se : xml.StartElement)
    (content : list Node) (rest : list xml.Token) (stk : list string) (h : H)
    (fuel : nat) :
  xml.Name_Local se = "call" →
  S (length (tokens (Element se content) ++ rest)) < fuel →
  calls_loop fuel OnCall
    {| xml.input := tokens (Element se content) ++ rest; xml.stk := stk |} h
  = match unmarshalCall se (tokens_of content) with
    | inr err => Some (Return (Some (Errorf "unable to decode call element" err)), h)
    | inl call =>
        match OnCall call h with
        | (Some err, h) => Some (Return (Some err), h)
        | (None, h) =>
            calls_loop fuel OnCall {| xml.input := rest; xml.stk := stk |} h
        end
    end.
Proof.
  intros Hname Hlen. rewrite tokens_Element in *. simpl in Hlen.
  rewrite length_app in Hlen. simpl in Hlen.
  assert (Hfuel : ∀ h', calls_loop (pred fuel) OnCall
                          {| xml.input := rest; xml.stk := stk |} h'
                        = calls_loop fuel OnCall
                            {| xml.input := rest; xml.stk := stk |} h').
  { intros h'. apply CallDecoder_loop_fuel; simpl; lia. }
  destruct fuel as [|[|fuel]]; [lia..|]. cbn [pred] in Hfuel.
  cbn [CallDecoder_loop].
  rewrite findElem_finds by (rewrite Hname; apply list_elem_of_singleton; reflexivity).
  rewrite DecodeElement_content by (rewrite length_app; simpl; lia).
  destruct (unmarshalCall se (tokens_of content)) as [call|err]; [|reflexivity].
  destruct (OnCall call h) as [[err|] h']; [reflexivity|]. apply Hfuel.
Qed.

(** The loop of [CallDecoder.Decode] over the token sequence of
    [children] does what [dispatch_calls] does over the children
    themselves, then goes on with what follows them. *)
Lemma CallDecoder_loop_children OnCall (children : list Node) :
  ∀ (rest : list xml.Token) (stk : list string) (h : H) (fuel : nat),
    S (length (tokens_of children ++ rest)) < fuel →
    calls_loop fuel OnCall
      {| xml.input := tokens_of children ++ rest; xml.stk := stk |} h
    = match dispatched OnCall children h with
      | (Some err, h') => Some (Return (Some err), h')
      | (None, h') =>
          calls_loop fuel OnCall {| xml.input := rest; xml.stk := stk |} h'
      end.
Proof.
  induction children as [|c children IH]; intros rest stk h fuel Hlen; [reflexivity|].
  rewrite tokens_of_cons, <- app_assoc in *.
  assert (Hrest : S (length (tokens_of children ++ rest)) < fuel)
    by (rewrite length_app in Hlen; lia).
  assert (Hother : named ["call"] c = false →
            calls_loop fuel OnCall
              {| xml.input := tokens c ++ tokens_of children ++ rest; xml.stk := stk |} h
            = match dispatched OnCall children h with
              | (Some err, h') => Some (Return (Some err), h')
              | (None, h') =>
                  calls_loop fuel OnCall {| xml.input := rest; xml.stk := stk |} h'
              end).
  { intros Hnamed. destruct fuel as [|fuel]; [lia|].
    cbn [CallDecoder_loop]. rewrite findElem_skips_node by (assumption || lia).
    specialize (IH rest stk h (S fuel) Hrest). cbn [CallDecoder_loop] in IH.
    exact IH. }
  destruct c as [se content|data|data|target inst|data];
    try (cbn [dispatch_calls]; by apply Hother).
  cbn [dispatch_calls].
  destruct (decide (xml.Name_Local se = "call")) as [Hcall|Hcall].
  - rewrite CallDecoder_loop_call by assumption.
    destruct (unmarshalCall se (tokens_of content)) as [call|err]; [|reflexivity].
    destruct (OnCall call h) as [[err|] h']; [reflexivity | by apply IH].
  - apply Hother. simpl. apply bool_decide_eq_false.
    rewrite list_elem_of_singleton. exact Hcall.
Qed.

(** X16. A [call] child that does not unmarshal ends [Decode] with the
    unmarshalling error wrapped in "unable to decode call element"; the
    handler has seen the calls before it, is not invoked for it, and
    nothing behind it is read. *)
Theorem CallDecoder_stops_at_decode_error
    (pre content post : list Node) (se : xml.StartElement) (rest : list xml.Token)
    (stk : list string) (info : BackupInfo)
    (forCall : Call → H → option error * H) (h h1 : H) (err : error) :
  xml.Name_Local se = "call" →
  dispatched forCall pre h = (None, h1) →
  unmarshalCall se (tokens_of content) = inr err →
  CallDecoder_Decode unmarshalCall
    {| cd_decoder :=
         {| xml.input := tokens_of pre ++ tokens (Element se content)
                         ++ tokens_of post ++ rest;
            xml.stk := stk |};
       cd_BackupInfo := info; OnCall := Some forCall |} h
  = Some (Return (Some (Errorf "unable to decode call element" err)), h1).
Proof.
  intros Hname Hpre Hdecoded.
  unfold CallDecoder_Decode. cbn [OnCall cd_decoder].
  rewrite CallDecoder_loop_children by (unfold fuel_for; simpl; lia).
  rewrite Hpre.
  rewrite CallDecoder_loop_call
    by (assumption || (unfold fuel_for; cbn [xml.input];
                       repeat (rewrite length_app; cbn [length]); lia)).
  by rewrite Hdecoded.
Qed.

End CallDecodeProperties.

Section CallEmissionOrder.

Context {Call : Type}.
Variable unmarshalCall : xml.StartElement → list xml.Token → Call + error.

(** The handler that collects, in a document where every [call] child
    unmarshals, is handed the calls of the children. *)
Lemma dispatch_calls_collects (children : list Node) (seen : list Call) :
  Forall (λ n, named ["call"] n = true → is_Some (call_of unmarshalCall n)) children →
  dispatch_calls unmarshalCall (λ call calls, (None, calls ++ [call])) children seen
  = (None, seen ++ omap (call_of unmarshalCall) children).
Proof.
  intros Hchildren. revert seen.
  induction Hchildren as [|c children Hc _ IH]; intros seen.
  - simpl. by rewrite app_nil_r.
  - destruct c as [se content|data|data|target inst|data];
      try (cbn [dispatch_calls omap list_omap call_of]; apply IH).
    cbn [dispatch_calls omap list_omap call_of] in *.
    destruct (decide (xml.Name_Local se = "call")) as [Hcall|Hcall].
    + destruct Hc as [call Hc].
      { apply bool_decide_eq_true. by apply list_elem_of_singleton. }
      destruct (unmarshalCall se (tokens_of content)) as [call'|err];
        [|discriminate Hc].
      rewrite IH. by rewrite <- app_assoc.
    + apply IH.
Qed.

(** X17. Calls reach [OnCall] in document order. For a document whose
    root [calls] element is preceded by no other [calls] element and
    followed by no [call] element, and whose [call] children all
    unmarshal, [NewCallDecoder] returns a decoder, and [Decode] with a
    handler that collects returns nil after handing over exactly the
    calls of the children of the root, in their order; children of other
    names, with all their content, give no call. *)
Theorem CallDecoder_emits_in_document_order
    (prolog children epilogue : list Node) (attrs : list xml.Attr) :
  Forall (λ n, named ["calls"] n = false) prolog →
  Forall (λ n, named ["call"] n = false) epilogue →
  Forall (λ n, named ["call"] n = true → is_Some (call_of unmarshalCall n)) children →
  ∃ d : @CallDecoder Call (list Call),
    NewCallDecoder
      (tokens_of prolog
       ++ tokens (Element {| xml.Name_Local := "calls"; xml.Attrs := attrs |} children)
       ++ tokens_of epilogue)
    = Some (inl d)
    ∧ CallDecoder_Decode unmarshalCall
        {| cd_decoder := cd_decoder d; cd_BackupInfo := cd_BackupInfo d;
           OnCall := Some (λ call calls, (None, calls ++ [call])) |} []
      = Some (Return None, omap (call_of unmarshalCall) children).
Proof.
  intros Hprolog Hepilogue Hchildren.
  unfold NewCallDecoder, xml.NewDecoder.
  rewrite findElem_skips_nodes by (assumption || (unfold fuel_for; simpl; lia)).
  rewrite tokens_Element.
  rewrite (findElem_fuel _ (S (S (length (tokens_of children
                                            ++ xml.EndElement "calls"
                                            :: tokens_of epilogue)))))
    by (unfold fuel_for; cbn [xml.input length];
        repeat (rewrite length_app; cbn [length]); lia).
  rewrite findElem_finds by (apply list_elem_of_singleton; reflexivity).
  eexists. split; [reflexivity|].
  unfold CallDecoder_Decode. cbn [OnCall cd_decoder xml.Name_Local].
  rewrite CallDecoder_loop_children
    by (unfold fuel_for; simpl; lia).
  rewrite dispatch_calls_collects by assumption. cbn [app].
  unfold fuel_for. cbn [xml.input]. rewrite length_app. cbn [length].
  destruct (findElem_end_of_document ["call"] "calls" epilogue
              (S (length (tokens_of children) + S (length (tokens_of epilogue)))))
    as [d Hd]; [assumption | lia |].
  cbn [CallDecoder_loop]. by rewrite Hd.
Qed.

End CallEmissionOrder.

Lemma CallDecoder_emits_in_document_order_witness :
  Forall (λ n, named ["calls"] n = false) [Instruction "xml" "version='1.0'"]
  ∧ Forall (λ n, named ["call"] n = false) [Text " "]
  ∧ Forall (λ n, named ["call"] n = true
                 → is_Some (call_of CallExample.unmarshalCall n))
      CallExample.children
  ∧ ∃ d : @CallDecoder string (list string),
      NewCallDecoder
        (tokens_of [Instruction "xml" "version='1.0'"]
         ++ tokens (Element {| xml.Name_Local := "calls";
                               xml.Attrs := [xml.mkAttr "count" "2"] |}
                      CallExample.children)
         ++ tokens_of [Text " "])
      = Some (inl d)
      ∧ CallDecoder_Decode CallExample.unmarshalCall
          {| cd_decoder := cd_decoder d; cd_BackupInfo := cd_BackupInfo d;
             OnCall := Some (λ call calls, (None, calls ++ [call])) |} []
        = Some (Return None, ["5550100"; "5550199"]).
Proof.
  assert (Hprolog : Forall (λ n, named ["calls"] n = false)
                      [Instruction "xml" "version='1.0'"])
    by (repeat constructor).
  assert (Hepilogue : Forall (λ n, named ["call"] n = false) [Text " "])
    by (repeat constructor).
  assert (Hchildren : Forall (λ n, named ["call"] n = true
                                   → is_Some (call_of CallExample.unmarshalCall n))
                        CallExample.children).
  { repeat (apply List.Forall_cons;
            [intros Hn; first [discriminate Hn | eexists; reflexivity]|]).
    apply List.Forall_nil. }
  split_and!; [exact Hprolog | exact Hepilogue | exact Hchildren |].
  exact (CallDecoder_emits_in_document_order CallExample.unmarshalCall
           [Instruction "xml" "version='1.0'"] CallExample.children [Text " "]
           [xml.mkAttr "count" "2"] Hprolog Hepilogue Hchildren).
Defined.

Lemma CallDecoder_stops_at_decode_error_witness :
  let pre := [CallExample.call_node "5550100"; Text " "] in
  let se := {| xml.Name_Local := "call"; xml.Attrs := [xml.mkAttr "duration" "3"] |} in
  xml.Name_Local se = "call"
  ∧ dispatch_calls CallExample.unmarshalCall CallExample.keep_call pre []
    = (None, ["5550100"])
  ∧ CallExample.unmarshalCall se (tokens_of []) = inr (ErrorString "missing number")
  ∧ CallDecoder_Decode CallExample.unmarshalCall
      {| cd_decoder :=
           {| xml.input :=
                tokens_of pre ++ tokens (Element se [])
                ++ tokens_of [CallExample.call_node "5550199"]
                ++ [xml.BadSyntax "invalid character"];
              xml.stk := ["calls"] |};
         cd_BackupInfo := mkBackupInfo "3" "" "";
         OnCall := Some CallExample.keep_call |} []
    = Some (Return (Some (Errorf "unable to decode call element"
                            (ErrorString "missing number"))),
            ["5550100"]).
Proof.
  intros pre se.
  assert (Hname : xml.Name_Local se = "call") by reflexivity.
  assert (Hpre : dispatch_calls CallExample.unmarshalCall CallExample.keep_call pre []
                 = (None, ["5550100"])) by reflexivity.
  assert (Hfails : CallExample.unmarshalCall se (tokens_of [])
                   = inr (ErrorString "missing number")) by reflexivity.
  split_and!; [exact Hname | exact Hpre | exact Hfails |].
  exact (CallDecoder_stops_at_decode_error CallExample.unmarshalCall
           pre [] [CallExample.call_node "5550199"] se
           [xml.BadSyntax "invalid character"] ["calls"] (mkBackupInfo "3" "" "")
           CallExample.keep_call [] ["5550100"] (ErrorString "missing number")
           Hname Hpre Hfails).
Defined.

(** ** The command writing tab-separated files *)

Lemma TsvDriver_findElem_mono (fuel fuel' : nat) (d : xml.Decoder)
    (names : list string) r :
  TsvDriver.findElem fuel d names = Some r → fuel ≤ fuel' →
  TsvDriver.findElem fuel' d names = Some r.
Proof.
  revert fuel' d. induction fuel as [|fuel IH]; intros fuel' d; [discriminate|].
  destruct fuel' as [|fuel']; [lia|]. intros Hrun Hle. simpl in *.
  destruct (xml.Decoder_Token d) as [[tok|err] d1]; [|assumption].
  destruct tok; try (apply IH; [assumption | lia]).
  case_decide; [assumption|]. apply IH; [assumption | lia].
Qed.

Lemma TsvDriver_findElem_total (fuel : nat) (d : xml.Decoder) (names : list string) :
  length (xml.input d) < fuel →
  ∃ r d', TsvDriver.findElem fuel d names = Some (r, d')
          ∧ match r with
            | inl _ => length (xml.input d') < length (xml.input d)
            | inr _ => length (xml.input d') ≤ length (xml.input d)
            end.
Proof.
  revert d. induction fuel as [|fuel IH]; intros d Hlen; [lia|].
  simpl. destruct (xml.Decoder_Token d) as [[tok|err] d1] eqn:Htok.
  - apply Decoder_Token_inl in Htok.
    assert (Hrec : ∃ r d', TsvDriver.findElem fuel d1 names = Some (r, d')
                 ∧ match r with
                   | inl _ => length (xml.input d') < length (xml.input d)
                   | inr _ => length (xml.input d') ≤ length (xml.input d)
                   end).
    { destruct (IH d1) as (r & d' & Hrun & Hle); [lia|].
      exists r, d'. split; [assumption|]. destruct r; lia. }
    destruct tok; try exact Hrec.
    case_decide; [|exact Hrec].
    eexists _, _. split; [reflexivity|]. simpl. lia.
  - apply Decoder_Token_inr in Htok. eexists _, _. split; [reflexivity|]. simpl. lia.
Qed.

Lemma TsvDriver_findElem_fuel (fuel fuel' : nat) (d : xml.Decoder)
    (names : list string) :
  length (xml.input d) < fuel → length (xml.input d) < fuel' →
  TsvDriver.findElem fuel d names = TsvDriver.findElem fuel' d names.
Proof.
  intros Hf Hf'.
  destruct (TsvDriver_findElem_total (S (length (xml.input d))) d names)
    as (r & d' & Hrun & _); [lia|].
  rewrite (TsvDriver_findElem_mono _ fuel _ _ _ Hrun) by lia.
  by rewrite (TsvDriver_findElem_mono _ fuel' _ _ _ Hrun) by lia.
Qed.

(** The search passes over a token that is not a start element it looks
    for, and then stands inside the element when the token opened one. *)
Lemma TsvDriver_findElem_passes (fuel : nat) (d d' : xml.Decoder) (t : xml.Token)
    (names : list string) :
  xml.Decoder_Token d = (inl t, d') →
  (∀ se, t = xml.StartElementT se → xml.Name_Local se ∉ names) →
  length (xml.input d) < fuel →
  TsvDriver.findElem fuel d names = TsvDriver.findElem fuel d' names.
Proof.
  intros Htok Hnot Hlen. pose proof (Decoder_Token_inl _ _ _ Htok) as Hd'.
  rewrite (TsvDriver_findElem_fuel fuel (pred fuel) d') by lia.
  destruct fuel as [|fuel]; [lia|]. cbn [TsvDriver.findElem pred]. rewrite Htok.
  destruct t; try reflexivity.
  rewrite decide_False; [reflexivity|].
  rewrite elem_of_list_to_set. by apply Hnot.
Qed.

(** In front of the first element there is nothing to find. *)
Lemma TsvDriver_findElem_prolog (names : list string) (prolog : list Node)
    (rest : list xml.Token) (stk : list string) (fuel : nat) :
  Forall (λ n, element n = false) prolog →
  length (tokens_of prolog ++ rest) < fuel →
  TsvDriver.findElem fuel {| xml.input := tokens_of prolog ++ rest; xml.stk := stk |}
    names
  = TsvDriver.findElem fuel {| xml.input := rest; xml.stk := stk |} names.
Proof.
  intros Hprolog. induction Hprolog as [|n prolog Hn _ IH]; intros Hlen; [reflexivity|].
  rewrite tokens_of_cons, <- app_assoc in *.
  rewrite length_app in Hlen.
  destruct n as [se content|data|data|target inst|data]; [discriminate|..];
    (erewrite TsvDriver_findElem_passes;
     [apply IH; simpl in Hlen; lia
     |reflexivity
     |intros se [=]
     |simpl in *; lia]).
Qed.

Section TsvDriverProperties.

Context {SMSMessageType SMSStatus ReadStatus BoolValue AddressType : Type}.
Context {Calls World : Type}.
Local Abbreviation SMS := (SMS SMSMessageType SMSStatus ReadStatus BoolValue).
Local Abbreviation MMS := (MMS ReadStatus BoolValue AddressType).
Local Abbreviation Messages :=
  (Messages SMSMessageType SMSStatus ReadStatus BoolValue AddressType).

Variable unmarshalSMS : xml.StartElement → list xml.Token → SMS + error.
Variable unmarshalMMS : xml.StartElement → list xml.Token → MMS + error.
Variable unmarshalCalls : list xml.Token → Calls + error.
Variable os_Open : string → list xml.Token + error.
Variable PrintMessageCountQC : BackupInfo → Messages → World → World.
Variable SMSOutput : BackupInfo → Messages → World → World.
Variable MMSOutput : BackupInfo → Messages → World → World.
Variable PrintCallCountQC : Calls → World → World.
Variable CallsOutput : Calls → World → World.

Local Abbreviation loop := (TsvDriver.handleFile_loop unmarshalSMS unmarshalMMS).
Local Abbreviation gathered := (TsvDriver.gather unmarshalSMS unmarshalMMS).
Local Abbreviation gathered_all := (TsvDriver.gather_all unmarshalSMS unmarshalMMS).
Local Abbreviation handle :=
  (TsvDriver.handleFile unmarshalSMS unmarshalMMS unmarshalCalls os_Open
     PrintMessageCountQC SMSOutput MMSOutput PrintCallCountQC CallsOutput).

Lemma TsvDriver_loop_mono (fuel fuel' : nat) (fileName : string) (d : xml.Decoder)
    (m : Messages) r :
  loop fuel fileName d m = Some r → fuel ≤ fuel' →
  loop fuel' fileName d m = Some r.
Proof.
  revert fuel' d m. induction fuel as [|fuel IH]; intros fuel' d m; [discriminate|].
  destruct fuel' as [|fuel']; [lia|]. intros Hrun Hle.
  cbn [TsvDriver.handleFile_loop] in *.
  destruct (TsvDriver.findElem fuel d _) as [[[child|err] d1]|] eqn:Hfind;
    [| |discriminate];
    rewrite (TsvDriver_findElem_mono _ fuel' _ _ _ Hfind) by lia; [|assumption].
  repeat case_decide; try assumption.
  - destruct (xml.Decoder_DecodeElement unmarshalSMS fuel child d1)
      as [[[sms|err] d2]|] eqn:Hdec; [| |discriminate];
      rewrite (DecodeElement_mono _ _ fuel' _ _ _ Hdec) by lia; [|assumption].
    apply IH; [assumption | lia].
  - destruct (xml.Decoder_DecodeElement unmarshalMMS fuel child d1)
      as [[[mms|err] d2]|] eqn:Hdec; [| |discriminate];
      rewrite (DecodeElement_mono _ _ fuel' _ _ _ Hdec) by lia; [|assumption].
    apply IH; [assumption | lia].
Qed.

(** The loop comes to an end on every input. *)
Lemma TsvDriver_loop_total (fuel : nat) (fileName : string) (d : xml.Decoder)
    (m : Messages) :
  S (length (xml.input d)) < fuel →
  ∃ r, loop fuel fileName d m = Some r.
Proof.
  revert d m. induction fuel as [|fuel IH]; intros d m Hlen; [lia|].
  cbn [TsvDriver.handleFile_loop].
  destruct (TsvDriver_findElem_total fuel d ["sms"; "mms"])
    as ([child|err] & d1 & -> & Hd1); [lia| |destruct err; eexists; reflexivity].
  repeat case_decide; [| |eexists; reflexivity].
  - destruct (DecodeElement_total unmarshalSMS fuel child d1)
      as ([sms|err] & d2 & -> & Hd2); [lia| |eexists; reflexivity].
    apply IH. lia.
  - destruct (DecodeElement_total unmarshalMMS fuel child d1)
      as ([mms|err] & d2 & -> & Hd2); [lia| |eexists; reflexivity].
    apply IH. lia.
Qed.

Lemma TsvDriver_loop_fuel (fuel fuel' : nat) (fileName : string) (d : xml.Decoder)
    (m : Messages) :
  S (length (xml.input d)) < fuel → S (length (xml.input d)) < fuel' →
  loop fuel fileName d m = loop fuel' fileName d m.
Proof.
  intros Hf Hf'.
  destruct (TsvDriver_loop_total (S (S (length (xml.input d)))) fileName d m)
    as (r & Hrun); [lia|].
  rewrite (TsvDriver_loop_mono _ fuel _ _ _ _ Hrun) by lia.
  by rewrite (TsvDriver_loop_mono _ fuel' _ _ _ _ Hrun) by lia.
Qed.

Lemma TsvDriver_loop_passes (fuel : nat) (fileName : string) (d d' : xml.Decoder)
    (t : xml.Token) (m : Messages) :
  xml.Decoder_Token d = (inl t, d') →
  (∀ se, t = xml.StartElementT se → xml.Name_Local se ∉ ["sms"; "mms"]) →
  S (length (xml.input d)) < fuel →
  loop fuel fileName d m = loop fuel fileName d' m.
Proof.
  intros Htok Hnot Hlen. pose proof (Decoder_Token_inl _ _ _ Htok) as Hd'.
  destruct fuel as [|fuel]; [lia|]. cbn [TsvDriver.handleFile_loop].
  by rewrite (TsvDriver_findElem_passes fuel d d' t) by (assumption || lia).
Qed.

Lemma TsvDriver_gather_Element (fileName : string) (se : xml.StartElement)
    (content : list Node) (m : Messages) :
  xml.Name_Local se ≠ "sms" → xml.Name_Local se ≠ "mms" →
  gathered fileName (Element se content) m = gathered_all fileName content m.
Proof.
  intros Hsms Hmms. cbn [TsvDriver.gather].
  rewrite !decide_False by assumption.
  revert m. induction content as [|c content IH]; intros m; [reflexivity|].
  cbn [TsvDriver.gather_all].
  destruct (gathered fileName c m) as [[err|] m']; [reflexivity | apply IH].
Qed.

(** The loop over the tokens of a node does what [gather] does with the
    node, then goes on with what follows it. *)
Lemma TsvDriver_loop_node (fileName : string) (n : Node) :
  ∀ (rest : list xml.Token) (stk : list string) (m : Messages) (fuel : nat),
    S (length (tokens n ++ rest)) < fuel →
    loop fuel fileName {| xml.input := tokens n ++ rest; xml.stk := stk |} m
    = match gathered fileName n m with
      | (Some err, m') => Some (TsvDriver.Returns (Some err), m')
      | (None, m') => loop fuel fileName {| xml.input := rest; xml.stk := stk |} m'
      end.
Proof.
  induction n as [se content IH|data|data|target inst|data] using Node_nested_ind;
    intros rest stk m fuel Hlen.
  2-5: cbn [TsvDriver.gather]; eapply TsvDriver_loop_passes;
       [reflexivity | intros se [=] | exact Hlen].
  rewrite tokens_Element in *. cbn [length] in Hlen.
  rewrite length_app in Hlen. cbn [length] in Hlen.
  assert (Hfuel : ∀ m', loop (pred fuel) fileName
                          {| xml.input := rest; xml.stk := stk |} m'
                        = loop fuel fileName
                            {| xml.input := rest; xml.stk := stk |} m').
  { intros m'. apply TsvDriver_loop_fuel; simpl; lia. }
  destruct (decide (xml.Name_Local se = "sms")) as [Hsms|Hsms];
    [|destruct (decide (xml.Name_Local se = "mms")) as [Hmms|Hmms]].
  - destruct fuel as [|[|fuel]]; [lia..|]. cbn [pred] in Hfuel.
    cbn [TsvDriver.handleFile_loop TsvDriver.findElem xml.Decoder_Token
           xml.input xml.stk TsvDriver.gather].
    rewrite decide_True
      by (rewrite elem_of_list_to_set, Hsms; apply elem_of_cons; by left).
    rewrite !(decide_True (P:=xml.Name_Local se = "sms")) by assumption.
    rewrite DecodeElement_content by (rewrite length_app; simpl; lia).
    destruct (unmarshalSMS se (tokens_of content)) as [sms|err]; [|reflexivity].
    apply Hfuel.
  - destruct fuel as [|[|fuel]]; [lia..|]. cbn [pred] in Hfuel.
    cbn [TsvDriver.handleFile_loop TsvDriver.findElem xml.Decoder_Token
           xml.input xml.stk TsvDriver.gather].
    rewrite decide_True
      by (rewrite elem_of_list_to_set, Hmms; apply elem_of_cons; right;
          apply elem_of_cons; by left).
    rewrite !(decide_False (P:=xml.Name_Local se = "sms")) by assumption.
    rewrite !(decide_True (P:=xml.Name_Local se = "mms")) by assumption.
    rewrite DecodeElement_content by (rewrite length_app; simpl; lia).
    destruct (unmarshalMMS se (tokens_of content)) as [mms|err]; [|reflexivity].
    apply Hfuel.
  - rewrite TsvDriver_gather_Element by assumption.
    rewrite (TsvDriver_loop_passes fuel fileName _
               {| xml.input := tokens_of content
                               ++ xml.EndElement (xml.Name_Local se) :: rest;
                  xml.stk := xml.Name_Local se :: stk |}
               (xml.StartElementT se));
      [|reflexivity
       |intros se' [= <-]; rewrite !elem_of_cons, elem_of_nil; tauto
       |simpl; rewrite length_app; simpl; lia].
    assert (Hinside : S (length (tokens_of content
                                 ++ xml.EndElement (xml.Name_Local se) :: rest))
                      < fuel) by (rewrite length_app; simpl; lia).
    clear Hlen Hfuel. revert m Hinside.
    induction IH as [|c content Hc _ IHcontent]; intros m Hinside.
    + cbn [tokens_of flat_map app TsvDriver.gather_all].
      eapply TsvDriver_loop_passes;
        [cbn [xml.Decoder_Token xml.input xml.stk];
         by rewrite decide_True by reflexivity
        |intros se' [=]
        |exact Hinside].
    + rewrite tokens_of_cons, <- app_assoc in *.
      rewrite Hc by assumption. cbn [TsvDriver.gather_all].
      destruct (gathered fileName c m) as [[err|] m']; [reflexivity|].
      apply IHcontent. rewrite length_app in Hinside. lia.
Qed.

Lemma TsvDriver_loop_nodes (fileName : string) (nodes : list Node) :
  ∀ (rest : list xml.Token) (stk : list string) (m : Messages) (fuel : nat),
    S (length (tokens_of nodes ++ rest)) < fuel →
    loop fuel fileName {| xml.input := tokens_of nodes ++ rest; xml.stk := stk |} m
    = match gathered_all fileName nodes m with
      | (Some err, m') => Some (TsvDriver.Returns (Some err), m')
      | (None, m') => loop fuel fileName {| xml.input := rest; xml.stk := stk |} m'
      end.
Proof.
  induction nodes as [|n nodes IH]; intros rest stk m fuel Hlen; [reflexivity|].
  rewrite tokens_of_cons, <- app_assoc in *.
  rewrite TsvDriver_loop_node by assumption. cbn [TsvDriver.gather_all].
  destruct (gathered fileName n m) as [[err|] m']; [reflexivity|].
  apply IH. rewrite length_app in Hlen. lia.
Qed.

Lemma TsvDriver_gather_all_app (fileName : string) (pre post : list Node)
    (m : Messages) :
  gathered_all fileName (pre ++ post) m
  = match gathered_all fileName pre m with
    | (Some err, m') => (Some err, m')
    | (None, m') => gathered_all fileName post m'
    end.
Proof.
  revert m. induction pre as [|n pre IH]; intros m; [reflexivity|].
  cbn [app TsvDriver.gather_all].
  destruct (gathered fileName n m) as [[err|] m']; [reflexivity | apply IH].
Qed.

(** The loop at the end of the input, with every element closed. *)
Lemma TsvDriver_loop_end (fileName : string) (m : Messages) (fuel : nat) :
  1 < fuel →
  loop fuel fileName {| xml.input := []; xml.stk := [] |} m
  = Some (TsvDriver.Returns None, m).
Proof. intros Hfuel. destruct fuel as [|[|fuel]]; [lia..|]. reflexivity. Qed.

(** X18. One message backup, from the file to the writers. For a file
    named [sms-....xml] holding a well-formed document with nothing but
    comments, text and the like in front of its [smses] element, every
    [sms] and [mms] element behind the start of that element is
    unmarshalled in document order, at whatever depth it stands and also
    behind the end of the root. When one of them fails, [handleFile]
    returns that error and no report or output is made; otherwise all
    messages are handed together to the count report, the SMS output and
    the MMS output, in this order, with the attributes of the root. *)
Theorem TsvDriver_handleFile_gathers (xmlFilePath : string)
    (prolog children epilogue : list Node) (attrs : list xml.Attr) (w : World) :
  strings.HasPrefix (filepath.Base xmlFilePath) "sms-" = true →
  filepath.Ext (filepath.Base xmlFilePath) = ".xml" →
  Forall (λ n, element n = false) prolog →
  os_Open xmlFilePath
  = inl (tokens_of prolog
         ++ tokens (Element {| xml.Name_Local := "smses"; xml.Attrs := attrs |} children)
         ++ tokens_of epilogue) →
  handle xmlFilePath w
  = Some match gathered_all (filepath.Base xmlFilePath) (children ++ epilogue)
                 {| msgs_SMS := []; msgs_MMS := [] |} with
         | (Some err, _) => (TsvDriver.Returns (Some err), w)
         | (None, m) =>
             let info := fillBackupInfo (mkBackupInfo "" "" "")
                           {| xml.Name_Local := "smses"; xml.Attrs := attrs |} in
             (TsvDriver.Returns None,
              MMSOutput info m (SMSOutput info m (PrintMessageCountQC info m w)))
         end.
Proof.
  intros Hprefix Hext Hprolog Hopen. unfold TsvDriver.handleFile.
  rewrite Hprefix, Hext, Hopen, orb_true_r.
  rewrite bool_decide_eq_false_2 by (intros Hne; by apply Hne).
  cbn [negb orb]. unfold xml.NewDecoder.
  rewrite (TsvDriver_findElem_prolog _ prolog) by (assumption || (unfold fuel_for; simpl; lia)).
  rewrite tokens_Element.
  rewrite (TsvDriver_findElem_fuel _
             (S (S (length (tokens_of children ++ xml.EndElement "smses"
                            :: tokens_of epilogue)))))
    by (unfold fuel_for; cbn [xml.input length];
        repeat (rewrite length_app; cbn [length]); lia).
  cbn [TsvDriver.findElem xml.Decoder_Token xml.input xml.stk xml.Name_Local].
  rewrite decide_True by (rewrite elem_of_list_to_set; apply list_elem_of_singleton;
                          reflexivity).
  rewrite TsvDriver_loop_nodes by (unfold fuel_for; simpl; lia).
  rewrite TsvDriver_gather_all_app.
  destruct (gathered_all (filepath.Base xmlFilePath) children
              {| msgs_SMS := []; msgs_MMS := [] |}) as [[err|] m1]; [reflexivity|].
  rewrite (TsvDriver_loop_passes _ _ _
             {| xml.input := tokens_of epilogue; xml.stk := [] |}
             (xml.EndElement "smses"));
    [|cbn [xml.Decoder_Token xml.input xml.stk]; by rewrite decide_True by reflexivity
     |intros se [=]
     |unfold fuel_for; cbn [xml.input length]; rewrite length_app; cbn [length]; lia].
  rewrite <- (app_nil_r (tokens_of epilogue)).
  rewrite TsvDriver_loop_nodes
    by (unfold fuel_for; cbn [xml.input length]; rewrite !app_nil_r;
        rewrite length_app; cbn [length]; lia).
  destruct (gathered_all (filepath.Base xmlFilePath) epilogue m1) as [[err|] m2];
    [reflexivity|].
  rewrite TsvDriver_loop_end by (unfold fuel_for; simpl; lia). reflexivity.
Qed.

(** X19. A backup that breaks off inside its root gives no output at
    all: when the input ends with the [smses] element still open, every
    message before the break is unmarshalled, and then [handleFile]
    returns the syntax error "unexpected EOF" wrapped in "unable to find
    sms or mms element in" and the file name; the count report and the
    writers are not reached. *)
Theorem TsvDriver_handleFile_truncated (xmlFilePath : string)
    (prolog children : list Node) (attrs : list xml.Attr) (m : Messages)
    (w : World) :
  strings.HasPrefix (filepath.Base xmlFilePath) "sms-" = true →
  filepath.Ext (filepath.Base xmlFilePath) = ".xml" →
  Forall (λ n, element n = false) prolog →
  os_Open xmlFilePath
  = inl (tokens_of prolog
         ++ xml.StartElementT {| xml.Name_Local := "smses"; xml.Attrs := attrs |}
         :: tokens_of children) →
  gathered_all (filepath.Base xmlFilePath) children
    {| msgs_SMS := []; msgs_MMS := [] |} = (None, m) →
  handle xmlFilePath w
  = Some (TsvDriver.Returns
            (Some (Errorf ("unable to find sms or mms element in "
                             +:+ filepath.Base xmlFilePath)
                     (SyntaxError "unexpected EOF"))), w).
Proof.
  intros Hprefix Hext Hprolog Hopen Hchildren. unfold TsvDriver.handleFile.
  rewrite Hprefix, Hext, Hopen, orb_true_r.
  rewrite bool_decide_eq_false_2 by (intros Hne; by apply Hne).
  cbn [negb orb]. unfold xml.NewDecoder.
  rewrite (TsvDriver_findElem_prolog _ prolog) by (assumption || (unfold fuel_for; simpl; lia)).
  rewrite (TsvDriver_findElem_fuel _ (S (S (length (tokens_of children)))))
    by (unfold fuel_for; cbn [xml.input length];
        repeat (rewrite length_app; cbn [length]); lia).
  cbn [TsvDriver.findElem xml.Decoder_Token xml.input xml.stk xml.Name_Local].
  rewrite decide_True by (rewrite elem_of_list_to_set; apply list_elem_of_singleton;
                          reflexivity).
  rewrite <- (app_nil_r (tokens_of children)).
  rewrite TsvDriver_loop_nodes
    by (unfold fuel_for; cbn [xml.input length]; rewrite !app_nil_r; lia).
  rewrite Hchildren. unfold fuel_for. cbn [xml.input]. reflexivity.
Qed.

End TsvDriverProperties.

Lemma TsvDriver_handleFile_gathers_witness :
  let path := "backups/sms-20180213.xml" in
  strings.HasPrefix (filepath.Base path) "sms-" = true
  ∧ filepath.Ext (filepath.Base path) = ".xml"
  ∧ Forall (λ n, element n = false) TsvExample.prolog
  ∧ TsvExample.os_Open path
    = inl (tokens_of TsvExample.prolog
           ++ tokens (Element {| xml.Name_Local := "smses";
                                 xml.Attrs := [xml.mkAttr "count" "4"] |}
                        TsvExample.children)
           ++ tokens_of [Text " "])
  ∧ TsvExample.handleFile path []
    = Some (TsvDriver.Returns None,
            ["4"; "5550100"; "5550111"; "5550199"; "5550100~5550199"]).
Proof.
  intros path.
  assert (Hprefix : strings.HasPrefix (filepath.Base path) "sms-" = true)
    by reflexivity.
  assert (Hext : filepath.Ext (filepath.Base path) = ".xml") by reflexivity.
  assert (Hprolog : Forall (λ n, element n = false) TsvExample.prolog)
    by (repeat constructor).
  assert (Hopen : TsvExample.os_Open path
                  = inl (tokens_of TsvExample.prolog
                         ++ tokens (Element {| xml.Name_Local := "smses";
                                               xml.Attrs := [xml.mkAttr "count" "4"] |}
                                      TsvExample.children)
                         ++ tokens_of [Text " "])) by reflexivity.
  split_and!; [exact Hprefix | exact Hext | exact Hprolog | exact Hopen |].
  exact (TsvDriver_handleFile_gathers (Calls:=unit)
           Sample.unmarshalSMS Sample.unmarshalMMS (λ _, inl tt) TsvExample.os_Open
           TsvExample.PrintMessageCountQC TsvExample.SMSOutput TsvExample.MMSOutput
           (λ _ w, w) (λ _ w, w)
           path TsvExample.prolog TsvExample.children [Text " "]
           [xml.mkAttr "count" "4"] [] Hprefix Hext Hprolog Hopen).
Defined.

Lemma TsvDriver_handleFile_truncated_witness :
  let path := "backups/sms-20180214.xml" in
  let m := (TsvDriver.gather_all Sample.unmarshalSMS Sample.unmarshalMMS
              (filepath.Base path) TsvExample.children
              {| msgs_SMS := []; msgs_MMS := [] |}).2 in
  strings.HasPrefix (filepath.Base path) "sms-" = true
  ∧ filepath.Ext (filepath.Base path) = ".xml"
  ∧ Forall (λ n, element n = false) TsvExample.prolog
  ∧ TsvExample.os_Open path
    = inl (tokens_of TsvExample.prolog
           ++ xml.StartElementT {| xml.Name_Local := "smses";
                                   xml.Attrs := [xml.mkAttr "count" "4"] |}
           :: tokens_of TsvExample.children)
  ∧ TsvDriver.gather_all Sample.unmarshalSMS Sample.unmarshalMMS
      (filepath.Base path) TsvExample.children
      {| msgs_SMS := []; msgs_MMS := [] |} = (None, m)
  ∧ length (msgs_SMS m) = 3
  ∧ TsvExample.handleFile path []
    = Some (TsvDriver.Returns
              (Some (Errorf "unable to find sms or mms element in sms-20180214.xml"
                       (SyntaxError "unexpected EOF"))), []).
Proof.
  intros path m.
  assert (Hprefix : strings.HasPrefix (filepath.Base path) "sms-" = true)
    by reflexivity.
  assert (Hext : filepath.Ext (filepath.Base path) = ".xml") by reflexivity.
  assert (Hprolog : Forall (λ n, element n = false) TsvExample.prolog)
    by (repeat constructor).
  assert (Hopen : TsvExample.os_Open path
                  = inl (tokens_of TsvExample.prolog
                         ++ xml.StartElementT {| xml.Name_Local := "smses";
                                                 xml.Attrs := [xml.mkAttr "count" "4"] |}
                         :: tokens_of TsvExample.children)) by reflexivity.
  assert (Hchildren : TsvDriver.gather_all Sample.unmarshalSMS Sample.unmarshalMMS
                        (filepath.Base path) TsvExample.children
                        {| msgs_SMS := []; msgs_MMS := [] |} = (None, m))
    by reflexivity.
  split_and!; [exact Hprefix | exact Hext | exact Hprolog | exact Hopen
              | exact Hchildren | reflexivity |].
  exact (TsvDriver_handleFile_truncated (Calls:=unit)
           Sample.unmarshalSMS Sample.unmarshalMMS (λ _, inl tt) TsvExample.os_Open
           TsvExample.PrintMessageCountQC TsvExample.SMSOutput TsvExample.MMSOutput
           (λ _ w, w) (λ _ w, w)
           path TsvExample.prolog TsvExample.children
           [xml.mkAttr "count" "4"] m [] Hprefix Hext Hprolog Hopen Hchildren).
Defined.

(** ** The collecting decoder *)

Lemma Decoder_Token_error_plain (d d' : xml.Decoder) (err : error) :
  xml.Decoder_Token d = (inr err, d') → errors_Is_EOF err = true → err = EOF.
Proof.
  unfold xml.Decoder_Token. destruct d as [[|t rest] stk]; cbn [xml.input xml.stk].
  - destruct stk; intros [= <- <-]; [reflexivity | discriminate].
  - destruct t; try discriminate.
    + destruct stk as [|open stk']; [intros [= <- <-]; discriminate|].
      case_decide; [discriminate|]. intros [= <- <-]. discriminate.
    + intros [= <- <-]. discriminate.
Qed.

Lemma Skip_loop_error_plain (fuel depth : nat) (d d' : xml.Decoder) (err : error) :
  xml.Skip_loop fuel depth d = Some (Some err, d') →
  errors_Is_EOF err = true → err = EOF.
Proof.
  revert depth d. induction fuel as [|fuel IH]; intros depth d; [discriminate|].
  cbn [xml.Skip_loop].
  destruct (xml.Decoder_Token d) as [[tok|err0] d1] eqn:Htok.
  - destruct tok; try apply IH. destruct depth; [discriminate | apply IH].
  - intros [= <- <-]. by eapply Decoder_Token_error_plain.
Qed.

(** The errors of [findElem] are those of the lexer, never wrapped: one
    that is [io.EOF] for [errors.Is] is [io.EOF] itself. *)
Lemma findElem_error_plain (fuel : nat) (d d' : xml.Decoder) (names : list string)
    (err : error) :
  findElem fuel d names = Some (inr err, d') →
  errors_Is_EOF err = true → err = EOF.
Proof.
  revert d. induction fuel as [|fuel IH]; intros d; [discriminate|].
  cbn [findElem].
  destruct (xml.Decoder_Token d) as [[tok|err0] d1] eqn:Htok.
  - destruct tok; try apply IH.
    case_decide; [discriminate|]. unfold xml.Decoder_Skip.
    destruct (xml.Skip_loop fuel 0 d1) as [[[err1|] d2]|] eqn:Hskip;
      [|apply IH|discriminate].
    intros [= <- <-]. by eapply Skip_loop_error_plain.
  - intros [= <- <-]. by eapply Decoder_Token_error_plain.
Qed.

Section CollectingProperties.

Context {SMSMessageType SMSStatus ReadStatus BoolValue AddressType H : Type}.
Local Abbreviation SMS := (SMS SMSMessageType SMSStatus ReadStatus BoolValue).
Local Abbreviation MMS := (MMS ReadStatus BoolValue AddressType).
Local Abbreviation Messages :=
  (Messages SMSMessageType SMSStatus ReadStatus BoolValue AddressType).

Variable unmarshalSMS : xml.StartElement → list xml.Token → SMS + error.
Variable unmarshalMMS : xml.StartElement → list xml.Token → MMS + error.

Lemma Collecting_loop_agrees (fuel : nat) (forSMS : handler (H:=H) SMS)
    (forMMS : handler (H:=H) MMS) (d : xml.Decoder) (s : Messages * H) :
  Collecting.Decode_loop unmarshalSMS unmarshalMMS fuel forSMS forMMS d s
  = MessageDecoder_loop unmarshalSMS unmarshalMMS fuel
      (Some (Collecting.onSms forSMS)) (Some (Collecting.onMms forMMS)) d s.
Proof.
  revert d s. induction fuel as [|fuel IH]; intros d s; [reflexivity|].
  cbn [Collecting.Decode_loop MessageDecoder_loop].
  destruct (findElem fuel d ["sms"; "mms"]) as [[[child|err] d1]|] eqn:Hfind;
    [| |reflexivity].
  - repeat case_decide; try reflexivity.
    + destruct (xml.Decoder_DecodeElement unmarshalSMS fuel child d1)
        as [[[sms|err] d2]|]; try reflexivity.
      destruct (Collecting.onSms forSMS sms s) as [[err|] s']; [reflexivity | apply IH].
    + destruct (xml.Decoder_DecodeElement unmarshalMMS fuel child d1)
        as [[[mms|err] d2]|]; try reflexivity.
      destruct (Collecting.onMms forMMS mms s) as [[err|] s']; [reflexivity | apply IH].
  - destruct (errors_Is_EOF err) eqn:Heof.
    + by rewrite (findElem_error_plain _ _ _ _ _ Hfind Heof).
    + destruct err; try reflexivity. discriminate.
Qed.

(** X20. The collecting decoder is the streaming decoder with its own
    methods as handlers: on every input and for every choice of
    callbacks, [Decode] of the earlier [MessageDecoder] ends as [Decode]
    of the current one does when [OnSMS] and [OnMMS] are the methods
    [onSms] and [onMms], which call the callback when there is one and
    append to [Messages] otherwise. *)
Theorem Collecting_Decode_agrees
    (d : Collecting.MessageDecoder (SMSMessageType:=SMSMessageType)
           (SMSStatus:=SMSStatus) (ReadStatus:=ReadStatus) (BoolValue:=BoolValue)
           (AddressType:=AddressType) (H:=H)) (h : H) :
  Collecting.Decode unmarshalSMS unmarshalMMS d h
  = MessageDecoder_Decode unmarshalSMS unmarshalMMS
      {| md_decoder := Collecting.decoder d; md_BackupInfo := Collecting.info d;
         OnSMS := Some (Collecting.onSms (Collecting.OnSMS d));
         OnMMS := Some (Collecting.onMms (Collecting.OnMMS d)) |}
      (Collecting.collected d, h).
Proof.
  unfold Collecting.Decode, MessageDecoder_Decode. cbn [OnSMS OnMMS md_decoder].
  apply Collecting_loop_agrees.
Qed.

(** Without callbacks every child that unmarshals is appended to the list
    of its kind. *)
Lemma dispatch_collects (children : list Node) (m : Messages) (h : H) :
  Forall (decodable unmarshalSMS unmarshalMMS true true) children →
  dispatch unmarshalSMS unmarshalMMS
    (Some (Collecting.onSms None)) (Some (Collecting.onMms None)) children (m, h)
  = (None, ({| msgs_SMS := msgs_SMS m ++ omap (sms_of unmarshalSMS) children;
               msgs_MMS := msgs_MMS m ++ omap (mms_of unmarshalMMS) children |}, h)).
Proof.
  intros Hchildren. revert m.
  induction Hchildren as [|c children Hc _ IH]; intros m.
  - cbn [dispatch omap list_omap]. rewrite !app_nil_r. by destruct m.
  - destruct c as [se content|data|data|target inst|data];
      try (cbn [dispatch omap list_omap sms_of mms_of]; apply IH).
    cbn [dispatch omap list_omap sms_of mms_of decodable] in *.
    destruct Hc as [Hsms Hmms].
    destruct (decide (xml.Name_Local se = "sms")) as [Hname|Hname].
    + destruct (Hsms Hname eq_refl) as [sms ->].
      cbn [Collecting.onSms fst snd]. rewrite IH. cbn [msgs_SMS msgs_MMS].
      by rewrite <- app_assoc.
    + destruct (decide (xml.Name_Local se = "mms")) as [Hname'|Hname'].
      * destruct (Hmms Hname' eq_refl) as [mms ->].
        cbn [Collecting.onMms fst snd]. rewrite IH. cbn [msgs_SMS msgs_MMS].
        by rewrite <- app_assoc.
      * apply IH.
Qed.

(** X21. Without callbacks the collecting decoder returns the messages
    of the document. For a document whose root [smses] element is
    preceded by no other [smses] element and followed by no [sms] or [mms]
    element, and whose [sms] and [mms] children all unmarshal,
    [NewMessageDecoder] returns a decoder and its [Decode] returns nil
    with [Messages.SMS] the [sms] children and [Messages.MMS] the [mms]
    children of the root, each list in document order. *)
Theorem Collecting_Decode_collects
    (prolog children epilogue : list Node) (attrs : list xml.Attr) (h : H) :
  Forall (λ n, named ["smses"] n = false) prolog →
  Forall (λ n, named ["sms"; "mms"] n = false) epilogue →
  Forall (decodable unmarshalSMS unmarshalMMS true true) children →
  ∃ d, Collecting.NewMessageDecoder
         (tokens_of prolog
          ++ tokens (Element {| xml.Name_Local := "smses"; xml.Attrs := attrs |} children)
          ++ tokens_of epilogue)
       = Some (inl d)
       ∧ Collecting.Decode unmarshalSMS unmarshalMMS d h
         = Some (Return None,
                 ({| msgs_SMS := omap (sms_of unmarshalSMS) children;
                     msgs_MMS := omap (mms_of unmarshalMMS) children |}, h)).
Proof.
  intros Hprolog Hepilogue Hchildren.
  destruct (Decode_dispatches unmarshalSMS unmarshalMMS prolog children epilogue attrs
              (Some (Collecting.onSms None)) (Some (Collecting.onMms None))
              ({| msgs_SMS := []; msgs_MMS := [] |}, h) Hprolog Hepilogue)
    as (d0 & Hnew & Hdecode); [left; eexists; reflexivity|].
  unfold NewMessageDecoder in Hnew. unfold Collecting.NewMessageDecoder.
  destruct (findElem _ _ ["smses"]) as [[[root|err] d1]|]; try discriminate.
  injection Hnew as <-. cbn [md_decoder md_BackupInfo] in Hdecode.
  eexists. split; [reflexivity|].
  unfold Collecting.Decode.
  cbn [Collecting.decoder Collecting.OnSMS Collecting.OnMMS Collecting.collected].
  rewrite Collecting_loop_agrees.
  unfold MessageDecoder_Decode in Hdecode. cbn [OnSMS OnMMS md_decoder] in Hdecode.
  rewrite Hdecode. by rewrite dispatch_collects by assumption.
Qed.

End CollectingProperties.

Lemma Collecting_Decode_collects_witness :
  Forall (λ n, named ["smses"] n = false) [Instruction "xml" "version='1.0'"]
  ∧ Forall (λ n, named ["sms"; "mms"] n = false) [Text " "]
  ∧ Forall (decodable Sample.unmarshalSMS Sample.unmarshalMMS true true)
      Sample.interleaved
  ∧ ∃ d, Collecting.NewMessageDecoder (H:=unit)
           (tokens_of [Instruction "xml" "version='1.0'"]
            ++ tokens (Element {| xml.Name_Local := "smses";
                                  xml.Attrs := [xml.mkAttr "count" "3"] |}
                         Sample.interleaved)
            ++ tokens_of [Text " "])
         = Some (inl d)
         ∧ Collecting.Decode Sample.unmarshalSMS Sample.unmarshalMMS d tt
           = Some (Return None,
                   ({| msgs_SMS := [ Sample.sms "5550100" "Alice";
                                     Sample.sms "5550199" "Bob" ];
                       msgs_MMS := [ Sample.mms "5550100~5550199" "Alice, Bob" [] ] |},
                    tt)).
Proof.
  assert (Hprolog : Forall (λ n, named ["smses"] n = false)
                      [Instruction "xml" "version='1.0'"])
    by (repeat constructor).
  assert (Hepilogue : Forall (λ n, named ["sms"; "mms"] n = false) [Text " "])
    by (repeat constructor).
  assert (Hchildren : Forall (decodable Sample.unmarshalSMS Sample.unmarshalMMS true true)
                        Sample.interleaved).
  { repeat constructor; intros; eexists; reflexivity. }
  split_and!; [exact Hprolog | exact Hepilogue | exact Hchildren |].
  exact (Collecting_Decode_collects Sample.unmarshalSMS Sample.unmarshalMMS
           [Instruction "xml" "version='1.0'"] Sample.interleaved [Text " "]
           [xml.mkAttr "count" "3"] tt Hprolog Hepilogue Hchildren).
Defined.

(** ** Buffered writers *)

Lemma string_length_app (s1 s2 : string) :
  String.length (s1 +:+ s2) = String.length s1 + String.length s2.
Proof.
  induction s1 as [|c s1 IH]; [reflexivity|].
  change (String.length (String c (s1 +:+ s2))
          = S (String.length s1) + String.length s2).
  cbn [String.length Nat.add]. by rewrite IH.
Qed.

Lemma string_app_assoc (s1 s2 s3 : string) :
  (s1 +:+ s2) +:+ s3 = s1 +:+ (s2 +:+ s3).
Proof.
  induction s1 as [|c s1 IH]; [reflexivity|].
  change (String c ((s1 +:+ s2) +:+ s3) = String c (s1 +:+ (s2 +:+ s3))).
  by rewrite IH.
Qed.

Lemma string_app_nil_r (s : string) : s +:+ "" = s.
Proof.
  induction s as [|c s IH]; [reflexivity|].
  change (String c (s +:+ "") = String c s). by rewrite IH.
Qed.

Lemma string_length_0 (s : string) : String.length s = 0 → s = "".
Proof. by destruct s. Qed.

Lemma bytes_of_app (pre post : list string) :
  bytes_of (pre ++ post) = bytes_of pre +:+ bytes_of post.
Proof.
  induction pre as [|c pre IH]; [reflexivity|].
  unfold bytes_of in *. cbn [app foldr]. rewrite IH. symmetry. apply string_app_assoc.
Qed.

(** A write that fits into the buffer only extends the buffer. *)
Lemma bufio_Write_fits (b : bufio.Writer) (p : string) :
  bufio.w_err b = None →
  String.length p ≤ bufio.Available b →
  bufio.Write b p
  = (None, {| bufio.w_wr := bufio.w_wr b; bufio.w_buf := bufio.w_buf b +:+ p;
              bufio.w_err := None |}).
Proof.
  intros Herr Hfits. unfold bufio.Write. cbn [bufio.Write_loop].
  rewrite decide_False by lia. by rewrite Herr.
Qed.

Lemma bufio_Write_loop_exit (turns : nat) (b : bufio.Writer) (p : string) :
  ¬ (bufio.Available b < String.length p ∧ bufio.w_err b = None) →
  bufio.Write_loop turns b p = (b, p).
Proof.
  intros Hexit. destruct turns; [reflexivity|]. cbn [bufio.Write_loop].
  by rewrite decide_False.
Qed.

Lemma bufio_Write_loop_S (turns : nat) (b : bufio.Writer) (p : string) :
  bufio.Write_loop (S turns) b p
  = if decide (bufio.Available b < String.length p ∧ bufio.w_err b = None) then
      if decide (bufio.Buffered b = 0) then
        match os.File_Write (bufio.w_wr b) p with
        | (Some err, f) =>
            bufio.Write_loop turns
              {| bufio.w_wr := f; bufio.w_buf := bufio.w_buf b;
                 bufio.w_err := Some err |} p
        | (None, f) =>
            bufio.Write_loop turns
              {| bufio.w_wr := f; bufio.w_buf := bufio.w_buf b;
                 bufio.w_err := None |} ""
        end
      else
        let n := bufio.Available b in
        let b := {| bufio.w_wr := bufio.w_wr b;
                    bufio.w_buf := bufio.w_buf b +:+ substring 0 n p;
                    bufio.w_err := bufio.w_err b |} in
        let '(_, b) := bufio.Flush b in
        bufio.Write_loop turns b (substring n (String.length p - n) p)
    else (b, p).
Proof. reflexivity. Qed.

Lemma bufio_Write_loop_direct (t1 t2 : nat) (b : bufio.Writer) (p : string) :
  bufio.Buffered b = 0 →
  bufio.Write_loop (S (S t1)) b p = bufio.Write_loop (S (S t2)) b p.
Proof.
  intros Hempty. rewrite (bufio_Write_loop_S (S t1)), (bufio_Write_loop_S (S t2)).
  destruct (decide (bufio.Available b < String.length p ∧ bufio.w_err b = None))
    as [Hgo|Hgo]; [|reflexivity].
  destruct (decide (bufio.Buffered b = 0)) as [_|Hfull]; [|contradiction].
  unfold os.File_Write. destruct (os.file_closed (bufio.w_wr b)).
  - rewrite !bufio_Write_loop_exit; [reflexivity|..]; cbn; intros [_ [=]].
  - rewrite !bufio_Write_loop_exit; [reflexivity|..]; cbn; lia.
Qed.

(** Three turns see the loop of [Write] through: further turns change
    nothing. *)
Lemma bufio_Write_loop_turns (k : nat) (b : bufio.Writer) (p : string) :
  bufio.Write_loop (3 + k) b p = bufio.Write_loop 3 b p.
Proof.
  change (3 + k) with (S (S (S k))).
  rewrite (bufio_Write_loop_S (S (S k))), (bufio_Write_loop_S 2).
  destruct (decide (bufio.Available b < String.length p ∧ bufio.w_err b = None))
    as [[Hlong Herr]|Hgo]; [|reflexivity].
  destruct (decide (bufio.Buffered b = 0)) as [Hempty|Hempty].
  - unfold os.File_Write. destruct (os.file_closed (bufio.w_wr b)).
    + rewrite !bufio_Write_loop_exit; [reflexivity|..]; cbn; intros [_ [=]].
    + rewrite !bufio_Write_loop_exit; [reflexivity|..]; cbn; lia.
  - cbn zeta. unfold bufio.Flush. cbn [bufio.w_err bufio.w_wr bufio.w_buf].
    rewrite Herr.
    rewrite decide_False
      by (unfold bufio.Buffered in *; cbn [bufio.w_buf];
          rewrite string_length_app; lia).
    unfold os.File_Write. destruct (os.file_closed (bufio.w_wr b)).
    + rewrite !bufio_Write_loop_exit; [reflexivity|..]; cbn; intros [_ [=]].
    + by apply bufio_Write_loop_direct.
Qed.

(** ** The command streaming into tab-separated files *)

Lemma HasPrefix_calls_not_sms_file (s : string) :
  strings.HasPrefix s "calls-" = true → strings.HasPrefix s "sms-" = false.
Proof.
  destruct s as [|c s]; [discriminate|]. simpl.
  destruct (decide ("c"%char = c)) as [<-|]; [|discriminate]. intros _.
  by rewrite decide_False.
Qed.

Ltac unfold_tsv_stream :=
  unfold TsvStream.onSms, TsvStream.onMms, TsvStream.onCall.

Section TsvStreamProperties.

Context {SMSMessageType SMSStatus ReadStatus BoolValue AddressType CallType : Type}.
Context {MmsSide : Type}.
Local Abbreviation SMS := (SMS SMSMessageType SMSStatus ReadStatus BoolValue).
Local Abbreviation MMS := (MMS ReadStatus BoolValue AddressType).
Local Abbreviation Call := (Call CallType).

Variable PhoneNumber_String : PhoneNumber → string.
Variable SMSMessageType_String : SMSMessageType → string.
Variable SMSStatus_String : SMSStatus → string.
Variable ReadStatus_String : ReadStatus → string.
Variable AndroidTS_String : AndroidTS → string.
Variable BoolValue_String : BoolValue → string.
Variable CallType_String : CallType → string.
Variable CleanupMessageBody : string → string.
Variable RemoveCommasBeforeSuffixes : string → string.
Variable unmarshalSMS : xml.StartElement → list xml.Token → SMS + error.
Variable unmarshalMMS : xml.StartElement → list xml.Token → MMS + error.
Variable unmarshalCall : xml.StartElement → list xml.Token → Call + error.
Variable imageDir : string.
Variable MkdirAll : option error.
Variable create_mms_tsv : option error.
Variable create_sms_tsv : option error.
Variable os_Stat : string → option bool.
Variable os_Open : string → list xml.Token + error.
Variable NewMMSOutput : MmsSide + error.
Variable MMSOutput_Write : MMS → MmsSide → option error * MmsSide.
Variable mms_close_flush : MmsSide → MmsSide.

Local Abbreviation created :=
  (TsvStream.NewStreamingOutput imageDir MkdirAll create_mms_tsv create_sms_tsv
     NewMMSOutput).
Local Abbreviation on_sms :=
  (TsvStream.onSms (MmsSide:=MmsSide) PhoneNumber_String SMSMessageType_String
     SMSStatus_String ReadStatus_String AndroidTS_String BoolValue_String
     CleanupMessageBody RemoveCommasBeforeSuffixes).
Local Abbreviation on_mms := (TsvStream.onMms (MmsSide:=MmsSide) MMSOutput_Write).
Local Abbreviation on_call :=
  (TsvStream.onCall (MmsSide:=MmsSide) PhoneNumber_String AndroidTS_String
     CallType_String RemoveCommasBeforeSuffixes).
Local Abbreviation close := (TsvStream.Close mms_close_flush).
Local Abbreviation handle :=
  (TsvStream.handleFile PhoneNumber_String SMSMessageType_String SMSStatus_String
     ReadStatus_String AndroidTS_String BoolValue_String CallType_String
     CleanupMessageBody RemoveCommasBeforeSuffixes unmarshalSMS unmarshalMMS
     unmarshalCall os_Open MMSOutput_Write).
Local Abbreviation loop :=
  (TsvStream.main_loop PhoneNumber_String SMSMessageType_String SMSStatus_String
     ReadStatus_String AndroidTS_String BoolValue_String CallType_String
     CleanupMessageBody RemoveCommasBeforeSuffixes unmarshalSMS unmarshalMMS
     unmarshalCall os_Stat os_Open MMSOutput_Write).
Local Abbreviation sbrparser :=
  (TsvStream.main PhoneNumber_String SMSMessageType_String SMSStatus_String
     ReadStatus_String AndroidTS_String BoolValue_String CallType_String
     CleanupMessageBody RemoveCommasBeforeSuffixes unmarshalSMS unmarshalMMS
     unmarshalCall imageDir MkdirAll create_mms_tsv create_sms_tsv os_Stat os_Open
     NewMMSOutput MMSOutput_Write mms_close_flush).
Local Abbreviation lines_from :=
  (sms_lines PhoneNumber_String SMSMessageType_String SMSStatus_String
     ReadStatus_String AndroidTS_String BoolValue_String CleanupMessageBody
     RemoveCommasBeforeSuffixes).
Local Abbreviation header_line := (strings.Join sms_headers tab +:+ newline).

(** What [NewStreamingOutput] returns when it succeeds: the header line
    waits in the buffer of a new, empty [sms.tsv], and there is no call
    output. *)
Lemma NewStreamingOutput_inl (s : TsvStream.StreamingOutput MmsSide) :
  created = inl s →
  TsvStream.smsOut s
  = {| out_f := {| bufio.w_wr := os.created; bufio.w_buf := header_line;
                   bufio.w_err := None |};
       out_idx := 0 |}
  ∧ TsvStream.callsOut s = None
  ∧ TsvStream.smsCount s = 0%Z ∧ TsvStream.mmsCount s = 0%Z
  ∧ TsvStream.callCount s = 0%Z.
Proof.
  unfold TsvStream.NewStreamingOutput.
  destruct MkdirAll; [discriminate|]. destruct create_mms_tsv; [discriminate|].
  destruct NewMMSOutput as [mmsOut|]; [|discriminate].
  destruct create_sms_tsv; [discriminate|].
  unfold NewSMSOutput, fmt.Fprintln, Write, bufio_writer.
  rewrite bufio_Write_fits by (reflexivity || (vm_compute; lia)).
  intros [= <-]. by split_and!.
Qed.

Lemma write_all_chunk_lines (records : list SMS) (f : list string) (idx : Z) :
  out_f (write_all PhoneNumber_String SMSMessageType_String SMSStatus_String
           ReadStatus_String AndroidTS_String BoolValue_String CleanupMessageBody
           RemoveCommasBeforeSuffixes {| out_f := f; out_idx := idx |} records).2
  = f ++ lines_from idx records.
Proof.
  revert f idx. induction records as [|sms records IH]; intros f idx.
  - simpl. by rewrite app_nil_r.
  - cbn [write_all sms_lines]. unfold SMSOutput_Write, fmt.Fprintln, Write.
    unfold chunk_writer at 1. cbn [out_f out_idx].
    unfold sms_row. rewrite IH. by rewrite <- app_assoc.
Qed.

(** The lines that [GenerateSMSOutput] writes. *)
Lemma GenerateSMSOutput_lines (records : list SMS) :
  (GenerateSMSOutput (W:=list string) PhoneNumber_String SMSMessageType_String
     SMSStatus_String ReadStatus_String AndroidTS_String BoolValue_String
     CleanupMessageBody RemoveCommasBeforeSuffixes [] records).2
  = header_line :: lines_from 0%Z records.
Proof.
  unfold GenerateSMSOutput, NewSMSOutput, fmt.Fprintln, Write.
  unfold chunk_writer at 1. cbn [app].
  pose proof (write_all_chunk_lines records [header_line] 0) as Hout.
  revert Hout.
  match goal with
  | |- context [let '(_, _) := ?w in _] => destruct w as [err o]
  end.
  cbn [snd]. by intros ->.
Qed.

(** A line that fits into the buffer of [sms.tsv] stays there. *)
Lemma TsvStream_onSms_buffers (sms : SMS) (r : TsvStream.Run MmsSide) :
  let s := TsvStream.out r in
  let f := out_f (TsvStream.smsOut s) in
  let line := strings.Join
                (sms_row PhoneNumber_String SMSMessageType_String SMSStatus_String
                   ReadStatus_String AndroidTS_String BoolValue_String
                   CleanupMessageBody RemoveCommasBeforeSuffixes
                   (out_idx (TsvStream.smsOut s)) sms) tab +:+ newline in
  bufio.w_err f = None →
  String.length line ≤ bufio.Available f →
  on_sms sms r
  = (None,
     {| TsvStream.out :=
          {| TsvStream.mmsOut := TsvStream.mmsOut s;
             TsvStream.smsOut :=
               {| out_f := {| bufio.w_wr := bufio.w_wr f;
                              bufio.w_buf := bufio.w_buf f +:+ line;
                              bufio.w_err := None |};
                  out_idx := wrap64 (out_idx (TsvStream.smsOut s) + 1) |};
             TsvStream.callsOut := TsvStream.callsOut s;
             TsvStream.smsCount := wrap64 (TsvStream.smsCount s + 1);
             TsvStream.mmsCount := TsvStream.mmsCount s;
             TsvStream.callCount := TsvStream.callCount s |};
        TsvStream.panicking := TsvStream.panicking r |}).
Proof.
  intros s f line Herr Hfits. unfold TsvStream.onSms, SMSOutput_Write, fmt.Fprintln.
  unfold Write, bufio_writer. cbn [out_f out_idx].
  fold s. fold f. unfold sms_row in line. fold line.
  by rewrite bufio_Write_fits by assumption.
Qed.

(** While everything fits into the buffer, the handlers leave the lines
    of the [sms] children there and never touch the file. *)
Lemma TsvStream_dispatch_buffers (children : list Node) :
  ∀ r : TsvStream.Run MmsSide,
    let f := out_f (TsvStream.smsOut (TsvStream.out r)) in
    let lines := lines_from (out_idx (TsvStream.smsOut (TsvStream.out r)))
                   (omap (sms_of unmarshalSMS) children) in
    Forall (decodable unmarshalSMS unmarshalMMS true true) children →
    (∀ mms m, (MMSOutput_Write mms m).1 = None) →
    bufio.w_err f = None →
    bufio.Buffered f + String.length (bytes_of lines) ≤ bufio.defaultBufSize →
    ∃ r', dispatch unmarshalSMS unmarshalMMS (Some on_sms) (Some on_mms) children r
          = (None, r')
          ∧ TsvStream.panicking r' = TsvStream.panicking r
          ∧ out_f (TsvStream.smsOut (TsvStream.out r'))
            = {| bufio.w_wr := bufio.w_wr f;
                 bufio.w_buf := bufio.w_buf f +:+ bytes_of lines;
                 bufio.w_err := None |}.
Proof.
  induction children as [|c children IH]; intros r f lines Hchildren Hmms Herr Hfits.
  - eexists. split; [reflexivity|]. split; [reflexivity|].
    subst lines. cbn [omap list_omap sms_lines bytes_of foldr].
    rewrite string_app_nil_r. subst f. destruct (out_f _) as [wr buf err].
    cbn in *. by rewrite Herr.
  - apply Forall_cons in Hchildren as [Hc Hchildren].
    assert (Hskip : sms_of unmarshalSMS c = None →
              dispatch unmarshalSMS unmarshalMMS (Some on_sms) (Some on_mms)
                (c :: children) r
              = dispatch unmarshalSMS unmarshalMMS (Some on_sms) (Some on_mms)
                  children r →
              ∃ r', dispatch unmarshalSMS unmarshalMMS (Some on_sms) (Some on_mms)
                      (c :: children) r = (None, r')
                ∧ TsvStream.panicking r' = TsvStream.panicking r
                ∧ out_f (TsvStream.smsOut (TsvStream.out r'))
                  = {| bufio.w_wr := bufio.w_wr f;
                       bufio.w_buf := bufio.w_buf f +:+ bytes_of lines;
                       bufio.w_err := None |}).
    { intros Hnone ->. subst lines. cbn [omap list_omap] in *. rewrite Hnone in *.
      by apply IH. }
    destruct c as [se content|data|data|target inst|data];
      try (apply Hskip; reflexivity).
    destruct Hc as [Hsms Hmms'].
    destruct (decide (xml.Name_Local se = "sms")) as [Hname|Hname];
      [|destruct (decide (xml.Name_Local se = "mms")) as [Hname'|Hname']].
    + destruct (Hsms Hname eq_refl) as [sms Hsms_of]. clear Hskip Hsms Hmms'.
      assert (Hlines : lines
                       = (strings.Join
                            (sms_row PhoneNumber_String SMSMessageType_String
                               SMSStatus_String ReadStatus_String AndroidTS_String
                               BoolValue_String CleanupMessageBody
                               RemoveCommasBeforeSuffixes
                               (out_idx (TsvStream.smsOut (TsvStream.out r))) sms)
                            tab +:+ newline)
                         :: lines_from
                              (wrap64 (out_idx (TsvStream.smsOut (TsvStream.out r)) + 1))
                              (omap (sms_of unmarshalSMS) children)).
      { subst lines. cbn [omap list_omap sms_of].
        rewrite decide_True by assumption. by rewrite Hsms_of. }
      rewrite Hlines in *. clear Hlines lines.
      cbn [bytes_of foldr] in Hfits |- *. rewrite string_length_app in Hfits.
      cbn [dispatch]. rewrite decide_True by assumption. rewrite Hsms_of.
      rewrite TsvStream_onSms_buffers
        by (assumption || (unfold bufio.Available; fold f; lia)).
      edestruct IH as (r' & Hrun & Hpanic & Hout); [exact Hchildren|exact Hmms|..];
        [| |exists r'; split; [exact Hrun|]; split; [exact Hpanic|]].
      * reflexivity.
      * cbn [TsvStream.out TsvStream.smsOut out_f out_idx bufio.w_buf].
        unfold bufio.Buffered in *. cbn [bufio.w_buf].
        rewrite string_length_app. fold f. unfold bytes_of in *. lia.
      * rewrite Hout. cbn [TsvStream.out TsvStream.smsOut out_f out_idx
                             bufio.w_buf bufio.w_wr].
        fold f. by rewrite string_app_assoc.
    + destruct (Hmms' Hname' eq_refl) as [mms Hmms_of]. clear Hskip Hsms Hmms'.
      assert (Hlines : lines
                       = lines_from (out_idx (TsvStream.smsOut (TsvStream.out r)))
                           (omap (sms_of unmarshalSMS) children)).
      { subst lines. cbn [omap list_omap sms_of]. by rewrite decide_False. }
      rewrite Hlines in *. clear Hlines lines.
      cbn [dispatch]. rewrite decide_False by assumption.
      rewrite decide_True by assumption. rewrite Hmms_of.
      unfold TsvStream.onMms at 1.
      pose proof (Hmms mms (TsvStream.mmsOut (TsvStream.out r))) as Hnone.
      destruct (MMSOutput_Write mms (TsvStream.mmsOut (TsvStream.out r)))
        as [err mmsOut]. cbn [fst] in Hnone. subst err.
      edestruct IH as (r' & Hrun & Hpanic & Hout); [exact Hchildren|exact Hmms|..];
        [| |exists r'; split; [exact Hrun|]; split; [exact Hpanic|exact Hout]].
      * exact Herr.
      * exact Hfits.
    + apply Hskip.
      * cbn [sms_of]. by rewrite decide_False.
      * cbn [dispatch]. by rewrite !decide_False.
Qed.

(** [Close] moves nothing into [sms.tsv]: the file is closed first, and
    the flush that follows fails on the closed file. *)
Lemma TsvStream_Close_writes_nothing (s : TsvStream.StreamingOutput MmsSide) :
  let f := out_f (TsvStream.smsOut s) in
  os.file_closed (bufio.w_wr f) = false →
  bufio.w_wr (out_f (TsvStream.smsOut (close s)))
  = {| os.file_content := os.file_content (bufio.w_wr f); os.file_closed := true |}
  ∧ bufio.w_buf (out_f (TsvStream.smsOut (close s))) = bufio.w_buf f.
Proof.
  intros f Hopen. unfold TsvStream.Close, os.File_Close. fold f. rewrite Hopen.
  unfold bufio.Flush, os.File_Write. cbn [bufio.w_err bufio.w_wr bufio.w_buf os.file_closed].
  destruct (bufio.w_err f); [by split|].
  case_decide; by split.
Qed.

(** X22. An export that fits into one buffer never reaches the file.
    [Close] closes [sms.tsv] before it flushes the buffer in front of it, so
    for a run over one well-formed message backup whose output, header
    line included, is at most 4096 bytes, the command ends normally and
    prints no error, and [sms.tsv] is left empty: the lines that
    [GenerateSMSOutput] would have written for the [sms] children are
    still in the buffer when the file is closed. *)
Theorem TsvStream_small_export_is_lost (xmlFilePath : string)
    (prolog children epilogue : list Node) (attrs : list xml.Attr)
    (s0 : TsvStream.StreamingOutput MmsSide) :
  created = inl s0 →
  (∀ mms m, (MMSOutput_Write mms m).1 = None) →
  os_Stat xmlFilePath = Some false →
  strings.HasPrefix (filepath.Base xmlFilePath) "sms-" = true →
  filepath.Ext (filepath.Base xmlFilePath) = ".xml" →
  os_Open xmlFilePath
  = inl (tokens_of prolog
         ++ tokens (Element {| xml.Name_Local := "smses"; xml.Attrs := attrs |} children)
         ++ tokens_of epilogue) →
  Forall (λ n, named ["smses"] n = false) prolog →
  Forall (λ n, named ["sms"; "mms"] n = false) epilogue →
  Forall (decodable unmarshalSMS unmarshalMMS true true) children →
  let lines :=
    (GenerateSMSOutput (W:=list string) PhoneNumber_String SMSMessageType_String
       SMSStatus_String ReadStatus_String AndroidTS_String BoolValue_String
       CleanupMessageBody RemoveCommasBeforeSuffixes []
       (omap (sms_of unmarshalSMS) children)).2 in
  String.length (bytes_of lines) ≤ bufio.defaultBufSize →
  ∃ s, sbrparser [xmlFilePath] = Some (Completed, Some s, [])
       ∧ bufio.w_wr (out_f (TsvStream.smsOut s))
         = {| os.file_content := ""; os.file_closed := true |}
       ∧ bufio.w_buf (out_f (TsvStream.smsOut s)) = bytes_of lines.
Proof.
  intros Hcreated Hmms Hstat Hprefix Hext Hopen Hprolog Hepilogue Hchildren lines Hfits.
  subst lines. rewrite GenerateSMSOutput_lines in *.
  destruct (NewStreamingOutput_inl s0 Hcreated) as (HsmsOut & _).
  destruct (Decode_dispatches unmarshalSMS unmarshalMMS prolog children epilogue attrs
              (Some on_sms) (Some on_mms)
              {| TsvStream.out := s0; TsvStream.panicking := None |}
              Hprolog Hepilogue) as (d & Hnew & Hdecode); [left; eexists; reflexivity|].
  destruct (TsvStream_dispatch_buffers children
              {| TsvStream.out := s0; TsvStream.panicking := None |})
    as (r' & Hrun & Hpanic & Hout); [assumption..| | |].
  { cbn [TsvStream.out]. by rewrite HsmsOut. }
  { cbn [TsvStream.out]. rewrite HsmsOut. cbn [out_f out_idx].
    unfold bufio.Buffered. cbn [bufio.w_buf].
    cbn [bytes_of foldr] in Hfits. rewrite string_length_app in Hfits.
    unfold bytes_of. lia. }
  cbn [TsvStream.out TsvStream.panicking] in Hpanic, Hout.
  rewrite HsmsOut in Hout. cbn [out_f out_idx bufio.w_wr bufio.w_buf] in Hout.
  rewrite Hrun in Hdecode. cbn [fst snd] in Hdecode.
  assert (Hhandle : handle xmlFilePath (Some s0)
                    = Some (Return None, Some (TsvStream.out r'))).
  { unfold TsvStream.handleFile. rewrite Hprefix, Hext, Hopen, orb_true_r.
    rewrite bool_decide_eq_false_2 by (intros Hne; by apply Hne).
    cbn [negb orb]. unfold TsvStream.StreamingOutput_MessageDecoder.
    rewrite Hnew. rewrite Hdecode. unfold TsvStream.decoded. by rewrite Hpanic. }
  unfold TsvStream.main. rewrite Hcreated. cbn [TsvStream.main_loop].
  rewrite Hstat, Hhandle.
  destruct (TsvStream_Close_writes_nothing (TsvStream.out r')) as [Hfile Hbuf].
  { by rewrite Hout. }
  eexists. split; [reflexivity|]. rewrite Hfile, Hbuf, Hout. by split.
Qed.

Lemma dispatch_calls_passes (forCall : Call → TsvStream.Run MmsSide
                                       → option error * TsvStream.Run MmsSide)
    (nodes : list Node) (r : TsvStream.Run MmsSide) :
  Forall (λ n, named ["call"] n = false) nodes →
  dispatch_calls unmarshalCall forCall nodes r = (None, r).
Proof.
  intros Hnodes. induction Hnodes as [|n nodes Hn _ IH]; [reflexivity|].
  destruct n as [se content|data|data|target inst|data]; try exact IH.
  cbn [dispatch_calls]. cbn [named] in Hn. apply bool_decide_eq_false in Hn.
  rewrite decide_False; [exact IH|].
  intros Hname. apply Hn. by apply list_elem_of_singleton.
Qed.

(** X23. The first call of a call backup brings the command down.
    [NewStreamingOutput] never sets [callsOut], so when the first [call]
    element of a call backup unmarshals, [onCall] counts it and then
    calls [Write] on the nil [CallOutput]: the run panics, what follows in
    the file and on the command line is not read, and the deferred
    [Close] still runs. *)
Theorem TsvStream_first_call_panics (xmlFilePath : string) (args : list string)
    (prolog before content : list Node) (se : xml.StartElement)
    (rest : list xml.Token) (attrs : list xml.Attr) (call : Call)
    (s0 : TsvStream.StreamingOutput MmsSide) :
  created = inl s0 →
  os_Stat xmlFilePath = Some false →
  strings.HasPrefix (filepath.Base xmlFilePath) "calls-" = true →
  filepath.Ext (filepath.Base xmlFilePath) = ".xml" →
  os_Open xmlFilePath
  = inl (tokens_of prolog
         ++ xml.StartElementT {| xml.Name_Local := "calls"; xml.Attrs := attrs |}
         :: tokens_of before ++ tokens (Element se content) ++ rest) →
  Forall (λ n, named ["calls"] n = false) prolog →
  Forall (λ n, named ["call"] n = false) before →
  xml.Name_Local se = "call" →
  unmarshalCall se (tokens_of content) = inl call →
  sbrparser (xmlFilePath :: args)
  = Some (Panicked TsvStream.nil_dereference,
          Some (close {| TsvStream.mmsOut := TsvStream.mmsOut s0;
                         TsvStream.smsOut := TsvStream.smsOut s0;
                         TsvStream.callsOut := None;
                         TsvStream.smsCount := 0; TsvStream.mmsCount := 0;
                         TsvStream.callCount := 1 |}),
          []).
Proof.
  intros Hcreated Hstat Hprefix Hext Hopen Hprolog Hbefore Hname Hcall.
  destruct (NewStreamingOutput_inl s0 Hcreated)
    as (HsmsOut & HcallsOut & HsmsCount & HmmsCount & HcallCount).
  assert (Hhandle :
            handle xmlFilePath (Some s0)
            = Some (Panic TsvStream.nil_dereference,
                    Some {| TsvStream.mmsOut := TsvStream.mmsOut s0;
                            TsvStream.smsOut := TsvStream.smsOut s0;
                            TsvStream.callsOut := None;
                            TsvStream.smsCount := 0; TsvStream.mmsCount := 0;
                            TsvStream.callCount := 1 |})).
  { unfold TsvStream.handleFile.
    rewrite Hprefix, (HasPrefix_calls_not_sms_file _ Hprefix), Hext, Hopen.
    rewrite bool_decide_eq_false_2 by (intros Hne; by apply Hne).
    cbn [negb orb]. unfold TsvStream.StreamingOutput_CallDecoder, NewCallDecoder.
    unfold xml.NewDecoder.
    rewrite findElem_skips_nodes by (assumption || (unfold fuel_for; simpl; lia)).
    rewrite (findElem_fuel _ (S (S (length (tokens_of before
                                              ++ tokens (Element se content) ++ rest)))))
      by (unfold fuel_for; cbn [xml.input length];
          repeat (rewrite length_app; cbn [length]); lia).
    rewrite findElem_finds by (apply list_elem_of_singleton; reflexivity).
    unfold CallDecoder_Decode. cbn [OnCall cd_decoder xml.Name_Local].
    rewrite CallDecoder_loop_children by (unfold fuel_for; simpl; lia).
    rewrite dispatch_calls_passes by assumption.
    rewrite CallDecoder_loop_call
      by (assumption || (unfold fuel_for; cbn [xml.input];
                         repeat (rewrite length_app; cbn [length]); lia)).
    rewrite Hcall. unfold TsvStream.onCall. cbn [TsvStream.out TsvStream.panicking].
    rewrite HcallsOut. unfold TsvStream.decoded. cbn [TsvStream.out TsvStream.panicking].
    by rewrite HsmsCount, HmmsCount, HcallCount. }
  unfold TsvStream.main. rewrite Hcreated. cbn [TsvStream.main_loop].
  by rewrite Hstat, Hhandle.
Qed.

(** With the nil pointer for its output, the loop of [main] comes to an
    end and still has the nil pointer. *)
Lemma TsvStream_main_loop_nil (args : list string) (stderr : list stderr_line) :
  ∃ e stderr', loop args None stderr = Some (e, None, stderr ++ stderr').
Proof.
  revert stderr. induction args as [|xmlFilePath args IH]; intros stderr.
  - exists Completed, []. by rewrite app_nil_r.
  - cbn [TsvStream.main_loop]. destruct (os_Stat xmlFilePath) as [[|]|].
    + eexists _, _. reflexivity.
    + assert (Hhandle : (∃ err, handle xmlFilePath None = Some (Return (Some err), None))
                        ∨ handle xmlFilePath None
                          = Some (Panic TsvStream.nil_dereference, None)).
      { unfold TsvStream.handleFile. case_match; [left; eexists; reflexivity|].
        destruct (os_Open xmlFilePath) as [f|err]; [|left; eexists; reflexivity].
        case_match.
        - unfold TsvStream.StreamingOutput_MessageDecoder.
          destruct (NewMessageDecoder_total (SMS:=SMS) (MMS:=MMS)
                      (H:=TsvStream.Run MmsSide) f) as [[d|err] ->];
            [by right | left; eexists; reflexivity].
        - unfold TsvStream.StreamingOutput_CallDecoder.
          destruct (NewCallDecoder_total (Call:=Call) (H:=TsvStream.Run MmsSide) f)
            as [[d|err] ->]; [by right | left; eexists; reflexivity]. }
      destruct Hhandle as [[err ->]| ->].
      * destruct (IH (stderr ++ [("Error handling file", Some err)]))
          as (e & stderr' & ->).
        eexists _, _. by rewrite <- app_assoc.
      * exists (Panicked TsvStream.nil_dereference), []. by rewrite app_nil_r.
    + eexists _, _. reflexivity.
Qed.

(** X24. When the output files cannot be created the command goes on
    with a nil [StreamingOutput] and panics, whatever the arguments:
    [main] prints "Error creating output files" and does not return, and
    every way out of the loop dereferences the nil pointer. *)
Theorem TsvStream_creation_failure_panics (args : list string) (err : error) :
  created = inr err →
  args ≠ [] →
  ∃ stderr,
    sbrparser args
    = Some (Panicked TsvStream.nil_dereference, None,
            ("Error creating output files", Some err) :: stderr).
Proof.
  intros Hcreated Hargs. unfold TsvStream.main.
  destruct args as [|xmlFilePath args]; [contradiction|]. rewrite Hcreated.
  destruct (TsvStream_main_loop_nil (xmlFilePath :: args)
              [("Error creating output files", Some err)]) as (e & stderr' & ->).
  by exists stderr'.
Qed.

End TsvStreamProperties.

Lemma TsvStream_small_export_is_lost_witness :
  let path := "backups/sms-20180213.xml" in
  let s0 : TsvStream.StreamingOutput nat :=
    {| TsvStream.mmsOut := 0;
       TsvStream.smsOut :=
         {| out_f := {| bufio.w_wr := os.created;
                        bufio.w_buf := strings.Join sms_headers tab +:+ newline;
                        bufio.w_err := None |};
            out_idx := 0 |};
       TsvStream.callsOut := None;
       TsvStream.smsCount := 0; TsvStream.mmsCount := 0;
       TsvStream.callCount := 0 |} in
  let lines := (Sample.GenerateSMSOutput
                  (omap (sms_of Sample.unmarshalSMS) Sample.interleaved)).2 in
  TsvStreamExample.NewStreamingOutput None = inl s0
  ∧ (∀ (mms : MMS unit unit unit) (m : nat), ((None : option error, S m)).1 = None)
  ∧ TsvStreamExample.os_Stat path = Some false
  ∧ strings.HasPrefix (filepath.Base path) "sms-" = true
  ∧ filepath.Ext (filepath.Base path) = ".xml"
  ∧ Forall (λ n, named ["smses"] n = false) [Instruction "xml" "version='1.0'"]
  ∧ Forall (λ n, named ["sms"; "mms"] n = false) [Text " "]
  ∧ Forall (decodable Sample.unmarshalSMS Sample.unmarshalMMS true true)
      Sample.interleaved
  ∧ length lines = 3
  ∧ String.length (bytes_of lines) ≤ bufio.defaultBufSize
  ∧ ∃ s, TsvStreamExample.main None [path] = Some (Completed, Some s, [])
         ∧ bufio.w_wr (out_f (TsvStream.smsOut s))
           = {| os.file_content := ""; os.file_closed := true |}
         ∧ bufio.w_buf (out_f (TsvStream.smsOut s)) = bytes_of lines.
Proof.
  intros path s0 lines.
  assert (Hcreated : TsvStreamExample.NewStreamingOutput None = inl s0)
    by (vm_compute; reflexivity).
  assert (Hmms : ∀ (mms : MMS unit unit unit) (m : nat),
            ((None : option error, S m)).1 = None) by reflexivity.
  assert (Hstat : TsvStreamExample.os_Stat path = Some false) by reflexivity.
  assert (Hprefix : strings.HasPrefix (filepath.Base path) "sms-" = true)
    by reflexivity.
  assert (Hext : filepath.Ext (filepath.Base path) = ".xml") by reflexivity.
  assert (Hprolog : Forall (λ n, named ["smses"] n = false)
                      [Instruction "xml" "version='1.0'"])
    by (repeat constructor).
  assert (Hepilogue : Forall (λ n, named ["sms"; "mms"] n = false) [Text " "])
    by (repeat constructor).
  assert (Hchildren : Forall (decodable Sample.unmarshalSMS Sample.unmarshalMMS true true)
                        Sample.interleaved).
  { repeat constructor; intros; eexists; reflexivity. }
  assert (Hfits : String.length (bytes_of lines) ≤ bufio.defaultBufSize)
    by (vm_compute; lia).
  split_and!; [exact Hcreated | exact Hmms | exact Hstat | exact Hprefix | exact Hext
              | exact Hprolog | exact Hepilogue | exact Hchildren | reflexivity
              | exact Hfits |].
  exact (TsvStream_small_export_is_lost (MmsSide:=nat) (CallType:=unit)
           id Sample.unit_String Sample.unit_String Sample.unit_String id
           Sample.unit_String Sample.unit_String id id
           Sample.unmarshalSMS Sample.unmarshalMMS TsvStreamExample.unmarshalCall
           "out/images" None None None TsvStreamExample.os_Stat TsvStreamExample.os_Open
           (inl 0) (λ _ n, (None, S n)) id
           path [Instruction "xml" "version='1.0'"] Sample.interleaved [Text " "]
           [xml.mkAttr "count" "3"] s0
           Hcreated Hmms Hstat Hprefix Hext eq_refl Hprolog Hepilogue Hchildren Hfits).
Defined.

Lemma TsvStream_first_call_panics_witness :
  let path := "backups/calls-20180213.xml" in
  let se := {| xml.Name_Local := "call";
               xml.Attrs := [xml.mkAttr "number" "5550100"] |} in
  let s0 : TsvStream.StreamingOutput nat :=
    {| TsvStream.mmsOut := 0;
       TsvStream.smsOut :=
         {| out_f := {| bufio.w_wr := os.created;
                        bufio.w_buf := strings.Join sms_headers tab +:+ newline;
                        bufio.w_err := None |};
            out_idx := 0 |};
       TsvStream.callsOut := None;
       TsvStream.smsCount := 0; TsvStream.mmsCount := 0;
       TsvStream.callCount := 0 |} in
  TsvStreamExample.NewStreamingOutput None = inl s0
  ∧ TsvStreamExample.os_Stat path = Some false
  ∧ strings.HasPrefix (filepath.Base path) "calls-" = true
  ∧ filepath.Ext (filepath.Base path) = ".xml"
  ∧ Forall (λ n, named ["calls"] n = false) [Instruction "xml" "version='1.0'"]
  ∧ Forall (λ n, named ["call"] n = false) [Text " "]
  ∧ xml.Name_Local se = "call"
  ∧ TsvStreamExample.main None [path; "backups/sms-20180213.xml"]
    = Some (Panicked TsvStream.nil_dereference,
            Some {| TsvStream.mmsOut := 0;
                    TsvStream.smsOut :=
                      {| out_f :=
                           {| bufio.w_wr := {| os.file_content := "";
                                               os.file_closed := true |};
                              bufio.w_buf := strings.Join sms_headers tab +:+ newline;
                              bufio.w_err := Some os.ErrClosed |};
                         out_idx := 0 |};
                    TsvStream.callsOut := None;
                    TsvStream.smsCount := 0; TsvStream.mmsCount := 0;
                    TsvStream.callCount := 1 |},
            []).
Proof.
  intros path se s0.
  assert (Hcreated : TsvStreamExample.NewStreamingOutput None = inl s0)
    by (vm_compute; reflexivity).
  assert (Hstat : TsvStreamExample.os_Stat path = Some false) by reflexivity.
  assert (Hprefix : strings.HasPrefix (filepath.Base path) "calls-" = true)
    by reflexivity.
  assert (Hext : filepath.Ext (filepath.Base path) = ".xml") by reflexivity.
  assert (Hprolog : Forall (λ n, named ["calls"] n = false)
                      [Instruction "xml" "version='1.0'"])
    by (repeat constructor).
  assert (Hbefore : Forall (λ n, named ["call"] n = false) [Text " "])
    by (repeat constructor).
  assert (Hname : xml.Name_Local se = "call") by reflexivity.
  split_and!; [exact Hcreated | exact Hstat | exact Hprefix | exact Hext
              | exact Hprolog | exact Hbefore | exact Hname |].
  exact (TsvStream_first_call_panics (MmsSide:=nat) (CallType:=unit)
           id Sample.unit_String Sample.unit_String Sample.unit_String id
           Sample.unit_String Sample.unit_String id id
           Sample.unmarshalSMS Sample.unmarshalMMS TsvStreamExample.unmarshalCall
           "out/images" None None None TsvStreamExample.os_Stat TsvStreamExample.os_Open
           (inl 0) (λ _ n, (None, S n)) id
           path ["backups/sms-20180213.xml"] [Instruction "xml" "version='1.0'"]
           [Text " "] [] se [xml.BadSyntax "invalid character"]
           [xml.mkAttr "count" "2"]
           {| call_Number := "5550100"; call_Duration := 0; call_Date := "";
              call_Type := tt; call_ReadableDate := ""; call_ContactName := "" |}
           s0 Hcreated Hstat Hprefix Hext eq_refl Hprolog Hbefore Hname eq_refl).
Defined.

Lemma TsvStream_creation_failure_panics_witness :
  let denied := ErrorString "permission denied" in
  TsvStreamExample.NewStreamingOutput (Some denied)
  = inr (Errorf "unable to create image directory out/images" denied)
  ∧ ["backups/old-sms.xml"; "backups/sms-20180213.xml"] ≠ []
  ∧ ∃ stderr,
      TsvStreamExample.main (Some denied)
        ["backups/old-sms.xml"; "backups/sms-20180213.xml"]
      = Some (Panicked TsvStream.nil_dereference, None,
              ("Error creating output files",
               Some (Errorf "unable to create image directory out/images" denied)) :: stderr).
Proof.
  intros denied.
  assert (Hcreated : TsvStreamExample.NewStreamingOutput (Some denied)
                     = inr (Errorf "unable to create image directory out/images" denied))
    by reflexivity.
  assert (Hargs : ["backups/old-sms.xml"; "backups/sms-20180213.xml"] ≠ [])
    by discriminate.
  split_and!; [exact Hcreated | exact Hargs |].
  exact (TsvStream_creation_failure_panics (MmsSide:=nat) (CallType:=unit)
           id Sample.unit_String Sample.unit_String Sample.unit_String id
           Sample.unit_String Sample.unit_String id id
           Sample.unmarshalSMS Sample.unmarshalMMS TsvStreamExample.unmarshalCall
           "out/images" (Some denied) None None TsvStreamExample.os_Stat
           TsvStreamExample.os_Open
           (inl 0) (λ _ n, (None, S n)) id
           ["backups/old-sms.xml"; "backups/sms-20180213.xml"]
           (Errorf "unable to create image directory out/images" denied) Hcreated Hargs).
Defined.
